(** * Client-side session manager of the unicom web application

    A shallow embedding of [app/utils/AuthProvider.tsx] (token expiry,
    silent refresh, login / logout, route guard) and of the storage and
    HTTP helpers of [app/utils/auth.ts], with the properties the
    specification states about them.

    Layout:
    - [Platform]: the browser built-ins the code calls ([atob],
      [JSON.parse], property access, the relational comparison [<],
      [String.prototype.split], [JSON.stringify]), after the HTML and
      ECMAScript standards;
    - [Browser]: the mutable world the code runs in ([localStorage], the
      React state cells, the router, the network);
    - [AuthUtils]: [auth.ts];
    - [AuthProvider]: [AuthProvider.tsx];
    - [Session]: the operations as the steps of a transition system;
    - [Scenario]: concrete browsers, tokens and sessions;
    - [Provider]: the provider mounting; [AuthRequests]: the three
      requests of [auth.ts]; [LoginPage], [RegisterPage], [MyPostsPage]:
      the handlers of the pages that use the session manager;
    - [Notion], [Case]: what the further properties are stated with, and
      more concrete cases;
    - checks of the embedding on concrete inputs, facts about the
      built-ins and the storage, the properties of the session manager,
      and further properties of the code around it. *)

From Stdlib Require Import ZArith NArith List Bool Ascii String Lia.
From stdpp Require Import base option gmap strings pretty.
Import ListNotations.

#[local] Set Warnings "-register-all".
Local Open Scope Z_scope.

(* ===================================================================== *)
(** * Browser built-ins                                                   *)
(* ===================================================================== *)

Module Platform.

(** A JavaScript string is a sequence of 16-bit code units.  The strings
    the session manager stores and passes around (tokens, user ids, URLs)
    are kept as [string]; where a built-in inspects a string character by
    character it works on the code units. *)
Definition units (s : string) : list N :=
  map N_of_ascii (list_ascii_of_string s).

Definition of_units (l : list N) : string :=
  string_of_list_ascii (map ascii_of_N l).

(** JavaScript truthiness of an optional string: [null], [undefined] and
    the empty string are falsy. *)
Definition truthy (o : option string) : bool :=
  match o with
  | Some s => negb (String.eqb s EmptyString)
  | None => false
  end.

(** [a || b] on optional strings. *)
Definition js_or (a b : option string) : option string :=
  if truthy a then a else b.

(** ** [String.prototype.split] with a one-character separator *)

Fixpoint split_units (sep : N) (cur : list N) (l : list N) : list (list N) :=
  match l with
  | [] => [rev cur]
  | c :: r =>
      if N.eqb c sep then rev cur :: split_units sep [] r
      else split_units sep (c :: cur) r
  end.

Definition split (sep : ascii) (s : string) : list string :=
  map of_units (split_units (N_of_ascii sep) [] (units s)).

(** ** [atob]: the forgiving-base64 decode of the HTML standard

    [None] stands for the [InvalidCharacterError] exception. *)

Definition is_ascii_whitespace (c : N) : bool :=
  (N.eqb c 9 || N.eqb c 10 || N.eqb c 12 || N.eqb c 13 || N.eqb c 32)%bool.

Definition base64_index (c : N) : option N :=
  if (N.leb 65 c && N.leb c 90)%bool then Some (c - 65)%N
  else if (N.leb 97 c && N.leb c 122)%bool then Some (c - 71)%N
  else if (N.leb 48 c && N.leb c 57)%bool then Some (c + 4)%N
  else if N.eqb c 43 then Some 62%N
  else if N.eqb c 47 then Some 63%N
  else None.

Fixpoint sextets (l : list N) : option (list N) :=
  match l with
  | [] => Some []
  | c :: r =>
      match base64_index c, sextets r with
      | Some i, Some rest => Some (i :: rest)
      | _, _ => None
      end
  end.

Fixpoint base64_bytes (l : list N) : list N :=
  match l with
  | a :: b :: c :: d :: rest =>
      let n := (a * 262144 + b * 4096 + c * 64 + d)%N in
      (n / 65536)%N :: ((n / 256) mod 256)%N :: (n mod 256)%N
        :: base64_bytes rest
  | [a; b; c] =>
      let n := ((a * 4096 + b * 64 + c) / 4)%N in
      [(n / 256)%N; (n mod 256)%N]
  | [a; b] => [((a * 64 + b) / 16)%N]
  | _ => []
  end.

(** Step 2 of the algorithm: with a length divisible by four, one or two
    trailing [=] are dropped. *)
Definition strip_padding (l : list N) : list N :=
  if Nat.eqb (length l mod 4) 0 then
    match rev l with
    | 61%N :: 61%N :: r => rev r
    | 61%N :: r => rev r
    | _ => l
    end
  else l.

Definition atob (s : string) : option string :=
  let data := strip_padding (filter (fun c => negb (is_ascii_whitespace c)) (units s)) in
  if Nat.eqb (length data mod 4) 1 then None
  else option_map (fun six => of_units (base64_bytes six)) (sextets data).

(** ** Numbers

    A JavaScript number is an IEEE 754 double: not a number, an infinity,
    or the finite value [n / 2^p], kept with [0 <= p] and with [n] odd
    unless [p] is 0 (so an integer [x] is [Finite x 0]; the sign of zero
    is not kept, no comparison sees it). *)
Inductive number : Type :=
  | NaN
  | Inf (negative : bool)
  | Finite (n p : Z).       (* n / 2^p *)

(** [n * 2^k] in that form. *)
Definition dyadic (n k : Z) : number :=
  if Z.leb 0 k then Finite (n * 2 ^ k) 0
  else
    let g := Z.gcd n (2 ^ (- k)) in
    Finite (n / g) (- k - Z.log2 g).

(** The double nearest to the rational [num / den] ([0 < den]), as every
    numeric literal is read: 53 significant bits, no bit below 2^-1074,
    ties to the even significand, and an infinity from 2^1024 on. *)
Definition round_double (num den : Z) : number :=
  if Z.eqb num 0 then Finite 0 0
  else
    let a := Z.abs num in
    let e0 := Z.log2 a - Z.log2 den in
    (* 2^e <= a / den < 2^(e+1) *)
    let e :=
      if (if Z.leb 0 e0 then Z.leb (den * 2 ^ e0) a else Z.leb den (a * 2 ^ (- e0)))
      then e0 else e0 - 1 in
    (* the weight of the last bit kept *)
    let k := Z.max (e - 52) (- 1074) in
    let N := if Z.leb 0 k then a else a * 2 ^ (- k) in
    let D := if Z.leb 0 k then den * 2 ^ k else den in
    let q := N / D in
    let r := N mod D in
    let m :=
      if (Z.ltb D (2 * r) || (Z.eqb D (2 * r) && Z.odd q))%bool then q + 1 else q in
    if (Z.leb 0 k && Z.leb (2 ^ 1024) (m * 2 ^ k))%bool then Inf (Z.ltb num 0)
    else dyadic (if Z.ltb num 0 then - m else m) k.

(** The double a decimal literal of value [m * 10^e] denotes. *)
Definition decimal (m e : Z) : number :=
  if Z.leb 0 e then round_double (m * 10 ^ e) 1 else round_double m (10 ^ (- e)).

(** ** JavaScript values as [JSON.parse] can produce them

    Property names and string values are code-unit sequences, because
    [\uXXXX] escapes reach beyond Latin-1. *)
Inductive jsval : Type :=
  | JUndefined
  | JNull
  | JBool (b : bool)
  | JNum (x : number)
  | JStr (s : list N)
  | JArr (items : list jsval)
  | JObj (members : list (list N * jsval)).

(** ** [JSON.parse]

    Recursive descent over the code units, after the JSON grammar of
    ECMA-404.  [None] stands for the [SyntaxError] exception.  A call
    chain alternates between a value and the element or member list it
    opens, and reads at least one code unit every second call, so
    [2 * length input + 2] units of fuel are never used up
    ([parse_value_fuel] below). *)

Definition is_json_ws (c : N) : bool :=
  (N.eqb c 32 || N.eqb c 9 || N.eqb c 10 || N.eqb c 13)%bool.

Fixpoint skip_ws (l : list N) : list N :=
  match l with
  | c :: r => if is_json_ws c then skip_ws r else l
  | [] => []
  end.

Definition is_digit (c : N) : bool := (N.leb 48 c && N.leb c 57)%bool.

Fixpoint take_digits (l : list N) : list N * list N :=
  match l with
  | c :: r =>
      if is_digit c then let '(ds, rest) := take_digits r in (c :: ds, rest)
      else ([], l)
  | [] => ([], [])
  end.

Definition digits_value (ds : list N) : Z :=
  fold_left (fun acc c => acc * 10 + (Z.of_N c - 48)) ds 0.

Definition hex_value (c : N) : option N :=
  if is_digit c then Some (c - 48)%N
  else if (N.leb 65 c && N.leb c 70)%bool then Some (c - 55)%N
  else if (N.leb 97 c && N.leb c 102)%bool then Some (c - 87)%N
  else None.

(** The exponent part [e] / [E], optional sign, one or more digits; used by
    JSON numbers and by numeric strings alike.  [Some (0, l)] when there is
    no exponent part, [None] when it is started and malformed. *)
Definition exponent_part (l : list N) : option (Z * list N) :=
  match l with
  | c :: r =>
      if (N.eqb c 101 || N.eqb c 69)%bool then
        let '(neg, r1) :=
          match r with
          | s :: r' =>
              if N.eqb s 45 then (true, r')
              else if N.eqb s 43 then (false, r')
              else (false, r)
          | [] => (false, r)
          end in
        match take_digits r1 with
        | ([], _) => None
        | (ds, rest) =>
            Some (if neg then - digits_value ds else digits_value ds, rest)
        end
      else Some (0, l)
  | [] => Some (0, l)
  end.

(** number = [-]? int frac? exp?, with int = 0 | [1-9][0-9]*; the value is
    the double nearest to the literal. *)
Definition parse_number (l : list N) : option (jsval * list N) :=
  let '(neg, l1) :=
    match l with
    | c :: r => if N.eqb c 45 then (true, r) else (false, l)
    | [] => (false, l)
    end in
  let int_part :=
    match l1 with
    | c :: r =>
        if N.eqb c 48 then Some ([c], r)
        else match take_digits l1 with
             | ([], _) => None
             | p => Some p
             end
    | [] => None
    end in
  match int_part with
  | None => None
  | Some (ip, l2) =>
      let frac_part :=
        match l2 with
        | c :: r =>
            if N.eqb c 46 then
              match take_digits r with
              | ([], _) => None
              | p => Some p
              end
            else Some ([], l2)
        | [] => Some ([], l2)
        end in
      match frac_part with
      | None => None
      | Some (fp, l3) =>
          match exponent_part l3 with
          | None => None
          | Some (ex, l4) =>
              let m := digits_value (ip ++ fp) in
              Some (JNum (decimal (if neg then - m else m)
                                  (ex - Z.of_nat (length fp))), l4)
          end
      end
  end.

(** The characters of a string after its opening quote, up to and
    including the closing quote. *)
Fixpoint parse_string_body (acc : list N) (l : list N) : option (list N * list N) :=
  match l with
  | [] => None
  | c :: r =>
      if N.eqb c 34 then Some (rev acc, r)
      else if N.eqb c 92 then
        match r with
        | [] => None
        | x :: r' =>
            if N.eqb x 34 then parse_string_body (34%N :: acc) r'
            else if N.eqb x 92 then parse_string_body (92%N :: acc) r'
            else if N.eqb x 47 then parse_string_body (47%N :: acc) r'
            else if N.eqb x 98 then parse_string_body (8%N :: acc) r'
            else if N.eqb x 102 then parse_string_body (12%N :: acc) r'
            else if N.eqb x 110 then parse_string_body (10%N :: acc) r'
            else if N.eqb x 114 then parse_string_body (13%N :: acc) r'
            else if N.eqb x 116 then parse_string_body (9%N :: acc) r'
            else if N.eqb x 117 then
              match r' with
              | h1 :: h2 :: h3 :: h4 :: r'' =>
                  match hex_value h1, hex_value h2, hex_value h3, hex_value h4 with
                  | Some a, Some b, Some c', Some d =>
                      parse_string_body
                        ((a * 4096 + b * 256 + c' * 16 + d)%N :: acc) r''
                  | _, _, _, _ => None
                  end
              | _ => None
              end
            else None
        end
      else if N.ltb c 32 then None
      else parse_string_body (c :: acc) r
  end.

(** [l] starts with the code units of [lit]; the rest of [l]. *)
Fixpoint expect (lit : list N) (l : list N) : option (list N) :=
  match lit, l with
  | [], _ => Some l
  | a :: lit', b :: l' => if N.eqb a b then expect lit' l' else None
  | _ :: _, [] => None
  end.

Definition parser : Type := list N -> option (jsval * list N).

(** One value, given the parsers for what follows an opening bracket and
    an opening brace. *)
Definition value_with (elements : list jsval -> parser)
    (members : list (list N * jsval) -> parser) : parser := fun l =>
  match skip_ws l with
  | [] => None
  | c :: r =>
      if N.eqb c 123 then                                     (* { *)
        match skip_ws r with
        | c1 :: r1 =>
            if N.eqb c1 125 then Some (JObj [], r1)
            else members [] (c1 :: r1)
        | [] => None
        end
      else if N.eqb c 91 then                                 (* [ *)
        match skip_ws r with
        | c1 :: r1 =>
            if N.eqb c1 93 then Some (JArr [], r1)
            else elements [] (c1 :: r1)
        | [] => None
        end
      else if N.eqb c 34 then                                 (* string *)
        match parse_string_body [] r with
        | Some (s, rest) => Some (JStr s, rest)
        | None => None
        end
      else if N.eqb c 116 then                                (* true *)
        option_map (pair (JBool true)) (expect [114; 117; 101]%N r)
      else if N.eqb c 102 then                                (* false *)
        option_map (pair (JBool false)) (expect [97; 108; 115; 101]%N r)
      else if N.eqb c 110 then                                (* null *)
        option_map (pair JNull) (expect [117; 108; 108]%N r)
      else parse_number (c :: r)
  end.

(** One element, then [,] and more elements, or the closing bracket. *)
Definition elements_with (value : parser) (elements : list jsval -> parser)
    (acc : list jsval) : parser := fun l =>
  match value l with
  | None => None
  | Some (v, rest) =>
      match skip_ws rest with
      | c :: r =>
          if N.eqb c 44 then elements (v :: acc) r
          else if N.eqb c 93 then Some (JArr (rev (v :: acc)), r)
          else None
      | [] => None
      end
  end.

(** One member [string : value], then [,] and more members, or the closing
    brace. *)
Definition members_with (value : parser)
    (members : list (list N * jsval) -> parser)
    (acc : list (list N * jsval)) : parser := fun l =>
  match skip_ws l with
  | q :: l1 =>
      if N.eqb q 34 then
        match parse_string_body [] l1 with
        | None => None
        | Some (k, l2) =>
            match skip_ws l2 with
            | colon :: l3 =>
                if N.eqb colon 58 then
                  match value l3 with
                  | None => None
                  | Some (v, rest) =>
                      match skip_ws rest with
                      | c :: r =>
                          if N.eqb c 44 then members ((k, v) :: acc) r
                          else if N.eqb c 125 then
                            Some (JObj (rev ((k, v) :: acc)), r)
                          else None
                      | [] => None
                      end
                  end
                else None
            | [] => None
            end
        end
      else None
  | [] => None
  end.

Fixpoint parse_value (fuel : nat) : parser :=
  match fuel with
  | O => fun _ => None
  | S fuel' => value_with (parse_elements fuel') (parse_members fuel')
  end
with parse_elements (fuel : nat) (acc : list jsval) : parser :=
  match fuel with
  | O => fun _ => None
  | S fuel' => elements_with (parse_value fuel') (parse_elements fuel') acc
  end
with parse_members (fuel : nat) (acc : list (list N * jsval)) : parser :=
  match fuel with
  | O => fun _ => None
  | S fuel' => members_with (parse_value fuel') (parse_members fuel') acc
  end.

Definition JSON_parse (s : string) : option jsval :=
  let l := units s in
  match parse_value (2 * length l + 2) l with
  | Some (v, rest) =>
      match skip_ws rest with
      | [] => Some v
      | _ :: _ => None
      end
  | None => None
  end.

(** ** Property access [v.exp]

    [None] stands for the [TypeError] of reading a property of [null] or
    [undefined].  No prototype defines [exp], so on anything but an object
    with its own [exp] member the result is [undefined].  With a member
    name repeated, [JSON.parse] keeps the last value. *)

Fixpoint lookup_member (k : list N) (ms : list (list N * jsval)) : option jsval :=
  match ms with
  | [] => None
  | (k', v) :: r =>
      match lookup_member k r with
      | Some v' => Some v'
      | None => if bool_decide (k = k') then Some v else None
      end
  end.

Definition exp_name : list N := [101; 120; 112]%N.
Definition toString_name : list N := [116; 111; 83; 116; 114; 105; 110; 103]%N.

Definition prop_exp (v : jsval) : option jsval :=
  match v with
  | JUndefined | JNull => None
  | JObj ms => Some (default JUndefined (lookup_member exp_name ms))
  | _ => Some JUndefined
  end.

(** ** The conversion [ToNumber] *)

(** WhiteSpace and LineTerminator code units, which [ToNumber] trims from
    a string. *)
Definition is_str_whitespace (c : N) : bool :=
  ((N.leb 9 c && N.leb c 13) || N.eqb c 32 || N.eqb c 160 || N.eqb c 5760
   || (N.leb 8192 c && N.leb c 8202) || N.eqb c 8232 || N.eqb c 8233
   || N.eqb c 8239 || N.eqb c 8287 || N.eqb c 12288 || N.eqb c 65279)%bool.

Fixpoint drop_whitespace (l : list N) : list N :=
  match l with
  | c :: r => if is_str_whitespace c then drop_whitespace r else l
  | [] => []
  end.

Definition trim (l : list N) : list N :=
  rev (drop_whitespace (rev (drop_whitespace l))).

(** All of [ds] are digits of the base, and there is at least one; their
    value. *)
Definition radix_value (base : Z) (ds : list N) : option Z :=
  match ds with
  | [] => None
  | _ =>
      fold_left
        (fun acc c =>
           match acc, hex_value c with
           | Some a, Some d =>
               if Z.ltb (Z.of_N d) base then Some (a * base + Z.of_N d) else None
           | _, _ => None
           end) ds (Some 0)
  end.

(** [0x..], [0o..], [0b..] (either case); no sign. *)
Definition non_decimal_literal (l : list N) : option Z :=
  match l with
  | z :: x :: ds =>
      if N.eqb z 48 then
        if (N.eqb x 120 || N.eqb x 88)%bool then radix_value 16 ds
        else if (N.eqb x 111 || N.eqb x 79)%bool then radix_value 8 ds
        else if (N.eqb x 98 || N.eqb x 66)%bool then radix_value 2 ds
        else None
      else None
  | _ => None
  end.

Definition Infinity_name : list N := [73; 110; 102; 105; 110; 105; 116; 121]%N.

(** StrDecimalLiteral: sign?, then [Infinity], or digits with an optional
    fraction and exponent ([5.], [.5] and [5] are numbers, [.] is not). *)
Definition str_decimal_literal (l : list N) : option number :=
  let '(neg, l1) :=
    match l with
    | c :: r =>
        if N.eqb c 45 then (true, r)
        else if N.eqb c 43 then (false, r)
        else (false, l)
    | [] => (false, l)
    end in
  if bool_decide (l1 = Infinity_name) then Some (Inf neg)
  else
    let '(ip, l2) := take_digits l1 in
    let '(fp, l3) :=
      match l2 with
      | c :: r => if N.eqb c 46 then take_digits r else ([], l2)
      | [] => ([], l2)
      end in
    match ip, fp with
    | [], [] => None
    | _, _ =>
        match exponent_part l3 with
        | Some (ex, []) =>
            let m := digits_value (ip ++ fp) in
            Some (decimal (if neg then - m else m) (ex - Z.of_nat (length fp)))
        | _ => None
        end
    end.

(** StringToNumber *)
Definition string_to_number (s : list N) : number :=
  match trim s with
  | [] => Finite 0 0
  | t =>
      match non_decimal_literal t with
      | Some n => round_double n 1
      | None => default NaN (str_decimal_literal t)
      end
  end.

(** Values parsed from JSON are never callable.  [ToPrimitive] of an
    object therefore throws a [TypeError] exactly when the object has its
    own [toString] member (the inherited [valueOf] returns the object
    itself), and of an array when [join] meets such an object. *)
Fixpoint to_primitive_throws (v : jsval) : bool :=
  match v with
  | JObj ms => bool_decide (is_Some (lookup_member toString_name ms))
  | JArr items => existsb to_primitive_throws items
  | _ => false
  end.

(** [ToNumber (ToString v)] for an element [v] of an array: [join] prints
    [null] as the empty string, a plain object as [[object Object]], and
    two or more elements with a comma between them, which no number
    has. *)
Fixpoint element_number (v : jsval) : number :=
  match v with
  | JUndefined | JNull => Finite 0 0
  | JBool _ => NaN
  | JNum x => x
  | JStr s => string_to_number s
  | JArr items =>
      match items with
      | [] => Finite 0 0
      | [x] => element_number x
      | _ => NaN
      end
  | JObj _ => NaN
  end.

(** [ToNumber (ToPrimitive v)]; [None] stands for the [TypeError]. *)
Definition to_number (v : jsval) : option number :=
  if to_primitive_throws v then None
  else Some
    match v with
    | JUndefined => NaN
    | JNull => Finite 0 0
    | JBool b => Finite (if b then 1 else 0) 0
    | _ => element_number v
    end.

(** [x < n] for a number [x] and an integer [n]; false on [NaN].  The
    integer is a time in seconds, far below 2^53, so it is a double
    itself and the two doubles are compared by their values. *)
Definition number_lt (x : number) (n : Z) : bool :=
  match x with
  | NaN => false
  | Inf negative => negative
  | Finite m p =>
      if Z.leb 0 p then Z.ltb m (n * 2 ^ p)
      else Z.ltb (m * 2 ^ (- p)) n
  end.

(** The relational comparison [v < n] with an integer on the right. *)
Definition js_lt (v : jsval) (n : Z) : option bool :=
  option_map (fun x => number_lt x n) (to_number v).

(** ** [JSON.stringify] of a string (QuoteJSONString) *)

Definition hex_digit (d : N) : N := if N.ltb d 10 then (48 + d)%N else (87 + d)%N.

Definition quote_unit (c : N) : list N :=
  if N.eqb c 8 then [92; 98]%N
  else if N.eqb c 9 then [92; 116]%N
  else if N.eqb c 10 then [92; 110]%N
  else if N.eqb c 12 then [92; 102]%N
  else if N.eqb c 13 then [92; 114]%N
  else if N.eqb c 34 then [92; 34]%N
  else if N.eqb c 92 then [92; 92]%N
  else if N.ltb c 32 then [92; 117; 48; 48; hex_digit (c / 16); hex_digit (c mod 16)]%N
  else [c].

Definition quote_JSON_string (s : string) : list N :=
  [34%N] ++ concat (map quote_unit (units s)) ++ [34%N].

(** [ToString] of an optional string, as [localStorage.setItem] applies it
    to its value argument. *)
Definition ToString (o : option string) : string :=
  default "undefined"%string o.

End Platform.

(* ===================================================================== *)
(** * The world the code runs in                                          *)
(* ===================================================================== *)

Module Browser.
Import Platform.

(** What is handed to [fetch]. *)
Record request : Type := {
  url : string;
  method : option string;
  headers : gmap string string;
  body : option string;
  credentials : option string;
}.

(** The body of a response to the refresh request, as [response.json()]
    delivers it; the fields are typed as the endpoint's contract types
    them, [{ token: string, refreshToken?: string }], and either may be
    missing (a body that is a JSON number, string, boolean or array has
    neither). *)
Record refresh_data : Type := {
  data_token : option string;
  data_refreshToken : option string;
}.

(** A response; [json] is [None] when [response.json()] rejects, and for
    the body [null], reading whose [token] throws as well. *)
Record response : Type := {
  status : Z;
  json : option refresh_data;
}.

(** [response.ok] *)
Definition ok (r : response) : bool :=
  (Z.leb 200 (status r) && Z.leb (status r) 299)%bool.

(** [fetch] resolves with a response, whatever its status, or rejects when
    no response was obtained. *)
Inductive fetch_result : Type :=
  | Rejected (reason : string)
  | Resolved (r : response).

(** What one call sees of its surroundings: the deployment's
    [infra_config.api_url], whether [window] is defined (it is not while
    rendering on the server), [Date.now()] in milliseconds and the
    network. *)
Record env : Type := {
  api_url : string;
  window_defined : bool;
  Date_now : Z;
  fetch : request -> fetch_result;
}.

Inductive navigation : Type :=
  | RouterPush (path : string)          (* router.push(path) *)
  | LocationAssign (href : string).     (* window.location.href = href *)

(** The mutable state: [localStorage], the three React state cells of the
    provider ([user] is the id that the user object in the cell carries:
    none when the cell is [null], and none when the object has no id),
    the current [pathname], and two logs (newest first) of the
    navigations asked for and of the requests handed to [fetch].  Console
    output is left out, and [localStorage] is taken to work (no quota, no
    denied access). *)
Record world : Type := {
  localStorage : gmap string string;
  isAuthenticated : bool;
  isLoading : bool;
  user : option string;
  pathname : string;
  navigations : list navigation;
  fetched : list request;
}.

Definition with_localStorage (f : gmap string string -> gmap string string)
    (w : world) : world :=
  {| localStorage := f (localStorage w);
     isAuthenticated := isAuthenticated w; isLoading := isLoading w;
     user := user w; pathname := pathname w;
     navigations := navigations w; fetched := fetched w |}.

Definition getItem (k : string) (w : world) : option string :=
  localStorage w !! k.

Definition setItem (k v : string) : world -> world :=
  with_localStorage (insert k v).

Definition removeItem (k : string) : world -> world :=
  with_localStorage (delete k).

Definition setIsAuthenticated (b : bool) (w : world) : world :=
  {| localStorage := localStorage w;
     isAuthenticated := b; isLoading := isLoading w;
     user := user w; pathname := pathname w;
     navigations := navigations w; fetched := fetched w |}.

Definition setIsLoading (b : bool) (w : world) : world :=
  {| localStorage := localStorage w;
     isAuthenticated := isAuthenticated w; isLoading := b;
     user := user w; pathname := pathname w;
     navigations := navigations w; fetched := fetched w |}.

Definition setUser (u : option string) (w : world) : world :=
  {| localStorage := localStorage w;
     isAuthenticated := isAuthenticated w; isLoading := isLoading w;
     user := u; pathname := pathname w;
     navigations := navigations w; fetched := fetched w |}.

Definition navigate (n : navigation) (w : world) : world :=
  {| localStorage := localStorage w;
     isAuthenticated := isAuthenticated w; isLoading := isLoading w;
     user := user w; pathname := pathname w;
     navigations := n :: navigations w; fetched := fetched w |}.

(** Handing [req] to [fetch]: the request is logged, the outcome is the
    environment's. *)
Definition sent (req : request) (w : world) : world :=
  {| localStorage := localStorage w;
     isAuthenticated := isAuthenticated w; isLoading := isLoading w;
     user := user w; pathname := pathname w;
     navigations := navigations w; fetched := req :: fetched w |}.

(** A fresh browser profile showing [path]: nothing stored, the provider's
    initial state ([useState(false)], [useState(true)], [useState(null)]). *)
Definition fresh (path : string) : world :=
  {| localStorage := ∅;
     isAuthenticated := false; isLoading := true; user := None;
     pathname := path; navigations := []; fetched := [] |}.

(** How an [async] function that may throw completes. *)
Inductive completion (A : Type) : Type :=
  | Returns (a : A)
  | Throws (message : string).
Arguments Returns {A} a.
Arguments Throws {A} message.

End Browser.

(* ===================================================================== *)
(** * [app/utils/auth.ts]                                                 *)
(* ===================================================================== *)

Module AuthUtils.
Import Platform Browser.

Definition getToken (e : env) (w : world) : option string :=
  if window_defined e then getItem "token" w else None.

Definition getUserId (e : env) (w : world) : option string :=
  if window_defined e then getItem "user_id" w else None.

(** [getToken() !== null] *)
Definition isAuthenticated (e : env) (w : world) : bool :=
  bool_decide (getToken e w ≠ None).

Definition setAuthData (e : env) (token userId : string) (w : world) : world :=
  if window_defined e then setItem "user_id" userId (setItem "token" token w)
  else w.

Definition clearAuthData (e : env) (w : world) : world :=
  if window_defined e then removeItem "user_id" (removeItem "token" w)
  else w.

Definition redirectToLoginIfNotAuthenticated (e : env) (w : world) : bool * world :=
  if window_defined e then
    if isAuthenticated e w then (false, w)
    else (true, navigate (LocationAssign "/login") w)
  else (false, w).

(** The [RequestInit] a caller passes. *)
Record RequestInit : Type := {
  init_method : option string;
  init_headers : gmap string string;
  init_body : option string;
  init_credentials : option string;
}.

(** [{ 'Content-Type': .., 'Authorization': .., ...options.headers }]: the
    caller's headers win. *)
Definition auth_headers (token : string) (options : RequestInit)
  : gmap string string :=
  init_headers options
  ∪ {[ "Content-Type" := "application/json";
       "Authorization" := "Bearer " +:+ token ]}.

(** What happens once [fetch] has settled. *)
Definition authenticatedFetch_settled (e : env) (outcome : fetch_result)
    (w : world) : completion response * world :=
  match outcome with
  | Rejected reason => (Throws reason, w)
  | Resolved r =>
      if Z.eqb (status r) 401 then
        (Throws "Authentication expired",
         navigate (LocationAssign "/login") (clearAuthData e w))
      else (Returns r, w)
  end.

Definition authenticatedFetch (e : env) (url : string) (options : RequestInit)
    (w : world) : completion response * world :=
  let token := getToken e w in
  match token with
  | Some t =>
      if truthy token then
        let req := {| Browser.url := url;
                      method := init_method options;
                      headers := auth_headers t options;
                      body := init_body options;
                      credentials := Some "include" |} in
        authenticatedFetch_settled e (fetch e req) (sent req w)
      else (Throws "No authentication token found", w)
  | None => (Throws "No authentication token found", w)
  end.

End AuthUtils.

(* ===================================================================== *)
(** * [app/utils/AuthProvider.tsx]                                        *)
(* ===================================================================== *)

Module AuthProvider.
Import Platform Browser.

(** Public routes that don't require authentication *)
Definition PUBLIC_ROUTES : list string := ["/login"; "/register"; "/verify"].

(** [JSON.parse(atob(token.split('.')[1])).exp]; a missing second segment
    reaches [atob] as [undefined], which it reads as the nine characters
    of that word.  [None] when any step throws. *)
Definition payload_exp (token : string) : option jsval :=
  (atob (ToString (split "."%char token !! 1%nat)) ≫= JSON_parse) ≫= prop_exp.

(** [Math.floor(Date.now() / 1000)] *)
Definition currentTime (e : env) : Z := Date_now e / 1000.

Definition isTokenExpired (e : env) (token : option string) (w : world) : bool :=
  let tokenToCheck := js_or token (getItem "token" w) in
  match tokenToCheck with
  | Some t =>
      if truthy tokenToCheck then
        match payload_exp t ≫= (fun x => js_lt x (currentTime e + 300)) with
        | Some expired => expired
        | None => true                       (* catch *)
        end
      else true
  | None => true
  end.

Definition logout (w : world) : world :=
  navigate (RouterPush "/login")
    (setUser None
       (setIsAuthenticated false
          (removeItem "user_id"
             (removeItem "refreshToken"
                (removeItem "token" w))))).

(** [JSON.stringify({ refreshToken: storedRefreshToken })] *)
Definition refresh_body (storedRefreshToken : string) : string :=
  of_units ([123%N] ++ quote_JSON_string "refreshToken" ++ [58%N]
            ++ quote_JSON_string storedRefreshToken ++ [125%N]).

Definition refresh_request (e : env) (storedRefreshToken : string) : request :=
  {| url := api_url e +:+ "/api/auth/refresh";
     method := Some "POST"%string;
     headers := {[ "Content-Type" := "application/json" ]};
     body := Some (refresh_body storedRefreshToken);
     credentials := None |}.

(** [refreshToken] from the point where [fetch] has settled. *)
Definition refreshToken_settled (outcome : fetch_result) (w : world)
  : option string * world :=
  match outcome with
  | Resolved r =>
      if ok r then
        match json r with
        | Some data =>
            let w1 := setItem "token" (ToString (data_token data)) w in
            let w2 :=
              match data_refreshToken data with
              | Some r' =>
                  if truthy (data_refreshToken data)
                  then setItem "refreshToken" r' w1 else w1
              | None => w1
              end in
            (data_token data, w2)
        | None => (None, w)                  (* catch *)
        end
      else (None, logout w)
  | Rejected _ => (None, w)                  (* catch *)
  end.

Definition refreshToken (e : env) (w : world) : option string * world :=
  let storedRefreshToken := getItem "refreshToken" w in
  match storedRefreshToken with
  | Some rt =>
      if truthy storedRefreshToken then
        let req := refresh_request e rt in
        refreshToken_settled (fetch e req) (sent req w)
      else (None, w)
  | None => (None, w)
  end.

Definition getValidToken (e : env) (w : world) : option string * world :=
  let token := getItem "token" w in
  if negb (truthy token) then (None, w)
  else if isTokenExpired e token w then
    let '(newToken, w') := refreshToken e w in
    if truthy newToken then (newToken, w') else (None, w')
  else (token, w).

(** The route-protection effect. *)
Definition routeGuard (w : world) : world :=
  if negb (isLoading w) then
    let isPublicRoute := bool_decide (pathname w ∈ PUBLIC_ROUTES) in
    if (negb (isAuthenticated w) && negb isPublicRoute)%bool then
      navigate (RouterPush "/login") w
    else if (isAuthenticated w && isPublicRoute)%bool then
      navigate (RouterPush "/") w
    else w
  else w.

(** The effect's dependency list, [router] apart (the hook hands out the
    same router at every render). *)
Definition guard_deps (w : world) : bool * bool * string :=
  (isAuthenticated w, isLoading w, pathname w).

(** [useEffect(routeGuard, deps)] at the end of a render: the effect runs
    after the first render ([last = None]) and after every render whose
    dependencies differ from those of the render before. *)
Definition useEffect_routeGuard (last : option (bool * bool * string))
    (w : world) : world :=
  if bool_decide (last = Some (guard_deps w)) then w else routeGuard w.

(** [checkAuthStatus], the branch taken when the refresh gave no token. *)
Definition clear_auth_state (w : world) : world :=
  removeItem "user_id"
    (removeItem "refreshToken"
       (removeItem "token"
          (setUser None (setIsAuthenticated false w)))).

(** [checkAuthStatus] from the point where [refreshToken()] has settled
    with [newToken], up to and including the [finally] block. *)
Definition checkAuthStatus_settled (userId newToken : option string)
    (w : world) : world :=
  setIsLoading false
    (if truthy newToken then setUser userId (setIsAuthenticated true w)
     else clear_auth_state w).

Definition checkAuthStatus (e : env) (w : world) : world :=
  let token := getItem "token" w in
  let userId := getItem "user_id" w in
  if (truthy token && truthy userId)%bool then
    if isTokenExpired e token w then
      let '(newToken, w1) := refreshToken e w in
      checkAuthStatus_settled userId newToken w1
    else setIsLoading false (setUser userId (setIsAuthenticated true w))
  else setIsLoading false (setUser None (setIsAuthenticated false w)).

Definition login (token userId : string) (refreshTokenValue : option string)
    (w : world) : world :=
  let w1 := setItem "user_id" userId (setItem "token" token w) in
  let w2 :=
    match refreshTokenValue with
    | Some r =>
        if truthy refreshTokenValue then setItem "refreshToken" r w1 else w1
    | None => w1
    end in
  setUser (Some userId) (setIsAuthenticated true w2).

End AuthProvider.

(* ===================================================================== *)
(** * The session as a transition system                                 *)
(* ===================================================================== *)

Module Session.
Import Platform Browser.

(** What can happen to the world.  An [async] function runs to its first
    [await] in one piece, and other handlers may run before it resumes:
    next to each whole operation stand the pieces that run once its
    [fetch] (or its [refreshToken()]) has settled. *)
Inductive action : Type :=
  | Login (token userId : string) (refreshTokenValue : option string)
  | Logout
  | RefreshToken (e : env)
  | RefreshTokenSettled (outcome : fetch_result)
  | GetValidToken (e : env)
  | CheckAuthStatus (e : env)
  | CheckAuthStatusSettled (userId newToken : option string)
  | RouteGuard (last : option (bool * bool * string))
  | Navigated (path : string)
  | SetAuthData (e : env) (token userId : string)
  | ClearAuthData (e : env)
  | RedirectToLoginIfNotAuthenticated (e : env)
  | AuthenticatedFetch (e : env) (url : string) (options : AuthUtils.RequestInit)
  | AuthenticatedFetchSettled (e : env) (outcome : fetch_result).

Definition run (a : action) (w : world) : world :=
  match a with
  | Login token userId refreshTokenValue =>
      AuthProvider.login token userId refreshTokenValue w
  | Logout => AuthProvider.logout w
  | RefreshToken e => (AuthProvider.refreshToken e w).2
  | RefreshTokenSettled outcome =>
      (AuthProvider.refreshToken_settled outcome w).2
  | GetValidToken e => (AuthProvider.getValidToken e w).2
  | CheckAuthStatus e => AuthProvider.checkAuthStatus e w
  | CheckAuthStatusSettled userId newToken =>
      AuthProvider.checkAuthStatus_settled userId newToken w
  | RouteGuard last => AuthProvider.useEffect_routeGuard last w
  | Navigated path =>
      {| localStorage := localStorage w;
         isAuthenticated := isAuthenticated w; isLoading := isLoading w;
         user := user w; pathname := path;
         navigations := navigations w; fetched := fetched w |}
  | SetAuthData e token userId => AuthUtils.setAuthData e token userId w
  | ClearAuthData e => AuthUtils.clearAuthData e w
  | RedirectToLoginIfNotAuthenticated e =>
      (AuthUtils.redirectToLoginIfNotAuthenticated e w).2
  | AuthenticatedFetch e url options =>
      (AuthUtils.authenticatedFetch e url options w).2
  | AuthenticatedFetchSettled e outcome =>
      (AuthUtils.authenticatedFetch_settled e outcome w).2
  end.

(** The worlds a browser profile goes through, newest first, from an empty
    [localStorage]. *)
Inductive history : list world -> Prop :=
  | history_fresh (path : string) : history [fresh path]
  | history_step (a : action) (w : world) (h : list world) :
      history (w :: h) -> history (run a w :: w :: h).

(** The user id is stored only where a token is. *)
Definition user_id_implies_token (w : world) : Prop :=
  is_Some (getItem "user_id" w) -> is_Some (getItem "token" w).

(** Nothing of a session is left. *)
Definition logged_out (w : world) : Prop :=
  getItem "token" w = None /\ getItem "refreshToken" w = None
  /\ getItem "user_id" w = None
  /\ isAuthenticated w = false /\ user w = None.

End Session.

(* ===================================================================== *)
(** * The provider's renders                                              *)
(* ===================================================================== *)

Module Render.
Import Platform Browser.

(** The states of the session's state machine, read off the two flags. *)
Inductive phase : Type := Initializing | Authenticated | Unauthenticated.

Definition session (w : world) : phase :=
  if isLoading w then Initializing
  else if isAuthenticated w then Authenticated else Unauthenticated.

(** The end of a render: [w] is the world the render shows, [prev] the
    world the render before it showed (none at the first render).  React
    compares the guard's dependencies with those of the render before. *)
Definition effects (prev : option world) (w : world) : world :=
  AuthProvider.useEffect_routeGuard (AuthProvider.guard_deps <$> prev) w.

(** The renders of the provider, newest first, each world shown paired
    with the world its effects leave.  Between two renders anything may
    happen to the world: a session operation, a navigation, a change of
    the user alone. *)
Inductive renders : list (world * world) -> Prop :=
  | renders_first (w : world) : renders [(w, effects None w)]
  | renders_next (w p p' : world) (h : list (world * world)) :
      renders ((p, p') :: h) ->
      renders ((w, effects (Some p) w) :: (p, p') :: h).

(** The guard asked for [path] at the render [v] of the renders [h], and
    every render since shows the session state and the location of [w]. *)
Definition requested (path : string) (w : world) (h : list (world * world)) : Prop :=
  exists (since : list (world * world)) (v : world) (before : list (world * world)),
    h = since ++ (v, navigate (RouterPush path) v) :: before
    /\ session v = session w /\ pathname v = pathname w
    /\ Forall (fun r => session r.1 = session w /\ pathname r.1 = pathname w) since.

End Render.

(* ===================================================================== *)
(** * Scenarios                                                           *)
(* ===================================================================== *)

Module Scenario.
Import Platform Browser.

(** A browser whose clock shows [now] milliseconds after the epoch and
    whose every request gets the [outcome]. *)
Definition browser (now : Z) (outcome : fetch_result) : env :=
  {| api_url := "https://api.unicom.example";
     window_defined := true;
     Date_now := now;
     fetch := fun _ => outcome |}.

(** Three tokens (header, payload, signature) whose payloads are objects
    with the single member [exp], of value 990, 1300 and 2000. *)
Definition token_exp_990 : string := "eyJhbGciOiJIUzI1NiJ9.eyJleHAiOjk5MH0.c2ln".
Definition token_exp_1300 : string := "eyJhbGciOiJIUzI1NiJ9.eyJleHAiOjEzMDB9.c2ln".
Definition token_exp_2000 : string := "eyJhbGciOiJIUzI1NiJ9.eyJleHAiOjIwMDB9.c2ln".

Definition responds (code : Z) (token refreshToken : option string) : fetch_result :=
  Resolved {| status := code;
              json := Some {| data_token := token;
                              data_refreshToken := refreshToken |} |}.

(** Logged in as [u1] with [token] and the refresh token [R1], on the
    landing page. *)
Definition logged_in (token : string) : world :=
  AuthProvider.login token "u1" (Some "R1"%string)
    (setIsLoading false (fresh "/")).

End Scenario.

(* ===================================================================== *)
(** * The provider mounting                                               *)
(* ===================================================================== *)

Module Provider.
Import Platform Browser.

(** The first render of [AuthProvider] on [path]: the three state cells
    take their initial values, [localStorage] is what the profile holds. *)
Definition first_render (path : string) (w : world) : world :=
  {| localStorage := localStorage w;
     isAuthenticated := false; isLoading := true; user := None;
     pathname := path;
     navigations := navigations w; fetched := fetched w |}.

(** [useEffect(() => { checkAuthStatus(); }, [])] after the first
    render. *)
Definition mount (e : env) (path : string) (w : world) : world :=
  AuthProvider.checkAuthStatus e (first_render path w).

End Provider.

(* ===================================================================== *)
(** * [app/utils/auth.ts], the three requests                             *)
(* ===================================================================== *)

Module AuthRequests.
Import Platform Browser.

(** The JSON objects these endpoints answer with and these functions
    return, with the members the code reads, typed as strings; any of
    them may be missing. *)
Record auth_object : Type := {
  error : option string;
  token : option string;
  user_id : option string;
  message : option string;
}.

Definition error_object (text : string) : auth_object :=
  {| error := Some text; token := None; user_id := None; message := None |}.

(** What [res.json()] gives: a rejection, the value [null], or an object
    (a number, string, boolean or array has none of the members, like the
    empty object). *)
Inductive json_body : Type :=
  | Unreadable
  | JsonNull
  | JsonObject (data : auth_object).

Record auth_response : Type := {
  res_status : Z;
  res_body : json_body;
}.

(** [res.ok] *)
Definition res_ok (res : auth_response) : bool :=
  (Z.leb 200 (res_status res) && Z.leb (res_status res) 299)%bool.

Inductive auth_fetch_result : Type :=
  | FetchRejected (reason : string)
  | FetchResolved (res : auth_response).

(** The network as these endpoints show it. *)
Definition network : Type := request -> auth_fetch_result.

Fixpoint join_comma (parts : list (list N)) : list N :=
  match parts with
  | [] => []
  | [x] => x
  | x :: rest => x ++ [44%N] ++ join_comma rest
  end.

(** [JSON.stringify] of an object whose members are strings. *)
Definition JSON_stringify_object (members : list (string * string)) : string :=
  of_units
    ([123%N]
     ++ join_comma
          (map (fun kv => quote_JSON_string kv.1 ++ [58%N] ++ quote_JSON_string kv.2)
               members)
     ++ [125%N]).

(** [{ method: "POST", headers: { "Content-Type": "application/json" },
    body: JSON.stringify(..) }] *)
Definition post_json (url : string) (members : list (string * string)) : request :=
  {| Browser.url := url;
     method := Some "POST"%string;
     headers := {[ "Content-Type" := "application/json" ]};
     body := Some (JSON_stringify_object members);
     credentials := None |}.

(** The shared shape of [registerUser] and [verifyUser]: the body is read
    before [res.ok] is looked at; [None] is the value [null]. *)
Definition submit (net : network) (req : request)
    (failed network_error : string) (w : world) : option auth_object * world :=
  let w1 := sent req w in
  match net req with
  | FetchRejected _ => (Some (error_object network_error), w1)          (* catch *)
  | FetchResolved res =>
      match res_body res with
      | Unreadable => (Some (error_object network_error), w1)           (* catch *)
      | JsonNull =>
          if negb (res_ok res) then (Some (error_object network_error), w1)
          else (None, w1)
      | JsonObject data =>
          if negb (res_ok res) then
            (Some {| error := js_or (error data)
                                (Some (failed +:+ pretty (res_status res)));
                     token := None; user_id := None; message := None |}, w1)
          else (Some data, w1)
      end
  end.

Definition registerUser (e : env) (net : network) (email password : string)
    (w : world) : option auth_object * world :=
  submit net
    (post_json (api_url e +:+ "/register")
       [("email", email); ("password", password)]%string)
    "Registration failed: " "Network error during registration" w.

Definition verifyUser (e : env) (net : network) (email code : string)
    (w : world) : option auth_object * world :=
  submit net
    (post_json (api_url e +:+ "/verify")
       [("email", email); ("code", code)]%string)
    "Verification failed: " "Network error during verification" w.

Definition loginUser (e : env) (net : network) (email password : string)
    (w : world) : auth_object * world :=
  let req := post_json (api_url e +:+ "/login")
               [("email", email); ("password", password)]%string in
  let w1 := sent req w in
  match net req with
  | FetchRejected _ => (error_object "Network error during login", w1)   (* catch *)
  | FetchResolved res =>
      match res_body res with
      | Unreadable | JsonNull =>
          (error_object "Network error during login", w1)               (* catch *)
      | JsonObject data =>
          if negb (res_ok res) then
            ({| error := js_or (error data)
                           (Some ("Login failed: " +:+ pretty (res_status res)));
                token := None; user_id := None; message := None |}, w1)
          else if negb (truthy (token data)) then
            (error_object "Invalid response from server - no token received", w1)
          else
            ({| error := None; token := token data;
                user_id := user_id data; message := message data |}, w1)
      end
  end.

End AuthRequests.

(* ===================================================================== *)
(** * The login page                                                      *)
(* ===================================================================== *)

Module LoginPage.
Import Platform Browser.

(** The page's own state cells, and the timers it has set (delay in
    milliseconds, what the callback does). *)
Record state : Type := {
  email : string;
  password : string;
  message : string;
  isLoading : bool;
  timers : list (Z * navigation);
}.

(** [login(res.token, res.user_id, res.refreshToken)].  The object
    [loginUser] returns has no [refreshToken] member.  A missing member
    reaches [localStorage] as the word undefined.  From a missing id
    [login] makes a user object without an id: the cell holds an object,
    not [null], and [user], which shows the id, shows none. *)
Definition login_call (res : AuthRequests.auth_object) (w : world) : world :=
  let w1 := AuthProvider.login (ToString (AuthRequests.token res))
              (ToString (AuthRequests.user_id res)) None w in
  match AuthRequests.user_id res with
  | Some _ => w1
  | None => setUser None w1
  end.

Definition handleLogin (e : env) (net : AuthRequests.network) (st : state)
    (w : world) : state * world :=
  let '(res, w1) := AuthRequests.loginUser e net (email st) (password st) w in
  if truthy (AuthRequests.error res) then
    ({| email := email st; password := password st;
        message := ToString (AuthRequests.error res);
        isLoading := false;                                   (* finally *)
        timers := timers st |}, w1)
  else
    ({| email := email st; password := password st;
        message := "✅ Login successful!";
        isLoading := false;                                   (* finally *)
        timers := (1000, RouterPush "/") :: timers st |},
     login_call res w1).

End LoginPage.

(* ===================================================================== *)
(** * The registration page                                               *)
(* ===================================================================== *)

Module RegisterPage.
Import Platform Browser.

Inductive Step : Type := register | verify.

Record state : Type := {
  step : Step;
  email : string;
  password : string;
  code : string;
  loading : bool;
  error : string;
}.

Definition settled (st : state) (next : Step) (text : string) : state :=
  {| step := next; email := email st; password := password st;
     code := code st;
     loading := false;                                        (* finally *)
     error := text |}.

(** What both handlers make of the answer: [None] when the request went
    through, the text for [setError] otherwise.  The body is read before
    [res.ok] is looked at. *)
Definition failure (outcome : AuthRequests.auth_fetch_result) (failed : string)
  : option string :=
  match outcome with
  | AuthRequests.FetchRejected _ => Some "Server error"%string        (* catch *)
  | AuthRequests.FetchResolved res =>
      match AuthRequests.res_body res with
      | AuthRequests.Unreadable => Some "Server error"%string         (* catch *)
      | AuthRequests.JsonNull =>
          if AuthRequests.res_ok res then None
          else Some "Server error"%string                             (* catch *)
      | AuthRequests.JsonObject data =>
          if AuthRequests.res_ok res then None
          else js_or (AuthRequests.error data) (Some failed)
      end
  end.

Definition handleRegister (e : env) (net : AuthRequests.network) (st : state)
    (w : world) : state * world :=
  let req := AuthRequests.post_json (api_url e +:+ "/register")
               [("email", email st); ("password", password st)]%string in
  match failure (net req) "Registration failed" with
  | None => (settled st verify EmptyString, sent req w)
  | Some text => (settled st (step st) text, sent req w)
  end.

Definition handleVerify (e : env) (net : AuthRequests.network) (st : state)
    (w : world) : state * world :=
  let req := AuthRequests.post_json (api_url e +:+ "/verify")
               [("email", email st); ("code", code st)]%string in
  match failure (net req) "Verification failed" with
  | None => (settled st (step st) EmptyString,
             navigate (RouterPush "/login") (sent req w))
  | Some text => (settled st (step st) text, sent req w)
  end.

End RegisterPage.

(* ===================================================================== *)
(** * The page of the user's own posts                                    *)
(* ===================================================================== *)

Module MyPostsPage.
Import Platform Browser.

Record image_urls : Type := {
  thumbnail : option string;
  medium : option string;
  large : option string;
}.

Record image : Type := {
  image_id : string;
  filename : string;
  urls : option image_urls;
}.

Record Post : Type := {
  _id : string;
  title : string;
  price : option number;
  location : option string;
  images : option (list image);
  category : string;
  owner : string;
  description : option string;
  status : string;
  community : option string;
  rent : option number;
  start_date : option string;
  gender_preference : option string;
  preferences : option (list string);
  from_location : option string;
  to_location : option string;
  departure_time : option string;
  seats_available : option number;
  item : option string;
  sub_category : option string;
}.

(** [{ ...post, status: newStatus }] *)
Definition with_status (newStatus : string) (post : Post) : Post :=
  {| _id := _id post; title := title post; price := price post;
     location := location post; images := images post;
     category := category post; owner := owner post;
     description := description post; status := newStatus;
     community := community post; rent := rent post;
     start_date := start_date post;
     gender_preference := gender_preference post;
     preferences := preferences post;
     from_location := from_location post; to_location := to_location post;
     departure_time := departure_time post;
     seats_available := seats_available post;
     item := item post; sub_category := sub_category post |}.

(** Default images for categories *)
Definition DEFAULT_IMAGES : list (string * string) :=
  [("CARPOOL", "/carpool.png"); ("ROOMMATE", "/Roommate.png");
   ("SELL", "/sell.png")]%string.

(** [DEFAULT_IMAGES] is an object literal: a name it does not have itself
    is looked up on [Object.prototype], whose members are functions and
    one object, never strings. *)
Definition Object_prototype_members : list string :=
  ["constructor"; "__defineGetter__"; "__defineSetter__"; "hasOwnProperty";
   "__lookupGetter__"; "__lookupSetter__"; "isPrototypeOf";
   "propertyIsEnumerable"; "toString"; "valueOf"; "__proto__";
   "toLocaleString"]%string.

(** What ends up as the [src] of an image. *)
Inductive image_src : Type :=
  | Url (s : string)
  | PrototypeMember (name : string).

Fixpoint own_member (name : string) (object : list (string * string))
  : option string :=
  match object with
  | [] => None
  | (k, v) :: rest => if String.eqb k name then Some v else own_member name rest
  end.

(** [DEFAULT_IMAGES[category] || "/default.png"] *)
Definition fallback_image (category : string) : image_src :=
  match own_member category DEFAULT_IMAGES with
  | Some s => if truthy (Some s) then Url s else Url "/default.png"
  | None =>
      if bool_decide (category ∈ Object_prototype_members)
      then PrototypeMember category
      else Url "/default.png"
  end.

Definition getPostImage (e : env) (post : Post) : image_src :=
  let fallback := fallback_image (category post) in
  match images post with
  | Some (first :: _) =>
      let urls := default {| thumbnail := None; medium := None; large := None |}
                    (urls first) in
      (* Prefer medium > large > thumbnail *)
      let imageUrl :=
        if truthy (medium urls) then ToString (medium urls)
        else if truthy (large urls) then ToString (large urls)
        else if truthy (thumbnail urls) then ToString (thumbnail urls)
        else EmptyString in
      if truthy (Some imageUrl) then
        if String.prefix "http" imageUrl then Url imageUrl
        else Url (api_url e +:+ imageUrl)
      else fallback
  | Some [] | None => fallback
  end.

(** The state cells of the page; [categoryFilter] is the cell the source
    calls [category], the name [Post] has taken here. *)
Record state : Type := {
  posts : list Post;
  loading : bool;
  page : Z;
  total : Z;
  limit : Z;
  selectedPost : option Post;
  searchTerm : string;
  searchQuery : string;
  categoryFilter : string;
  sortOrder : string;
}.

Definition setPage (f : Z -> Z) (st : state) : state :=
  {| posts := posts st; loading := loading st; page := f (page st);
     total := total st; limit := limit st; selectedPost := selectedPost st;
     searchTerm := searchTerm st; searchQuery := searchQuery st;
     categoryFilter := categoryFilter st; sortOrder := sortOrder st |}.

Definition handleNext (st : state) : state :=
  if Z.ltb (page st * limit st) (total st) then setPage (fun prev => prev + 1) st
  else st.

Definition handlePrev (st : state) : state :=
  if Z.ltb 1 (page st) then setPage (fun prev => prev - 1) st
  else st.

(** The three cells a deletion or a status change writes. *)
Definition changed (newPosts : list Post) (newTotal : Z)
    (newSelected : option Post) (st : state) : state :=
  {| posts := newPosts; loading := loading st; page := page st;
     total := newTotal; limit := limit st; selectedPost := newSelected;
     searchTerm := searchTerm st; searchQuery := searchQuery st;
     categoryFilter := categoryFilter st; sortOrder := sortOrder st |}.

(** [selectedPost && selectedPost._id === postId] *)
Definition selected_is (postId : string) (st : state) : bool :=
  match selectedPost st with
  | Some post => String.eqb (_id post) postId
  | None => false
  end.

Definition delete_request (e : env) (token postId : string) : request :=
  {| url := api_url e +:+ "/api/posts/" +:+ postId;
     method := Some "DELETE"%string;
     headers := {[ "Authorization" := "Bearer " +:+ token ]};
     body := None;
     credentials := None |}.

Definition handleDeletePost (e : env) (postId : string) (st : state)
    (w : world) : state * world :=
  let '(token, w1) := AuthProvider.getValidToken e w in
  match token with
  | Some t =>
      if truthy token then
        let req := delete_request e t postId in
        match fetch e req with
        | Resolved response =>
            if ok response then
              (changed
                 (filter (fun post => negb (String.eqb (_id post) postId)) (posts st))
                 (total st - 1)
                 (if selected_is postId st then None else selectedPost st)
                 st,
               sent req w1)
            else (st, sent req w1)
        | Rejected _ => (st, sent req w1)                              (* catch *)
        end
      else (st, w1)
  | None => (st, w1)
  end.

Definition patch_request (e : env) (token postId newStatus : string) : request :=
  {| url := api_url e +:+ "/api/posts/" +:+ postId;
     method := Some "PATCH"%string;
     headers := {[ "Authorization" := "Bearer " +:+ token;
                   "Content-Type" := "application/json" ]};
     body := Some (AuthRequests.JSON_stringify_object [("status", newStatus)]%string);
     credentials := None |}.

Definition handleUpdatePostStatus (e : env) (postId newStatus : string)
    (st : state) (w : world) : state * world :=
  let '(token, w1) := AuthProvider.getValidToken e w in
  match token with
  | Some t =>
      if truthy token then
        let req := patch_request e t postId newStatus in
        match fetch e req with
        | Resolved response =>
            if ok response then
              (changed
                 (map (fun post =>
                         if String.eqb (_id post) postId
                         then with_status newStatus post else post)
                      (posts st))
                 (total st)
                 (match selectedPost st with
                  | Some selected =>
                      if String.eqb (_id selected) postId
                      then Some (with_status newStatus selected)
                      else selectedPost st
                  | None => None
                  end)
                 st,
               sent req w1)
            else (st, sent req w1)
        | Rejected _ => (st, sent req w1)                              (* catch *)
        end
      else (st, w1)
  | None => (st, w1)
  end.

End MyPostsPage.

(* ===================================================================== *)
(** * Notions the further properties are stated with                      *)
(* ===================================================================== *)

Module Notion.
Import Platform Browser.

(** No full stop among the characters of [s]. *)
Definition no_dot (s : string) : bool :=
  forallb (fun c => negb (N.eqb c 46)) (units s).

(** A character [atob] neither decodes nor skips: outside the base64
    alphabet, not white space, not the padding sign. *)
Definition outside_base64 (c : N) : bool :=
  (negb (bool_decide (is_Some (base64_index c)))
   && negb (is_ascii_whitespace c) && negb (N.eqb c 61))%bool.

(** [JSON.parse(atob(segment)).exp] *)
Definition decode_segment (segment : string) : option jsval :=
  (atob segment ≫= JSON_parse) ≫= prop_exp.

(** From [w] to [w'] nothing was sent, or the one refresh request for the
    stored refresh token. *)
Definition sent_at_most_refresh (e : env) (w w' : world) : Prop :=
  fetched w' = fetched w
  \/ exists rt, getItem "refreshToken" w = Some rt /\ rt ≠ EmptyString
       /\ fetched w' = AuthProvider.refresh_request e rt :: fetched w.

(** What [authenticatedFetch] hands to [fetch] for the stored token [t]. *)
Definition authenticated_request (url t : string)
    (options : AuthUtils.RequestInit) : request :=
  {| Browser.url := url;
     method := AuthUtils.init_method options;
     headers := AuthUtils.auth_headers t options;
     body := AuthUtils.init_body options;
     credentials := Some "include"%string |}.

Definition login_request (e : env) (email password : string) : request :=
  AuthRequests.post_json (api_url e +:+ "/login")
    [("email", email); ("password", password)]%string.

Definition register_request (e : env) (email password : string) : request :=
  AuthRequests.post_json (api_url e +:+ "/register")
    [("email", email); ("password", password)]%string.

Definition verify_request (e : env) (email code : string) : request :=
  AuthRequests.post_json (api_url e +:+ "/verify")
    [("email", email); ("code", code)]%string.

(** The request was answered 2xx with the object [data]. *)
Definition accepted (outcome : AuthRequests.auth_fetch_result)
    (data : AuthRequests.auth_object) : Prop :=
  exists res, outcome = AuthRequests.FetchResolved res
    /\ AuthRequests.res_ok res = true
    /\ AuthRequests.res_body res = AuthRequests.JsonObject data.

(** The request was answered 2xx with a body that reads as JSON. *)
Definition went_through (outcome : AuthRequests.auth_fetch_result) : Prop :=
  exists res, outcome = AuthRequests.FetchResolved res
    /\ AuthRequests.res_ok res = true
    /\ AuthRequests.res_body res ≠ AuthRequests.Unreadable.

(** No answer, an answer that is not 2xx, or one that does not read as
    JSON. *)
Definition turned_down (outcome : AuthRequests.auth_fetch_result) : Prop :=
  forall res, outcome = AuthRequests.FetchResolved res ->
    AuthRequests.res_ok res = false
    \/ AuthRequests.res_body res = AuthRequests.Unreadable.

(** [fetch] answers [req] with a 2xx response. *)
Definition answered_ok (e : env) (req : request) : Prop :=
  exists r, fetch e req = Resolved r /\ ok r = true.

(** The page shown exists: it is the first, or posts are left for it. *)
Definition on_a_page (st : MyPostsPage.state) : Prop :=
  1 <= MyPostsPage.page st
  /\ (MyPostsPage.page st = 1
      \/ (MyPostsPage.page st - 1) * MyPostsPage.limit st < MyPostsPage.total st).

(** The address [getPostImage] takes from an image: [medium], else
    [large], else [thumbnail], the first that is not empty. *)
Definition preferred (i : MyPostsPage.image) : option string :=
  match MyPostsPage.urls i with
  | Some u =>
      js_or (MyPostsPage.medium u)
        (js_or (MyPostsPage.large u) (MyPostsPage.thumbnail u))
  | None => None
  end.

End Notion.

(* ===================================================================== *)
(** * More scenarios                                                      *)
(* ===================================================================== *)

Module Case.
Import Platform Browser.

(** A network that answers every request with [code] and [body]. *)
Definition answers (code : Z) (body : AuthRequests.json_body)
  : AuthRequests.network :=
  fun _ => AuthRequests.FetchResolved
             {| AuthRequests.res_status := code; AuthRequests.res_body := body |}.

(** The object a successful login is answered with. *)
Definition welcome : AuthRequests.auth_object :=
  {| AuthRequests.error := None;
     AuthRequests.token := Some Scenario.token_exp_2000;
     AuthRequests.user_id := Some "u1"%string;
     AuthRequests.message := Some "Login successful"%string |}.

Definition complaint (text : string) : AuthRequests.auth_object :=
  {| AuthRequests.error := Some text; AuthRequests.token := None;
     AuthRequests.user_id := None; AuthRequests.message := None |}.

Definition login_form : LoginPage.state :=
  {| LoginPage.email := "ab1234@rit.edu"; LoginPage.password := "secret";
     LoginPage.message := EmptyString; LoginPage.isLoading := false;
     LoginPage.timers := [] |}.

Definition register_form : RegisterPage.state :=
  {| RegisterPage.step := RegisterPage.register;
     RegisterPage.email := "ab1234@rit.edu"; RegisterPage.password := "secret";
     RegisterPage.code := "123456"; RegisterPage.loading := false;
     RegisterPage.error := EmptyString |}.

Definition picture (m l t : option string) : MyPostsPage.image :=
  {| MyPostsPage.image_id := "i1"; MyPostsPage.filename := "bike.jpg";
     MyPostsPage.urls :=
       Some {| MyPostsPage.thumbnail := t; MyPostsPage.medium := m;
               MyPostsPage.large := l |} |}.

(** A post for sale with the given id, status and images. *)
Definition post (id status : string) (pictures : option (list MyPostsPage.image))
  : MyPostsPage.Post :=
  {| MyPostsPage._id := id; MyPostsPage.title := "Bike";
     MyPostsPage.price := Some (Finite 120 0); MyPostsPage.location := None;
     MyPostsPage.images := pictures; MyPostsPage.category := "SELL";
     MyPostsPage.owner := "u1"; MyPostsPage.description := None;
     MyPostsPage.status := status; MyPostsPage.community := None;
     MyPostsPage.rent := None; MyPostsPage.start_date := None;
     MyPostsPage.gender_preference := None; MyPostsPage.preferences := None;
     MyPostsPage.from_location := None; MyPostsPage.to_location := None;
     MyPostsPage.departure_time := None; MyPostsPage.seats_available := None;
     MyPostsPage.item := Some "bike"%string; MyPostsPage.sub_category := None |}.

(** The page showing [shown] of [count] posts, on page [number]. *)
Definition listing (shown : list MyPostsPage.Post) (number count : Z)
    (selected : option MyPostsPage.Post) : MyPostsPage.state :=
  {| MyPostsPage.posts := shown; MyPostsPage.loading := false;
     MyPostsPage.page := number; MyPostsPage.total := count;
     MyPostsPage.limit := 9; MyPostsPage.selectedPost := selected;
     MyPostsPage.searchTerm := EmptyString; MyPostsPage.searchQuery := EmptyString;
     MyPostsPage.categoryFilter := EmptyString; MyPostsPage.sortOrder := "desc" |}.

(** A browser whose requests are all answered with the status [code]. *)
Definition server (code : Z) : env :=
  Scenario.browser 1000000 (Scenario.responds code None None).

End Case.

(* ===================================================================== *)
(** * The embedding at work                                               *)
(* ===================================================================== *)

Section Checks.
Import Platform Browser.

Let offline (now : Z) : env := Scenario.browser now (Rejected "Failed to fetch").

(** The payload segment of [token_exp_1300] decodes to the twelve
    characters of an object with the single member [exp]. *)
Example atob_payload :
  option_map units (atob "eyJleHAiOjEzMDB9")
  = Some [123; 34; 101; 120; 112; 34; 58; 49; 51; 48; 48; 125]%N.
Proof. vm_compute. reflexivity. Qed.

(** Padding is optional, a length of 4k+1 and a character outside the
    alphabet are errors. *)
Example atob_forgiving :
  atob "e30=" = atob "e30" /\ atob "e30" = Some (of_units [123; 125]%N)
  /\ atob "undefined" = None /\ atob "e3_0" = None.
Proof. vm_compute. repeat split. Qed.

Example JSON_parse_nested :
  (atob "eyJhIjpbMSwyLHsiYiI6Ilx1MDA0MSJ9XSwiZXhwIjoxLjVlMywiYyI6bnVsbCwiZCI6dHJ1ZSwiZSI6ZmFsc2V9"
   ≫= JSON_parse)
  = Some (JObj [([97%N], JArr [JNum (Finite 1 0); JNum (Finite 2 0);
                                JObj [([98%N], JStr [65%N])]]);
                (exp_name, JNum (Finite 1500 0));
                ([99%N], JNull); ([100%N], JBool true); ([101%N], JBool false)]).
Proof. vm_compute. reflexivity. Qed.

Example payload_exp_of_tokens :
  AuthProvider.payload_exp Scenario.token_exp_990 = Some (JNum (Finite 990 0))
  /\ AuthProvider.payload_exp Scenario.token_exp_1300 = Some (JNum (Finite 1300 0))
  /\ AuthProvider.payload_exp Scenario.token_exp_2000 = Some (JNum (Finite 2000 0)).
Proof. vm_compute. repeat split. Qed.

(** Literals and the doubles they denote: a tenth, a literal that is not a
    double and lies nearer to 1300 than to the double below it, the two
    ties above 2^53, the largest double and the first literal beyond it,
    the smallest double and the literals that round to it or to zero. *)
Example decimal_rounds :
  decimal 1 (-1) = Finite 3602879701896397 55
  /\ decimal 129999999999999999999 (-17) = Finite 1300 0
  /\ decimal 12999999999999998 (-13) = Finite 5717460464435199 42
  /\ decimal 9007199254740993 0 = Finite 9007199254740992 0
  /\ decimal 9007199254740995 0 = Finite 9007199254740996 0
  /\ decimal 17976931348623157 292 = Finite (2 ^ 1024 - 2 ^ 971) 0
  /\ decimal 17976931348623159 292 = Inf false
  /\ decimal (-1) 400 = Inf true
  /\ decimal 5 (-324) = Finite 1 1074
  /\ decimal 3 (-324) = Finite 1 1074
  /\ decimal 2 (-324) = Finite 0 0.
Proof. vm_compute. repeat split. Qed.

(** [exp = 1300] against the clock: expired from second 1001 on. *)
Example isTokenExpired_around_the_margin :
  map (fun now => AuthProvider.isTokenExpired (offline now)
                    (Some Scenario.token_exp_1300) (fresh "/"))
      [0; 999000; 1000000; 1000999; 1001000; 1300000; 2000000]
  = [false; false; false; false; true; true; true].
Proof. vm_compute. reflexivity. Qed.

(** The clock reads second 1000, so the comparison is with 1300.  An [exp]
    written [1299.99999999999999999] is the double 1300 (the token is
    fresh), as a number, inside a one-element array and as a string;
    [1299.9999999999998] is a double below 1300; [1e400] and [-1e400] are
    the infinities. *)
Example isTokenExpired_rounded_exp :
  map (fun t => AuthProvider.isTokenExpired (offline 1000000) (Some t) (fresh "/"))
      ["a.eyJleHAiOjEyOTkuOTk5OTk5OTk5OTk5OTk5OTl9.c";
       "a.eyJleHAiOlsxMjk5Ljk5OTk5OTk5OTk5OTk5OTk5XX0.c";
       "a.eyJleHAiOiIxMjk5Ljk5OTk5OTk5OTk5OTk5OTk5In0.c";
       "a.eyJleHAiOjEyOTkuOTk5OTk5OTk5OTk5OH0.c";
       "a.eyJleHAiOjFlNDAwfQ.c"; "a.eyJleHAiOi0xZTQwMH0.c"]%string
  = [false; false; false; true; false; true].
Proof. vm_compute. reflexivity. Qed.

(** Tokens that do not decode: no dot, an empty payload, a payload in the
    URL-safe alphabet, a payload that is the JSON [null]. *)
Example isTokenExpired_undecodable :
  map (fun t => AuthProvider.isTokenExpired (offline 0) (Some t) (fresh "/"))
      ["abc"; "a..c"; "a.eyJleHAiOjIwMDAsInN1YiI6ImE_YiJ9.c"; "a.bnVsbA.c"]%string
  = [true; true; true; true].
Proof. vm_compute. reflexivity. Qed.

(** Payloads that decode without a numeric [exp]: no [exp] at all (the
    comparison with [undefined] is false, the token counts as fresh), the
    string of digits (compared as the number), [null] (compared as 0). *)
Example isTokenExpired_other_payloads :
  map (fun t => AuthProvider.isTokenExpired (offline 1000000) (Some t) (fresh "/"))
      ["a.e30.c"; "a.eyJzdWIiOiJ1MSJ9.c"; "a.eyJleHAiOiIyMDAwIn0.c";
       "a.eyJleHAiOm51bGx9.c"]%string
  = [false; false; false; true].
Proof. vm_compute. reflexivity. Qed.

(** No argument: the stored token is the one checked. *)
Example isTokenExpired_stored :
  AuthProvider.isTokenExpired (offline 1000000) None
    (Scenario.logged_in Scenario.token_exp_2000) = false
  /\ AuthProvider.isTokenExpired (offline 1000000) None
       (Scenario.logged_in Scenario.token_exp_990) = true
  /\ AuthProvider.isTokenExpired (offline 1000000) None (fresh "/") = true.
Proof. vm_compute. repeat split. Qed.

Example refresh_request_body :
  units (AuthProvider.refresh_body "R1")
  = [123; 34; 114; 101; 102; 114; 101; 115; 104; 84; 111; 107; 101; 110; 34;
     58; 34; 82; 49; 34; 125]%N.
Proof. vm_compute. reflexivity. Qed.

(** Start-up with an expired token and a server that turns the refresh
    down: everything is cleared and the loading flag is lowered. *)
Example checkAuthStatus_refresh_rejected :
  let w := AuthProvider.checkAuthStatus
             (Scenario.browser 1000000 (Scenario.responds 403 None None))
             (AuthProvider.login Scenario.token_exp_990 "u1" (Some "R1"%string)
                (fresh "/dashboard")) in
  Session.logged_out w /\ isLoading w = false
  /\ navigations w = [RouterPush "/login"].
Proof. vm_compute. repeat split. Qed.

(** A 500 with an empty object: the message names the status. *)
Example loginUser_status_message :
  AuthRequests.error
    (AuthRequests.loginUser (Case.server 200)
       (Case.answers 500 (AuthRequests.JsonObject
                            {| AuthRequests.error := None; AuthRequests.token := None;
                               AuthRequests.user_id := None;
                               AuthRequests.message := None |}))
       "ab1234@rit.edu" "secret" (fresh "/login")).1
  = Some "Login failed: 500"%string.
Proof. vm_compute. reflexivity. Qed.

(** The body of the login request; the quote in the password is
    escaped. *)
Example login_request_body :
  option_map units
    (body (Notion.login_request (Case.server 200) "a@b" (of_units [112; 34; 119]%N)))
  = Some ([123; 34] ++ units "email" ++ [34; 58; 34] ++ units "a@b" ++ [34; 44; 34]
          ++ units "password" ++ [34; 58; 34; 112; 92; 34; 119; 34; 125])%N.
Proof. vm_compute. reflexivity. Qed.

(** A successful login through the page. *)
Example handleLogin_success :
  let result := LoginPage.handleLogin (Case.server 200)
                  (Case.answers 200 (AuthRequests.JsonObject Case.welcome))
                  Case.login_form (setIsLoading false (fresh "/login")) in
  getItem "token" result.2 = Some Scenario.token_exp_2000
  /\ getItem "user_id" result.2 = Some "u1"%string
  /\ getItem "refreshToken" result.2 = None
  /\ isAuthenticated result.2 = true /\ user result.2 = Some "u1"%string
  /\ LoginPage.timers result.1 = [(1000, RouterPush "/")]
  /\ AuthProvider.routeGuard result.2 = navigate (RouterPush "/") result.2.
Proof. vm_compute. repeat split. Qed.

(** The default images, and two categories that have none of their
    own. *)
Example fallback_images :
  map MyPostsPage.fallback_image ["SELL"; "CARPOOL"; "EVENT"; "constructor"]%string
  = [MyPostsPage.Url "/sell.png"; MyPostsPage.Url "/carpool.png";
     MyPostsPage.Url "/default.png"; MyPostsPage.PrototypeMember "constructor"].
Proof. vm_compute. reflexivity. Qed.

(** Closing a post on the page. *)
Example handleUpdatePostStatus_closes :
  map MyPostsPage.status
    (MyPostsPage.posts
       (MyPostsPage.handleUpdatePostStatus (Case.server 200) "p2" "CLOSED"
          (Case.listing [Case.post "p1" "PUBLISHED" None; Case.post "p2" "PUBLISHED" None;
                         Case.post "p3" "FAILED" None] 1 3 None)
          (Scenario.logged_in Scenario.token_exp_2000)).1)
  = ["PUBLISHED"; "CLOSED"; "FAILED"]%string.
Proof. vm_compute. reflexivity. Qed.

End Checks.

(* ===================================================================== *)
(** * Facts about the built-ins                                           *)
(* ===================================================================== *)

Section ParserFuel.
Import Platform.

Lemma skip_ws_length l : (length (skip_ws l) <= length l)%nat.
Proof. induction l as [|c r IH]; simpl; [lia|]. destruct (is_json_ws c); simpl; lia. Qed.

Lemma take_digits_length l ds rest :
  take_digits l = (ds, rest) -> (length rest + length ds = length l)%nat.
Proof.
  revert ds rest. induction l as [|c r IH]; simpl; intros ds rest H.
  - inversion H; subst; reflexivity.
  - destruct (is_digit c).
    + destruct (take_digits r) as [ds' rest'] eqn:E. inversion H; subst.
      specialize (IH _ _ eq_refl). simpl. lia.
    + inversion H; subst. simpl. lia.
Qed.

Lemma exponent_part_length l ex rest :
  exponent_part l = Some (ex, rest) -> (length rest <= length l)%nat.
Proof.
  unfold exponent_part. intros H.
  repeat (case_match; simplify_eq; simpl in *; try lia);
  repeat match goal with
    | H : take_digits _ = _ |- _ => apply take_digits_length in H; simpl in H
    end; simpl in *; try lia.
Qed.

Lemma parse_number_length l v rest :
  parse_number l = Some (v, rest) -> (length rest < length l)%nat.
Proof.
  unfold parse_number. intros H.
  repeat (case_match; simplify_eq; simpl in *; try lia);
  repeat match goal with
    | H : take_digits _ = _ |- _ => apply take_digits_length in H; simpl in H
    | H : exponent_part _ = _ |- _ => apply exponent_part_length in H; simpl in H
    end; simpl in *; try lia.
Qed.

Lemma parse_string_body_length_le n : forall l acc s rest,
  (length l <= n)%nat ->
  parse_string_body acc l = Some (s, rest) -> (length rest < length l)%nat.
Proof.
  induction n as [|n IH]; intros l acc s rest Hn H;
    (destruct l as [|c r]; simpl in H; [discriminate|]); simpl in Hn; [lia|].
  repeat (case_match; simplify_eq; simpl in *; try lia);
  match goal with
  | H : parse_string_body _ ?r' = Some _ |- _ =>
      apply IH in H; simpl in *; lia
  end.
Qed.

Lemma parse_string_body_length l acc s rest :
  parse_string_body acc l = Some (s, rest) -> (length rest < length l)%nat.
Proof. apply (parse_string_body_length_le (length l)). lia. Qed.

Lemma expect_length lit : forall l rest,
  expect lit l = Some rest -> (length rest <= length l)%nat.
Proof.
  induction lit as [|a lit IH]; intros l rest H; simpl in H.
  - destruct l; simplify_eq; lia.
  - destruct l as [|b l']; [discriminate|]. destruct (N.eqb a b); [|discriminate].
    apply IH in H. simpl; lia.
Qed.

Ltac length_facts :=
  repeat match goal with
    | H : expect _ _ = Some _ |- _ => apply expect_length in H; simpl in H
    | H : parse_string_body _ _ = Some _ |- _ => apply parse_string_body_length in H; simpl in H
    | H : parse_number _ = Some _ |- _ => apply parse_number_length in H; simpl in H
    | H : skip_ws ?l = _ :: _ |- _ =>
        let L := fresh "L" in
        pose proof (skip_ws_length l) as L; rewrite H in L; simpl in L; clear H
    | H : skip_ws ?l = [] |- _ => clear H
    end.

Lemma parse_progress fuel :
  (forall l v rest, parse_value fuel l = Some (v, rest) -> (length rest < length l)%nat)
  /\ (forall acc l v rest, parse_elements fuel acc l = Some (v, rest) -> (length rest < length l)%nat)
  /\ (forall acc l v rest, parse_members fuel acc l = Some (v, rest) -> (length rest < length l)%nat).
Proof.
  induction fuel as [|f (IHv & IHe & IHm)]; [repeat split; intros; discriminate|].
  repeat split.
  - intros l v rest H. cbn [parse_value] in H. unfold value_with in H.
    repeat (case_match; simplify_eq);
    try match goal with
    | H : option_map _ _ = Some _ |- _ =>
        apply fmap_Some in H; destruct H as (? & ? & ?); simplify_eq
    end;
    try match goal with H : parse_elements _ _ _ = Some _ |- _ => apply IHe in H end;
    try match goal with H : parse_members _ _ _ = Some _ |- _ => apply IHm in H end;
    length_facts; cbn [length] in *; lia.
  - intros acc l v rest H. cbn [parse_elements] in H. unfold elements_with in H.
    repeat (case_match; simplify_eq);
    try match goal with H : parse_elements _ _ _ = Some _ |- _ => apply IHe in H end;
    try match goal with H : parse_value _ _ = Some _ |- _ => apply IHv in H end;
    length_facts; cbn [length] in *; lia.
  - intros acc l v rest H. cbn [parse_members] in H. unfold members_with in H.
    repeat (case_match; simplify_eq);
    try match goal with H : parse_members _ _ _ = Some _ |- _ => apply IHm in H end;
    try match goal with H : parse_value _ _ = Some _ |- _ => apply IHv in H end;
    length_facts; cbn [length] in *; lia.
Qed.

Lemma parse_fuel_stable f :
  (forall l, (2 * length l + 1 <= f)%nat -> parse_value (S f) l = parse_value f l)
  /\ (forall acc l, (2 * length l + 2 <= f)%nat ->
        parse_elements (S f) acc l = parse_elements f acc l)
  /\ (forall acc l, (2 * length l + 2 <= f)%nat ->
        parse_members (S f) acc l = parse_members f acc l).
Proof.
  induction f as [|f (IHv & IHe & IHm)]; [repeat split; intros; lia|].
  repeat split.
  - intros l Hl.
    change (value_with (parse_elements (S f)) (parse_members (S f)) l
            = value_with (parse_elements f) (parse_members f) l).
    unfold value_with.
    destruct (skip_ws l) as [|c r] eqn:Hws; [reflexivity|].
    length_facts.
    repeat (case_match; simplify_eq; try reflexivity); length_facts; cbn [length] in *.
    + apply IHm. cbn [length]. lia.
    + apply IHe. cbn [length]. lia.
  - intros acc l Hl.
    change (elements_with (parse_value (S f)) (parse_elements (S f)) acc l
            = elements_with (parse_value f) (parse_elements f) acc l).
    unfold elements_with.
    rewrite IHv by lia.
    destruct (parse_value f l) as [[v rest]|] eqn:Hv; [|reflexivity].
    apply (proj1 (parse_progress f)) in Hv.
    destruct (skip_ws rest) as [|c r] eqn:Hws; [reflexivity|].
    length_facts.
    repeat (case_match; simplify_eq; try reflexivity).
    apply IHe. lia.
  - intros acc l Hl.
    change (members_with (parse_value (S f)) (parse_members (S f)) acc l
            = members_with (parse_value f) (parse_members f) acc l).
    unfold members_with.
    destruct (skip_ws l) as [|q l1] eqn:Hws; [reflexivity|].
    destruct (N.eqb q 34); [|reflexivity].
    destruct (parse_string_body [] l1) as [[k l2]|] eqn:Hk; [|reflexivity].
    destruct (skip_ws l2) as [|colon l3] eqn:Hws2; [reflexivity|].
    destruct (N.eqb colon 58); [|reflexivity].
    length_facts.
    rewrite IHv by (cbn [length] in *; lia).
    destruct (parse_value f l3) as [[v rest]|] eqn:Hv; [|reflexivity].
    apply (proj1 (parse_progress f)) in Hv.
    destruct (skip_ws rest) as [|c r] eqn:Hws3; [reflexivity|].
    length_facts.
    repeat (case_match; simplify_eq; try reflexivity).
    apply IHm. cbn [length] in *. lia.
Qed.

(** Beyond [2 * length l + 1] the fuel does not matter. *)
Lemma parse_value_fuel l f :
  (2 * length l + 1 <= f)%nat ->
  parse_value f l = parse_value (2 * length l + 2) l.
Proof.
  intros Hf.
  assert (forall d, parse_value (d + (2 * length l + 1)) l
                    = parse_value (2 * length l + 1) l) as Hd.
  { induction d as [|d IH]; [reflexivity|].
    rewrite <- IH.
    apply (proj1 (parse_fuel_stable (d + (2 * length l + 1)))). lia. }
  replace f with ((f - (2 * length l + 1)) + (2 * length l + 1))%nat by lia.
  rewrite Hd. symmetry.
  replace (2 * length l + 2)%nat with (1 + (2 * length l + 1))%nat by lia.
  apply Hd.
Qed.

(** [JSON.parse] is what the descent computes with any larger fuel: the
    fuel it is given never runs out. *)
Lemma JSON_parse_fuel s f :
  (2 * length (units s) + 1 <= f)%nat ->
  JSON_parse s
  = match parse_value f (units s) with
    | Some (v, rest) =>
        match skip_ws rest with
        | [] => Some v
        | _ :: _ => None
        end
    | None => None
    end.
Proof.
  intros Hf. unfold JSON_parse. rewrite (parse_value_fuel _ f Hf). reflexivity.
Qed.

End ParserFuel.

(* ===================================================================== *)
(** * Facts about the storage                                             *)
(* ===================================================================== *)

Import Platform Browser Session.

Lemma truthy_Some (s : string) : s ≠ EmptyString -> truthy (Some s) = true.
Proof. intros H. unfold truthy. apply negb_true_iff, String.eqb_neq, H. Qed.

Lemma number_lt_integer (x n : Z) : number_lt (Finite x 0) n = true <-> x < n.
Proof. unfold number_lt. simpl. rewrite Z.mul_1_r. apply Z.ltb_lt. Qed.

Ltac storage :=
  unfold getItem, setItem, removeItem, with_localStorage, setUser,
    setIsAuthenticated, setIsLoading, navigate, sent in *;
  cbn [localStorage isAuthenticated isLoading user pathname navigations fetched] in *;
  simplify_map_eq; try done.


(** With a non-empty expired token stored, [getValidToken] is
    [refreshToken] with a falsy result turned into [null]. *)
Lemma getValidToken_expired (e : env) (w : world) (t : string) :
  getItem "token" w = Some t -> t ≠ EmptyString ->
  AuthProvider.isTokenExpired e (Some t) w = true ->
  AuthProvider.getValidToken e w
  = (if truthy (AuthProvider.refreshToken e w).1
     then (AuthProvider.refreshToken e w).1 else None,
     (AuthProvider.refreshToken e w).2).
Proof.
  intros Ht Hne Hexp. unfold AuthProvider.getValidToken.
  rewrite Ht, (truthy_Some _ Hne), Hexp.
  destruct (AuthProvider.refreshToken e w) as [newToken w']. simpl.
  destruct (truthy newToken); reflexivity.
Qed.

(** X5.  [login(t, u, r)] followed at once by [getValidToken()] returns [t]
    when [t] is not expired, and sends nothing. *)
Lemma login_then_getValidToken (e : env) (w : world) (t u : string)
    (r : option string) :
  AuthProvider.isTokenExpired e (Some t) (AuthProvider.login t u r w) = false ->
  AuthProvider.getValidToken e (AuthProvider.login t u r w)
  = (Some t, AuthProvider.login t u r w).
Proof.
  intros Hexp.
  assert (getItem "token" (AuthProvider.login t u r w) = Some t) as Ht.
  { unfold AuthProvider.login. destruct r as [r'|]; [destruct (truthy (Some r'))|];
      storage. }
  assert (t ≠ EmptyString) as Hne.
  { intros ->. unfold AuthProvider.isTokenExpired, js_or in Hexp.
    cbn [truthy String.eqb negb] in Hexp. rewrite Ht in Hexp. discriminate Hexp. }
  unfold AuthProvider.getValidToken.
  rewrite Ht, (truthy_Some _ Hne), Hexp. reflexivity.
Qed.

(** With a non-empty refresh token stored, [refreshToken] sends the one
    request and goes on with its outcome. *)
Lemma refreshToken_sends (e : env) (w : world) (rt : string) :
  getItem "refreshToken" w = Some rt -> rt ≠ EmptyString ->
  AuthProvider.refreshToken e w
  = AuthProvider.refreshToken_settled
      (fetch e (AuthProvider.refresh_request e rt))
      (sent (AuthProvider.refresh_request e rt) w).
Proof.
  intros Hrt Hne. unfold AuthProvider.refreshToken.
  rewrite Hrt, (truthy_Some _ Hne). reflexivity.
Qed.

Ltac settle :=
  unfold user_id_implies_token in *;
  repeat (case_match; simplify_eq; cbn [fst snd] in * );
  storage.

Lemma logout_preserves (w : world) : user_id_implies_token (AuthProvider.logout w).
Proof. unfold AuthProvider.logout. settle. Qed.

Lemma clearAuthData_preserves (e : env) (w : world) :
  user_id_implies_token w -> user_id_implies_token (AuthUtils.clearAuthData e w).
Proof. unfold AuthUtils.clearAuthData. intros Hw. settle. Qed.

Lemma refreshToken_settled_preserves (outcome : fetch_result) (w : world) :
  user_id_implies_token w ->
  user_id_implies_token (AuthProvider.refreshToken_settled outcome w).2.
Proof.
  intros Hw. unfold AuthProvider.refreshToken_settled.
  destruct outcome as [reason|r]; [exact Hw|].
  destruct (ok r); [|apply logout_preserves].
  destruct (json r) as [data|]; [|exact Hw]. settle.
Qed.

Lemma refreshToken_preserves (e : env) (w : world) :
  user_id_implies_token w ->
  user_id_implies_token (AuthProvider.refreshToken e w).2.
Proof.
  intros Hw. unfold AuthProvider.refreshToken.
  destruct (getItem "refreshToken" w) as [rt|] eqn:Hrt; [|exact Hw].
  destruct (truthy (Some rt)); [|exact Hw].
  apply refreshToken_settled_preserves. exact Hw.
Qed.

Lemma checkAuthStatus_settled_preserves (userId newToken : option string)
    (w : world) :
  user_id_implies_token w ->
  user_id_implies_token (AuthProvider.checkAuthStatus_settled userId newToken w).
Proof.
  intros Hw.
  unfold AuthProvider.checkAuthStatus_settled, AuthProvider.clear_auth_state.
  settle.
Qed.

Lemma authenticatedFetch_settled_preserves (e : env) (outcome : fetch_result)
    (w : world) :
  user_id_implies_token w ->
  user_id_implies_token (AuthUtils.authenticatedFetch_settled e outcome w).2.
Proof.
  intros Hw. unfold AuthUtils.authenticatedFetch_settled.
  destruct outcome as [reason|r]; [exact Hw|].
  destruct (Z.eqb (status r) 401); [|exact Hw].
  apply (clearAuthData_preserves e w) in Hw.
  unfold AuthUtils.clearAuthData in *. settle.
Qed.

Lemma run_preserves (a : action) (w : world) :
  user_id_implies_token w -> user_id_implies_token (run a w).
Proof.
  destruct a; cbn [run]; intros Hw.
  - unfold AuthProvider.login. settle.
  - apply logout_preserves.
  - apply refreshToken_preserves, Hw.
  - apply refreshToken_settled_preserves, Hw.
  - unfold AuthProvider.getValidToken.
    destruct (negb (truthy (getItem "token" w))); [exact Hw|].
    destruct (AuthProvider.isTokenExpired e (getItem "token" w) w); [|exact Hw].
    pose proof (refreshToken_preserves e w Hw) as Hr.
    destruct (AuthProvider.refreshToken e w) as [newToken w'].
    destruct (truthy newToken); exact Hr.
  - unfold AuthProvider.checkAuthStatus.
    destruct (truthy (getItem "token" w) && truthy (getItem "user_id" w))%bool;
      [|settle].
    destruct (AuthProvider.isTokenExpired e (getItem "token" w) w); [|settle].
    pose proof (refreshToken_preserves e w Hw) as Hr.
    destruct (AuthProvider.refreshToken e w) as [newToken w'].
    apply checkAuthStatus_settled_preserves, Hr.
  - apply checkAuthStatus_settled_preserves, Hw.
  - unfold AuthProvider.useEffect_routeGuard, AuthProvider.routeGuard. settle.
  - exact Hw.
  - unfold AuthUtils.setAuthData. settle.
  - apply clearAuthData_preserves, Hw.
  - unfold AuthUtils.redirectToLoginIfNotAuthenticated. settle.
  - unfold AuthUtils.authenticatedFetch.
    destruct (AuthUtils.getToken e w) as [t|]; [|exact Hw].
    destruct (truthy (Some t)); [|exact Hw].
    apply authenticatedFetch_settled_preserves. exact Hw.
  - apply authenticatedFetch_settled_preserves, Hw.
Qed.

Lemma history_invariant (h : list world) :
  history h -> forall w, w ∈ h -> user_id_implies_token w.
Proof.
  induction 1 as [path|a w h Hh IH]; intros w' Hin.
  - apply list_elem_of_singleton in Hin. subst. unfold user_id_implies_token.
    storage; intros [? ?]; done.
  - apply elem_of_cons in Hin as [->|Hin]; [|apply IH, Hin].
    apply run_preserves, IH. left.
Qed.

(* ===================================================================== *)
(** * The properties                                                      *)
(* ===================================================================== *)

(** ** Token expiry *)

(** C1 (as the code has it).  The token checked is the argument or, when
    that is missing or empty, the stored access token.  With no such token
    the answer is [true]; with a token whose payload does not decode the
    answer is [true]; with a decoded numeric [exp] (the double that
    [JSON.parse] reads from the payload, [n / 2^p]) the answer is whether
    [exp < floor(now / 1000) + 300]: [true] when [exp] is in the past or
    less than 300 seconds after the current whole second, [false] when it
    is 300 seconds or more after it; with an [exp] that overflows to an
    infinity the answer is whether it is the negative one.  The function
    is total: every exception of the decoding ends in the answer
    [true]. *)
Theorem isTokenExpired_spec (e : env) (w : world) (token : option string) :
  let tokenToCheck := js_or token (getItem "token" w) in
  let limit := AuthProvider.currentTime e + 300 in
  (truthy tokenToCheck = false -> AuthProvider.isTokenExpired e token w = true)
  /\ (forall s, tokenToCheck = Some s -> AuthProvider.payload_exp s = None ->
        AuthProvider.isTokenExpired e token w = true)
  /\ (forall s n p, tokenToCheck = Some s -> s ≠ EmptyString -> 0 <= p ->
        AuthProvider.payload_exp s = Some (JNum (Finite n p)) ->
        (AuthProvider.isTokenExpired e token w = true <-> n < limit * 2 ^ p)
        /\ (AuthProvider.isTokenExpired e token w = false <-> limit * 2 ^ p <= n))
  /\ (forall s x, tokenToCheck = Some s -> s ≠ EmptyString ->
        AuthProvider.payload_exp s = Some (JNum (Finite x 0)) ->
        (AuthProvider.isTokenExpired e token w = true <-> x < limit)
        /\ (AuthProvider.isTokenExpired e token w = false <-> limit <= x))
  /\ (forall s negative, tokenToCheck = Some s -> s ≠ EmptyString ->
        AuthProvider.payload_exp s = Some (JNum (Inf negative)) ->
        AuthProvider.isTokenExpired e token w = negative).
Proof.
  intros tokenToCheck limit.
  assert (forall s x, tokenToCheck = Some s -> s ≠ EmptyString ->
        AuthProvider.payload_exp s = Some (JNum x) ->
        AuthProvider.isTokenExpired e token w = number_lt x limit) as Hnum.
  { intros s x Hs Hne Hp. unfold AuthProvider.isTokenExpired.
    fold tokenToCheck. rewrite Hs, (truthy_Some _ Hne), Hp. reflexivity. }
  assert (forall s n p, tokenToCheck = Some s -> s ≠ EmptyString -> 0 <= p ->
        AuthProvider.payload_exp s = Some (JNum (Finite n p)) ->
        (AuthProvider.isTokenExpired e token w = true <-> n < limit * 2 ^ p)
        /\ (AuthProvider.isTokenExpired e token w = false <-> limit * 2 ^ p <= n))
    as Hfin.
  { intros s n p Hs Hne Hp Hexp. rewrite (Hnum s _ Hs Hne Hexp).
    unfold number_lt. destruct (Z.leb_spec 0 p) as [_|Hlt]; [|lia].
    destruct (Z.ltb_spec n (limit * 2 ^ p)) as [Hlt|Hge]; split; split;
      first [done | lia]. }
  split; [|split; [|split; [|split]]].
  - intros H. unfold AuthProvider.isTokenExpired. fold tokenToCheck.
    destruct tokenToCheck; [rewrite H|]; reflexivity.
  - intros s Hs Hp. unfold AuthProvider.isTokenExpired. fold tokenToCheck.
    rewrite Hs, Hp. destruct (truthy (Some s)); reflexivity.
  - exact Hfin.
  - intros s x Hs Hne Hp.
    destruct (Hfin s x 0 Hs Hne (Z.le_refl 0) Hp) as [Ht Hf].
    change (2 ^ 0) with 1 in Ht, Hf. rewrite Z.mul_1_r in Ht, Hf. split; assumption.
  - intros s negative Hs Hne Hp. rewrite (Hnum s _ Hs Hne Hp). reflexivity.
Qed.

(** At second 1000 the token expiring at second 2000 is not expired. *)
Lemma isTokenExpired_spec_witness :
  js_or (Some Scenario.token_exp_2000) (getItem "token" (fresh "/"))
  = Some Scenario.token_exp_2000
  /\ Scenario.token_exp_2000 ≠ EmptyString
  /\ AuthProvider.payload_exp Scenario.token_exp_2000 = Some (JNum (Finite 2000 0))
  /\ AuthProvider.isTokenExpired (Scenario.browser 1000000 (Rejected "offline"))
       (Some Scenario.token_exp_2000) (fresh "/") = false.
Proof.
  split; [reflexivity|]. split; [discriminate|].
  split; [vm_compute; reflexivity|].
  destruct (isTokenExpired_spec (Scenario.browser 1000000 (Rejected "offline"))
              (fresh "/") (Some Scenario.token_exp_2000)) as (_ & _ & _ & H & _).
  apply (H Scenario.token_exp_2000 2000);
    [reflexivity | discriminate | vm_compute; reflexivity | vm_compute; discriminate].
Defined.

(** C1 as stated fails inside the margin: half a second after second 1000
    a token with [exp = 1300] expires in 299.5 seconds, and
    [isTokenExpired] answers [false], as it does for every [exp] from 299
    to 300 seconds ahead. *)
Lemma isTokenExpired_within_margin_counterexample :
  ~ (forall (e : env) (w : world) (s : string) (x : Z),
       AuthProvider.payload_exp s = Some (JNum (Finite x 0)) ->
       x * 1000 - Date_now e < 300 * 1000 ->
       AuthProvider.isTokenExpired e (Some s) w = true).
Proof.
  intros H.
  specialize (H (Scenario.browser 1000500 (Rejected "offline")) (fresh "/")
                Scenario.token_exp_1300 1300).
  assert (AuthProvider.isTokenExpired (Scenario.browser 1000500 (Rejected "offline"))
            (Some Scenario.token_exp_1300) (fresh "/") = false) as Hf
    by (vm_compute; reflexivity).
  rewrite H in Hf; [discriminate| vm_compute; reflexivity | vm_compute; reflexivity].
Qed.

(** ** Obtaining a valid token *)

(** C2 (as the code has it).  With no access token stored, or an empty
    one, [getValidToken] returns [null] and leaves the world as it is, the
    log of requests included.  With a stored token that is not expired it
    returns that token, again without touching anything.  With a stored
    token that is expired it calls [refreshToken]: the world afterwards is
    the one [refreshToken] leaves, and the result is [refreshToken]'s when
    that is a non-empty token and [null] otherwise. *)
Theorem getValidToken_spec (e : env) (w : world) :
  (truthy (getItem "token" w) = false ->
   AuthProvider.getValidToken e w = (None, w))
  /\ (forall t, getItem "token" w = Some t -> t ≠ EmptyString ->
        AuthProvider.isTokenExpired e (Some t) w = false ->
        AuthProvider.getValidToken e w = (Some t, w))
  /\ (forall t, getItem "token" w = Some t -> t ≠ EmptyString ->
        AuthProvider.isTokenExpired e (Some t) w = true ->
        AuthProvider.getValidToken e w
        = (if truthy (AuthProvider.refreshToken e w).1
           then (AuthProvider.refreshToken e w).1 else None,
           (AuthProvider.refreshToken e w).2)).
Proof.
  split; [|split].
  - intros H. unfold AuthProvider.getValidToken. rewrite H. reflexivity.
  - intros t Ht Hne Hexp. unfold AuthProvider.getValidToken.
    rewrite Ht, (truthy_Some _ Hne), Hexp. reflexivity.
  - intros t Ht Hne Hexp. apply (getValidToken_expired e w t Ht Hne Hexp).
Qed.

(** Logged in with the token expiring at second 2000, asked at second
    1000: the stored token comes back and nothing is sent. *)
Lemma getValidToken_spec_witness :
  let e := Scenario.browser 1000000 (Rejected "offline") in
  let w := Scenario.logged_in Scenario.token_exp_2000 in
  getItem "token" w = Some Scenario.token_exp_2000
  /\ Scenario.token_exp_2000 ≠ EmptyString
  /\ AuthProvider.isTokenExpired e (Some Scenario.token_exp_2000) w = false
  /\ AuthProvider.getValidToken e w = (Some Scenario.token_exp_2000, w).
Proof.
  intros e w.
  assert (getItem "token" w = Some Scenario.token_exp_2000) as Ht
    by (vm_compute; reflexivity).
  assert (AuthProvider.isTokenExpired e (Some Scenario.token_exp_2000) w = false)
    as Hexp by (vm_compute; reflexivity).
  split; [exact Ht|]. split; [discriminate|]. split; [exact Hexp|].
  destruct (getValidToken_spec e w) as (_ & H & _).
  apply (H Scenario.token_exp_2000 Ht); [discriminate | exact Hexp].
Defined.

(** C2 as stated fails where the refresh endpoint answers 200 with an
    empty token: [refreshToken] produces the empty string, and
    [getValidToken] returns [null]. *)
Lemma getValidToken_empty_token_counterexample :
  ~ (forall (e : env) (w : world) (t : string),
       getItem "token" w = Some t -> t ≠ EmptyString ->
       AuthProvider.isTokenExpired e (Some t) w = true ->
       (AuthProvider.getValidToken e w).1 = (AuthProvider.refreshToken e w).1).
Proof.
  intros H.
  specialize (H (Scenario.browser 1000000 (Scenario.responds 200 (Some EmptyString) None))
                (Scenario.logged_in Scenario.token_exp_990)
                Scenario.token_exp_990).
  assert ((AuthProvider.getValidToken
             (Scenario.browser 1000000 (Scenario.responds 200 (Some EmptyString) None))
             (Scenario.logged_in Scenario.token_exp_990)).1 = None) as Hg
    by (vm_compute; reflexivity).
  assert ((AuthProvider.refreshToken
             (Scenario.browser 1000000 (Scenario.responds 200 (Some EmptyString) None))
             (Scenario.logged_in Scenario.token_exp_990)).1 = Some EmptyString) as Hr
    by (vm_compute; reflexivity).
  rewrite Hg, Hr in H.
  discriminate H; [vm_compute; reflexivity | discriminate | vm_compute; reflexivity].
Qed.

(** ** Refreshing *)



(** C4.  Without a stored refresh token (or with an empty one)
    [refreshToken] returns [null] and leaves the whole world as it is: no
    request is made.  When the request is made and [fetch] rejects, it
    returns [null] too; the stored fields, the session and the navigation
    log are as before, so no logout took place, and the log of requests
    holds the one request more. *)
Theorem refreshToken_nonterminal (e : env) (w : world) :
  (truthy (getItem "refreshToken" w) = false ->
   AuthProvider.refreshToken e w = (None, w))
  /\ (forall rt reason, getItem "refreshToken" w = Some rt -> rt ≠ EmptyString ->
        fetch e (AuthProvider.refresh_request e rt) = Rejected reason ->
        let w' := (AuthProvider.refreshToken e w).2 in
        (AuthProvider.refreshToken e w).1 = None
        /\ localStorage w' = localStorage w
        /\ isAuthenticated w' = isAuthenticated w /\ user w' = user w
        /\ navigations w' = navigations w
        /\ fetched w' = AuthProvider.refresh_request e rt :: fetched w).
Proof.
  split.
  - intros H. unfold AuthProvider.refreshToken.
    destruct (getItem "refreshToken" w); [rewrite H|]; reflexivity.
  - intros rt reason Hrt Hne Hfetch.
    rewrite (refreshToken_sends e w rt Hrt Hne), Hfetch. cbn. repeat split.
Qed.

(** Logged in and off line. *)
Lemma refreshToken_nonterminal_witness :
  let e := Scenario.browser 1000000 (Rejected "Failed to fetch") in
  let w := Scenario.logged_in Scenario.token_exp_990 in
  getItem "refreshToken" w = Some "R1"%string
  /\ (AuthProvider.refreshToken e w).1 = None
  /\ localStorage (AuthProvider.refreshToken e w).2 = localStorage w
  /\ navigations (AuthProvider.refreshToken e w).2 = navigations w.
Proof.
  intros e w.
  assert (getItem "refreshToken" w = Some "R1"%string) as Hrt
    by (vm_compute; reflexivity).
  destruct (refreshToken_nonterminal e w) as (_ & H).
  destruct (H "R1"%string "Failed to fetch"%string Hrt)
    as (H1 & H2 & _ & _ & H5 & _); [discriminate | reflexivity |].
  repeat split; assumption.
Defined.

(** C5 (as the code has it).  With a refresh token stored and a 2xx
    response whose body reads as JSON and carries the token [t],
    [refreshToken] returns [t] and stores it as the access token; the
    stored refresh token becomes the response's when the response has a
    non-empty one and stays the old one otherwise; the user id stays.
    Hence, with a non-empty expired token stored and [t] not empty,
    [getValidToken] returns [t] and leaves that same world. *)
Theorem refreshToken_success (e : env) (w : world) (rt t : string)
    (r : response) (data : refresh_data) :
  getItem "refreshToken" w = Some rt -> rt ≠ EmptyString ->
  fetch e (AuthProvider.refresh_request e rt) = Resolved r -> ok r = true ->
  json r = Some data -> data_token data = Some t ->
  let w' := (AuthProvider.refreshToken e w).2 in
  (AuthProvider.refreshToken e w).1 = Some t
  /\ getItem "token" w' = Some t
  /\ getItem "refreshToken" w'
     = Some (match data_refreshToken data with
             | Some r' => if String.eqb r' EmptyString then rt else r'
             | None => rt
             end)
  /\ getItem "user_id" w' = getItem "user_id" w
  /\ (forall old, getItem "token" w = Some old -> old ≠ EmptyString ->
        AuthProvider.isTokenExpired e (Some old) w = true -> t ≠ EmptyString ->
        AuthProvider.getValidToken e w = (Some t, w')).
Proof.
  intros Hrt Hne Hfetch Hok Hjson Htok.
  pose proof (refreshToken_sends e w rt Hrt Hne) as Heq.
  rewrite Hfetch in Heq. rewrite Heq.
  unfold AuthProvider.refreshToken_settled. rewrite Hok, Hjson, Htok.
  cbn [fst snd ToString default].
  split; [reflexivity|].
  split; [|split; [|split]].
  - destruct (data_refreshToken data) as [r'|]; [|storage].
    unfold truthy. destruct (String.eqb r' EmptyString); storage.
  - destruct (data_refreshToken data) as [r'|]; [|storage].
    unfold truthy. destruct (String.eqb r' EmptyString); storage.
  - destruct (data_refreshToken data) as [r'|]; [|storage].
    unfold truthy. destruct (String.eqb r' EmptyString); storage.
  - intros old Hold Holdne Hexp Htne.
    rewrite (getValidToken_expired e w old Hold Holdne Hexp), Heq.
    unfold AuthProvider.refreshToken_settled. rewrite Hok, Hjson, Htok.
    cbn [fst snd]. rewrite (truthy_Some _ Htne). reflexivity.
Qed.

(** The scenario of the specification: the stored token expired ten
    seconds ago, the refresh token [R1] is stored, the endpoint answers
    200 with the token [T2] and no refresh token. *)
Lemma refreshToken_success_witness :
  let e := Scenario.browser 1000000 (Scenario.responds 200 (Some "T2"%string) None) in
  let w := Scenario.logged_in Scenario.token_exp_990 in
  AuthProvider.isTokenExpired e (Some Scenario.token_exp_990) w = true
  /\ (AuthProvider.getValidToken e w).1 = Some "T2"%string
  /\ getItem "token" (AuthProvider.getValidToken e w).2 = Some "T2"%string
  /\ getItem "refreshToken" (AuthProvider.getValidToken e w).2 = Some "R1"%string.
Proof.
  intros e w.
  assert (AuthProvider.isTokenExpired e (Some Scenario.token_exp_990) w = true)
    as Hexp by (vm_compute; reflexivity).
  destruct (refreshToken_success e w "R1" "T2"
              {| status := 200;
                 json := Some {| data_token := Some "T2"%string;
                                 data_refreshToken := None |} |}
              {| data_token := Some "T2"%string; data_refreshToken := None |})
    as (_ & H2 & H3 & _ & H5);
    [vm_compute; reflexivity | discriminate | reflexivity | reflexivity
    | reflexivity | reflexivity |].
  rewrite (H5 Scenario.token_exp_990);
    [| vm_compute; reflexivity | discriminate | exact Hexp | discriminate].
  cbn [fst snd]. repeat split; assumption.
Defined.

(** C5 as stated fails for a 2xx response that carries no token.  The
    endpoint answers 200 with a body that is not JSON: [refreshToken]
    returns [null] and the expired token stays stored.  The endpoint
    answers 200 with a JSON body without a token: [refreshToken] returns
    [undefined] and stores the nine characters of that word. *)
Lemma refreshToken_success_counterexample :
  ~ (forall (e : env) (w : world) (rt : string) (r : response),
       getItem "refreshToken" w = Some rt -> rt ≠ EmptyString ->
       fetch e (AuthProvider.refresh_request e rt) = Resolved r -> ok r = true ->
       exists t, (AuthProvider.refreshToken e w).1 = Some t
                 /\ getItem "token" (AuthProvider.refreshToken e w).2 = Some t)
  /\ (let e := Scenario.browser 1000000 (Resolved {| status := 200; json := None |}) in
      let w := Scenario.logged_in Scenario.token_exp_990 in
      (AuthProvider.refreshToken e w).1 = None
      /\ getItem "token" (AuthProvider.refreshToken e w).2 = Some Scenario.token_exp_990)
  /\ (let e := Scenario.browser 1000000 (Scenario.responds 200 None None) in
      let w := Scenario.logged_in Scenario.token_exp_990 in
      (AuthProvider.refreshToken e w).1 = None
      /\ getItem "token" (AuthProvider.refreshToken e w).2 = Some "undefined"%string).
Proof.
  split; [|split; vm_compute; split; reflexivity].
  intros H.
  destruct (H (Scenario.browser 1000000 (Resolved {| status := 200; json := None |}))
              (Scenario.logged_in Scenario.token_exp_990) "R1"%string
              {| status := 200; json := None |})
    as (t & Ht & _);
    [vm_compute; reflexivity | discriminate | reflexivity | reflexivity |].
  vm_compute in Ht. discriminate Ht.
Qed.

(** ** Logging out and in *)



(** C9.  [login] without a refresh token, or with an empty one, leaves the
    stored refresh token as it was, present or not, and overwrites the
    stored access token and user id. *)
Theorem login_keeps_refreshToken (token userId : string)
    (refreshTokenValue : option string) (w : world) :
  truthy refreshTokenValue = false ->
  let w' := AuthProvider.login token userId refreshTokenValue w in
  getItem "refreshToken" w' = getItem "refreshToken" w
  /\ getItem "token" w' = Some token
  /\ getItem "user_id" w' = Some userId.
Proof.
  intros H. unfold AuthProvider.login.
  destruct refreshTokenValue as [r|]; [rewrite H|]; repeat split; storage.
Qed.

(** A second user logs in over the first session without a refresh token:
    the first session's [R1] is still stored. *)
Lemma login_keeps_refreshToken_witness :
  let w := Scenario.logged_in Scenario.token_exp_990 in
  let w' := AuthProvider.login Scenario.token_exp_2000 "u2" None w in
  truthy None = false
  /\ getItem "refreshToken" w' = Some "R1"%string
  /\ getItem "token" w' = Some Scenario.token_exp_2000
  /\ getItem "user_id" w' = Some "u2"%string.
Proof.
  intros w w'. subst w'. split; [reflexivity|].
  destruct (login_keeps_refreshToken Scenario.token_exp_2000 "u2" None w)
    as (H1 & H2 & H3); [reflexivity|].
  split; [rewrite H1; vm_compute; reflexivity|]. split; assumption.
Defined.

(** ** The route guard *)

(** C8.  The public routes are [/login], [/register] and [/verify].  At
    the first render, and at every render that shows another session state
    or another location than the render before it (a session state
    transition, a navigation), once [isLoading] is false: an
    unauthenticated session on a path outside the public routes is sent to
    [/login], and an authenticated session on a public route is sent to
    [/].  At every render whatever, such a session has been sent there: at
    that render, or at an earlier one since which neither the session
    state nor the location has changed. *)
Theorem routeGuard_spec :
  AuthProvider.PUBLIC_ROUTES = ["/login"; "/register"; "/verify"]%string
  /\ (forall (prev : option world) (w : world),
        (forall p, prev = Some p ->
           Render.session p ≠ Render.session w \/ pathname p ≠ pathname w) ->
        isLoading w = false ->
        (isAuthenticated w = false -> pathname w ∉ AuthProvider.PUBLIC_ROUTES ->
         Render.effects prev w = navigate (RouterPush "/login") w)
        /\ (isAuthenticated w = true -> pathname w ∈ AuthProvider.PUBLIC_ROUTES ->
            Render.effects prev w = navigate (RouterPush "/") w))
  /\ (forall (h : list (world * world)) (w w' : world),
        Render.renders ((w, w') :: h) -> isLoading w = false ->
        (isAuthenticated w = false -> pathname w ∉ AuthProvider.PUBLIC_ROUTES ->
         Render.requested "/login" w ((w, w') :: h))
        /\ (isAuthenticated w = true -> pathname w ∈ AuthProvider.PUBLIC_ROUTES ->
            Render.requested "/" w ((w, w') :: h))).
Proof.
  assert (forall (prev : option world) (w : world),
            (forall p, prev = Some p ->
               Render.session p ≠ Render.session w \/ pathname p ≠ pathname w) ->
            isLoading w = false ->
            Render.effects prev w = AuthProvider.routeGuard w) as Hruns.
  { intros prev w Hchange Hload.
    unfold Render.effects, AuthProvider.useEffect_routeGuard.
    destruct prev as [p|]; [|reflexivity]. cbn [fmap option_fmap option_map].
    rewrite bool_decide_eq_false_2; [reflexivity|].
    intros Heq. injection Heq as Ha Hl Hp.
    destruct (Hchange p eq_refl) as [Hs|Hs]; [|exact (Hs Hp)].
    apply Hs. unfold Render.session. rewrite Ha, Hl. reflexivity. }
  assert (forall w, isLoading w = false ->
            (isAuthenticated w = false -> pathname w ∉ AuthProvider.PUBLIC_ROUTES ->
             AuthProvider.routeGuard w = navigate (RouterPush "/login") w)
            /\ (isAuthenticated w = true -> pathname w ∈ AuthProvider.PUBLIC_ROUTES ->
                AuthProvider.routeGuard w = navigate (RouterPush "/") w)) as Hguard.
  { intros w Hload. unfold AuthProvider.routeGuard. rewrite Hload. cbn [negb].
    split; intros Ha Hp; rewrite Ha.
    - rewrite (bool_decide_eq_false_2 _ Hp). reflexivity.
    - rewrite (bool_decide_eq_true_2 _ Hp). reflexivity. }
  split; [reflexivity|]. split.
  - intros prev w Hchange Hload. rewrite (Hruns prev w Hchange Hload).
    apply Hguard, Hload.
  - assert (forall path h, Render.renders h -> forall w w' rest,
              h = (w, w') :: rest -> isLoading w = false ->
              AuthProvider.routeGuard w = navigate (RouterPush path) w ->
              Render.requested path w h) as Htrace.
    { intros path h Hh.
      induction Hh as [v|v p p' h Hh IH]; intros w w' rest Heq Hload Hg;
        injection Heq as <- <- <-.
      - exists [], v, []. rewrite (Hruns None v) by (done || exact Hload).
        rewrite Hg. repeat split; constructor.
      - destruct (decide (AuthProvider.guard_deps p = AuthProvider.guard_deps v))
          as [Hsame|Hdiff].
        + injection Hsame as Ha Hl Hp.
          assert (Render.session p = Render.session v) as Hs
            by (unfold Render.session; rewrite Ha, Hl; reflexivity).
          assert (AuthProvider.routeGuard p = navigate (RouterPush path) p) as Hgp.
          { unfold AuthProvider.routeGuard in Hg |- *.
            rewrite Hl, Ha, Hp. rewrite Hload in Hg |- *. cbn [negb] in Hg |- *.
            destruct (negb (isAuthenticated v)
                      && negb (bool_decide (pathname v ∈ AuthProvider.PUBLIC_ROUTES)))%bool.
            { apply (f_equal navigations) in Hg. cbn in Hg.
              injection Hg as <-. reflexivity. }
            destruct (isAuthenticated v
                      && bool_decide (pathname v ∈ AuthProvider.PUBLIC_ROUTES))%bool.
            { apply (f_equal navigations) in Hg. cbn in Hg.
              injection Hg as <-. reflexivity. }
            apply (f_equal navigations) in Hg. cbn in Hg.
            apply (f_equal length) in Hg. cbn in Hg. lia. }
          destruct (IH p p' h eq_refl (eq_trans Hl Hload) Hgp)
            as (since & u & before & Hsplit & Hus & Hup & Hall).
          exists ((v, Render.effects (Some p) v) :: since), u, before.
          split; [rewrite Hsplit; reflexivity|].
          split; [congruence|]. split; [congruence|].
          constructor; [split; reflexivity|].
          eapply Forall_impl; [exact Hall|].
          intros r [Hrs Hrp]. split; congruence.
        + exists [], v, ((p, p') :: h).
          unfold Render.effects, AuthProvider.useEffect_routeGuard.
          cbn [fmap option_fmap option_map].
          rewrite bool_decide_eq_false_2 by congruence.
          rewrite Hg. repeat split; constructor. }
    intros h w w' Hh Hload. split; intros Ha Hp.
    + apply (Htrace "/login"%string _ Hh w w' h eq_refl Hload).
      apply (Hguard w Hload); assumption.
    + apply (Htrace "/"%string _ Hh w w' h eq_refl Hload).
      apply (Hguard w Hload); assumption.
Qed.

(** The scenario of the specification: an authenticated session arrives on
    the login route, and is sent to the landing route.  At the next render
    another user has logged in over the session and the login route is
    still shown: the guard does not run again, the landing route has been
    asked for. *)
Lemma routeGuard_spec_witness :
  let p := Scenario.logged_in Scenario.token_exp_2000 in
  let w := run (Navigated "/login") p in
  let w' := Render.effects (Some p) w in
  let u := AuthProvider.login Scenario.token_exp_2000 "u2" None w' in
  (pathname p ≠ pathname w /\ isLoading w = false /\ isAuthenticated w = true
   /\ pathname w ∈ AuthProvider.PUBLIC_ROUTES
   /\ w' = navigate (RouterPush "/") w)
  /\ (Render.renders [(u, Render.effects (Some w) u); (w, w'); (p, Render.effects None p)]
      /\ Render.effects (Some w) u = u
      /\ Render.requested "/" u
           [(u, Render.effects (Some w) u); (w, w'); (p, Render.effects None p)]).
Proof.
  intros p w w' u.
  assert (pathname p ≠ pathname w) as Hnav by (vm_compute; discriminate).
  assert (pathname w ∈ AuthProvider.PUBLIC_ROUTES) as Hp by (vm_compute; left).
  assert (pathname u ∈ AuthProvider.PUBLIC_ROUTES) as Hup by (vm_compute; left).
  assert (Render.renders
            [(u, Render.effects (Some w) u); (w, w'); (p, Render.effects None p)])
    as Hr by (do 2 apply Render.renders_next; apply Render.renders_first).
  destruct routeGuard_spec as (_ & Hstep & Htrace).
  split.
  - split; [exact Hnav|]. split; [reflexivity|]. split; [reflexivity|].
    split; [exact Hp|].
    apply (Hstep (Some p) w);
      [intros q Hq; injection Hq as <-; right; exact Hnav
      | reflexivity | reflexivity | exact Hp].
  - split; [exact Hr|]. split; [vm_compute; reflexivity|].
    apply (Htrace _ u _ Hr); [reflexivity | reflexivity | exact Hup].
Defined.

(** ** The stored fields as a group *)

(** C7 (as the code has it).  In every world a browser profile goes
    through, starting from an empty [localStorage] and running the
    operations of the session manager and of the HTTP helper in any order,
    also interleaved at their [await]s, a stored user id comes with a
    stored token.  [logout] and the failed start-up check remove the three
    fields together.  The helper's [clearAuthData], which
    [authenticatedFetch] runs on a 401, removes the access token and the
    user id and leaves the refresh token as it was. *)
Theorem credentials_invariant :
  (forall h, history h -> forall w, w ∈ h ->
     is_Some (getItem "user_id" w) -> is_Some (getItem "token" w))
  /\ (forall w,
        logged_out (AuthProvider.logout w)
        /\ logged_out (AuthProvider.clear_auth_state w))
  /\ (forall e w, window_defined e = true ->
        getItem "token" (AuthUtils.clearAuthData e w) = None
        /\ getItem "user_id" (AuthUtils.clearAuthData e w) = None
        /\ getItem "refreshToken" (AuthUtils.clearAuthData e w)
           = getItem "refreshToken" w).
Proof.
  split; [|split].
  - intros h Hh w Hw. exact (history_invariant h Hh w Hw).
  - intros w. unfold logged_out, AuthProvider.logout, AuthProvider.clear_auth_state.
    repeat split; storage.
  - intros e w He. unfold AuthUtils.clearAuthData. rewrite He.
    repeat split; storage.
Qed.

(** A profile starts, logs in with a refresh token, and the helper clears
    the credentials. *)
Lemma credentials_invariant_witness :
  let e := Scenario.browser 1000000 (Rejected "offline") in
  let w1 := run (CheckAuthStatus e) (fresh "/") in
  let w2 := run (Login Scenario.token_exp_2000 "u1" (Some "R1"%string)) w1 in
  history [w2; w1; fresh "/"]
  /\ is_Some (getItem "user_id" w2)
  /\ is_Some (getItem "token" w2)
  /\ window_defined e = true
  /\ getItem "refreshToken" (AuthUtils.clearAuthData e w2) = getItem "refreshToken" w2.
Proof.
  intros e w1 w2.
  assert (history [w2; w1; fresh "/"]) as Hh
    by (apply history_step, history_step, history_fresh).
  assert (is_Some (getItem "user_id" w2)) as Hu by (vm_compute; eauto).
  destruct credentials_invariant as (H1 & _ & H3).
  split; [exact Hh|]. split; [exact Hu|].
  split; [apply (H1 _ Hh); [left | exact Hu]|].
  split; [reflexivity|].
  destruct (H3 e w2) as (_ & _ & Hr); [reflexivity | exact Hr].
Defined.

(** C7 as stated fails at the helper: logged in with a refresh token,
    [clearAuthData] removes the access token and the user id and leaves
    the refresh token behind, and so does [authenticatedFetch] on a 401. *)
Lemma clearAuthData_leaves_refreshToken_counterexample :
  let e := Scenario.browser 1000000 (Scenario.responds 401 None None) in
  let w := Scenario.logged_in Scenario.token_exp_2000 in
  let options := {| AuthUtils.init_method := None; AuthUtils.init_headers := ∅;
                    AuthUtils.init_body := None;
                    AuthUtils.init_credentials := None |} in
  (is_Some (getItem "token" w) /\ is_Some (getItem "user_id" w)
   /\ getItem "refreshToken" w = Some "R1"%string)
  /\ (getItem "token" (AuthUtils.clearAuthData e w) = None
      /\ getItem "user_id" (AuthUtils.clearAuthData e w) = None
      /\ getItem "refreshToken" (AuthUtils.clearAuthData e w) = Some "R1"%string)
  /\ (getItem "token" (AuthUtils.authenticatedFetch e "/api/posts" options w).2 = None
      /\ getItem "user_id" (AuthUtils.authenticatedFetch e "/api/posts" options w).2 = None
      /\ getItem "refreshToken" (AuthUtils.authenticatedFetch e "/api/posts" options w).2
         = Some "R1"%string).
Proof.
  intros e w options.
  split; [split; [vm_compute; eauto|split; [vm_compute; eauto|vm_compute; reflexivity]]|].
  split; repeat split; vm_compute; reflexivity.
Qed.

(** ** The HTTP helper *)

(** C10.  Without a stored access token (none, an empty one, or no
    [window]) [authenticatedFetch] throws and leaves the world as it is:
    no request is made.  When the response to its request has status 401
    it throws as well, after removing the stored access token and user id,
    leaving the stored refresh token, and sending the browser to
    [/login].  Whatever it returns is a response whose status is not
    401. *)
Theorem authenticatedFetch_spec (e : env) (url : string)
    (options : AuthUtils.RequestInit) (w : world) :
  (truthy (AuthUtils.getToken e w) = false ->
   AuthUtils.authenticatedFetch e url options w
   = (Throws "No authentication token found", w))
  /\ (forall t r,
        AuthUtils.getToken e w = Some t -> t ≠ EmptyString ->
        fetch e {| Browser.url := url;
                   method := AuthUtils.init_method options;
                   headers := AuthUtils.auth_headers t options;
                   body := AuthUtils.init_body options;
                   credentials := Some "include"%string |} = Resolved r ->
        status r = 401 ->
        let w' := (AuthUtils.authenticatedFetch e url options w).2 in
        (AuthUtils.authenticatedFetch e url options w).1
        = Throws "Authentication expired"
        /\ getItem "token" w' = None /\ getItem "user_id" w' = None
        /\ getItem "refreshToken" w' = getItem "refreshToken" w
        /\ navigations w' = LocationAssign "/login" :: navigations w)
  /\ (forall r w',
        AuthUtils.authenticatedFetch e url options w = (Returns r, w') ->
        status r ≠ 401).
Proof.
  split; [|split].
  - intros H. unfold AuthUtils.authenticatedFetch.
    destruct (AuthUtils.getToken e w); [rewrite H|]; reflexivity.
  - intros t r Ht Hne Hfetch Hstatus.
    unfold AuthUtils.authenticatedFetch.
    rewrite Ht, (truthy_Some _ Hne), Hfetch.
    unfold AuthUtils.authenticatedFetch_settled. rewrite Hstatus.
    cbn [fst snd Z.eqb Pos.eqb]. unfold AuthUtils.getToken in Ht.
    unfold AuthUtils.clearAuthData.
    destruct (window_defined e); [|discriminate].
    repeat split; storage.
  - intros r w' H.
    unfold AuthUtils.authenticatedFetch, AuthUtils.authenticatedFetch_settled in H.
    repeat (case_match; simplify_eq). lia.
Qed.

(** Logged in, the server answers 401 to a request for the posts. *)
Lemma authenticatedFetch_spec_witness :
  let e := Scenario.browser 1000000 (Scenario.responds 401 None None) in
  let w := Scenario.logged_in Scenario.token_exp_2000 in
  let options := {| AuthUtils.init_method := Some "GET"%string;
                    AuthUtils.init_headers := ∅;
                    AuthUtils.init_body := None;
                    AuthUtils.init_credentials := None |} in
  AuthUtils.getToken e w = Some Scenario.token_exp_2000
  /\ (AuthUtils.authenticatedFetch e "/api/posts" options w).1
     = Throws "Authentication expired"
  /\ getItem "token" (AuthUtils.authenticatedFetch e "/api/posts" options w).2 = None
  /\ getItem "refreshToken" (AuthUtils.authenticatedFetch e "/api/posts" options w).2
     = Some "R1"%string.
Proof.
  intros e w options.
  assert (AuthUtils.getToken e w = Some Scenario.token_exp_2000) as Ht
    by (vm_compute; reflexivity).
  split; [exact Ht|].
  destruct (authenticatedFetch_spec e "/api/posts" options w) as (_ & H & _).
  destruct (H Scenario.token_exp_2000
              {| status := 401;
                 json := Some {| data_token := None; data_refreshToken := None |} |}
              Ht)
    as (H1 & H2 & _ & H4 & _); [discriminate | reflexivity | reflexivity |].
  split; [exact H1|]. split; [exact H2|].
  rewrite H4. vm_compute. reflexivity.
Defined.

(* ===================================================================== *)
(** * Further properties                                                  *)
(* ===================================================================== *)

Import Notion.

(** ** What the expiry check looks at *)

Lemma units_app (a b : string) : units (a +:+ b) = units a ++ units b.
Proof.
  unfold units. induction a as [|c a IH]; [reflexivity|].
  change (String c a +:+ b) with (String c (a +:+ b)).
  cbn [list_ascii_of_string map app]. f_equal. exact IH.
Qed.

Lemma of_units_units (s : string) : of_units (units s) = s.
Proof.
  unfold of_units, units. induction s as [|c s IH]; [reflexivity|].
  cbn. rewrite ascii_N_embedding. f_equal. exact IH.
Qed.

Lemma split_units_no_sep (sep : N) (a cur : list N) :
  forallb (fun c => negb (N.eqb c sep)) a = true ->
  split_units sep cur a = [rev cur ++ a].
Proof.
  revert cur. induction a as [|c a IH]; intros cur H; cbn in *.
  - rewrite app_nil_r. reflexivity.
  - apply andb_true_iff in H as [Hc Ha]. apply negb_true_iff in Hc.
    rewrite Hc, (IH _ Ha). cbn. rewrite <- app_assoc. reflexivity.
Qed.

Lemma split_units_sep (sep : N) (a b cur : list N) :
  forallb (fun c => negb (N.eqb c sep)) a = true ->
  split_units sep cur (a ++ sep :: b)
  = (rev cur ++ a) :: split_units sep [] b.
Proof.
  revert cur. induction a as [|c a IH]; intros cur H; cbn in *.
  - rewrite N.eqb_refl, app_nil_r. reflexivity.
  - apply andb_true_iff in H as [Hc Ha]. apply negb_true_iff in Hc.
    rewrite Hc, (IH _ Ha). cbn. rewrite <- app_assoc. reflexivity.
Qed.

Lemma units_dot : units "." = [46%N].
Proof. reflexivity. Qed.

Lemma payload_exp_segments (h p s : string) :
  no_dot h = true -> no_dot p = true ->
  AuthProvider.payload_exp (h +:+ "." +:+ p +:+ "." +:+ s) = decode_segment p.
Proof.
  intros Hh Hp. unfold AuthProvider.payload_exp, decode_segment, split.
  change (N_of_ascii ".") with 46%N.
  rewrite !units_app, units_dot. cbn [app].
  rewrite (split_units_sep 46 (units h) _ [] Hh).
  rewrite (split_units_sep 46 (units p) _ [] Hp).
  cbn. fold (of_units (units p)). rewrite of_units_units. reflexivity.
Qed.

Lemma payload_exp_no_dot (t : string) :
  no_dot t = true -> AuthProvider.payload_exp t = None.
Proof.
  intros Ht. unfold AuthProvider.payload_exp, split.
  change (N_of_ascii ".") with 46%N.
  rewrite (split_units_no_sep 46 (units t) [] Ht). reflexivity.
Qed.

Lemma truthy_app_dot (h r : string) : truthy (Some (h +:+ "." +:+ r)) = true.
Proof. destruct h; reflexivity. Qed.

Lemma isTokenExpired_given (e : env) (w : world) (t : string) :
  t ≠ EmptyString ->
  AuthProvider.isTokenExpired e (Some t) w
  = match AuthProvider.payload_exp t
          ≫= (fun x => js_lt x (AuthProvider.currentTime e + 300)) with
    | Some expired => expired
    | None => true
    end.
Proof.
  intros Hne. unfold AuthProvider.isTokenExpired, js_or.
  rewrite (truthy_Some _ Hne), (truthy_Some _ Hne). reflexivity.
Qed.

Lemma app_dot_nonempty (h r : string) : h +:+ "." +:+ r ≠ EmptyString.
Proof. intros H. destruct h; cbv [String.append] in H; discriminate H. Qed.

Lemma number_lt_mono (x : number) (n n' : Z) :
  n <= n' -> number_lt x n = true -> number_lt x n' = true.
Proof.
  intros Hn. destruct x as [|neg|m p]; cbn; try done.
  destruct (Z.leb 0 p) eqn:Hp.
  - rewrite !Z.ltb_lt. intros H.
    assert (0 < 2 ^ p) by (apply Z.pow_pos_nonneg; lia). nia.
  - rewrite !Z.ltb_lt. lia.
Qed.

Lemma sextets_outside (l : list N) :
  existsb (fun c => negb (bool_decide (is_Some (base64_index c)))) l = true ->
  sextets l = None.
Proof.
  induction l as [|c l IH]; [discriminate|]. cbn. intros H.
  destruct (base64_index c) as [i|] eqn:Hc; [|reflexivity].
  rewrite bool_decide_eq_true_2 in H by eauto. cbn in H.
  rewrite (IH H). reflexivity.
Qed.

Lemma existsb_rev {A} (f : A -> bool) (l : list A) :
  existsb f (rev l) = existsb f l.
Proof.
  induction l as [|x l IH]; [reflexivity|]. cbn.
  rewrite existsb_app, IH. cbn. rewrite orb_false_r. apply orb_comm.
Qed.

Lemma strip_padding_outside (l : list N) :
  existsb outside_base64 l = true ->
  existsb outside_base64 (strip_padding l) = true.
Proof.
  intros H. unfold strip_padding.
  destruct (Nat.eqb (length l mod 4) 0); [|exact H].
  rewrite <- existsb_rev in H.
  destruct (rev l) as [|a r] eqn:Hr; [rewrite <- existsb_rev, Hr; exact H|].
  assert (forall x, existsb outside_base64 (61%N :: x) = existsb outside_base64 x) as H61
    by (intros x; reflexivity).
  repeat (case_match; simplify_eq);
    try (rewrite <- existsb_rev, Hr; exact H);
    rewrite existsb_rev; rewrite ?H61 in H; exact H.
Qed.

Lemma atob_outside (p : string) :
  existsb outside_base64 (units p) = true -> atob p = None.
Proof.
  intros H. unfold atob.
  set (data := strip_padding _).
  assert (existsb outside_base64 data = true) as Hd.
  { apply strip_padding_outside.
    apply existsb_exists in H as (c & Hin & Hc).
    apply existsb_exists. exists c. split; [|exact Hc].
    apply list_elem_of_In, list_elem_of_filter. split.
    - unfold outside_base64 in Hc.
      apply andb_true_iff in Hc as [Hc _]. apply andb_true_iff in Hc as [_ Hc].
      apply Is_true_true. exact Hc.
    - apply list_elem_of_In. exact Hin. }
  destruct (Nat.eqb (length data mod 4) 1); [reflexivity|].
  rewrite sextets_outside; [reflexivity|].
  apply existsb_exists in Hd as (c & Hin & Hc).
  apply existsb_exists. exists c. split; [exact Hin|].
  unfold outside_base64 in Hc.
  apply andb_true_iff in Hc as [Hc _]. apply andb_true_iff in Hc as [Hc _]. exact Hc.
Qed.


(** X1.  The verdict is monotone in time: a token (given, or the stored
    one) that counts as expired at some moment counts as expired at every
    later moment, whatever its payload. *)
Theorem isTokenExpired_monotone (e e' : env) (w : world) (token : option string) :
  Date_now e <= Date_now e' ->
  AuthProvider.isTokenExpired e token w = true ->
  AuthProvider.isTokenExpired e' token w = true.
Proof.
  intros Hnow. unfold AuthProvider.isTokenExpired.
  destruct (js_or token (getItem "token" w)) as [t|]; [|done].
  destruct (truthy (Some t)); [|done].
  destruct (AuthProvider.payload_exp t) as [x|]; [|done]. cbn.
  unfold js_lt. destruct (to_number x) as [n|]; [|done]. cbn.
  apply number_lt_mono. unfold AuthProvider.currentTime.
  apply Z.add_le_mono_r, Z.div_le_mono; lia.
Qed.

Lemma isTokenExpired_monotone_witness :
  let early := Scenario.browser 1001000 (Rejected "offline") in
  let late := Scenario.browser 2000000 (Rejected "offline") in
  Date_now early <= Date_now late
  /\ AuthProvider.isTokenExpired early (Some Scenario.token_exp_1300) (fresh "/") = true
  /\ AuthProvider.isTokenExpired late (Some Scenario.token_exp_1300) (fresh "/") = true.
Proof.
  intros early late.
  assert (Date_now early <= Date_now late) as Hle by (vm_compute; discriminate).
  assert (AuthProvider.isTokenExpired early (Some Scenario.token_exp_1300) (fresh "/")
          = true) as Hexp by (vm_compute; reflexivity).
  split; [exact Hle|]. split; [exact Hexp|].
  exact (isTokenExpired_monotone early late (fresh "/")
           (Some Scenario.token_exp_1300) Hle Hexp).
Defined.

(** X2.  Only the payload segment counts: two tokens with the same second
    segment get the same verdict, whatever their header and signature
    segments and whatever is stored.  The signature is never looked
    at. *)
Theorem isTokenExpired_payload_only (e : env) (w w' : world)
    (h h' p s s' : string) :
  no_dot h = true -> no_dot h' = true -> no_dot p = true ->
  AuthProvider.isTokenExpired e (Some (h +:+ "." +:+ p +:+ "." +:+ s)) w
  = AuthProvider.isTokenExpired e (Some (h' +:+ "." +:+ p +:+ "." +:+ s')) w'.
Proof.
  intros Hh Hh' Hp.
  rewrite !isTokenExpired_given by apply app_dot_nonempty.
  rewrite (payload_exp_segments h p s Hh Hp), (payload_exp_segments h' p s' Hh' Hp).
  reflexivity.
Qed.

Lemma isTokenExpired_payload_only_witness :
  let e := Scenario.browser 1000000 (Rejected "offline") in
  no_dot "eyJhbGciOiJIUzI1NiJ9" = true /\ no_dot "eyJhbGciOiJub25lIn0" = true
  /\ no_dot "eyJleHAiOjIwMDB9" = true
  /\ AuthProvider.isTokenExpired e (Some Scenario.token_exp_2000) (fresh "/")
     = AuthProvider.isTokenExpired e
         (Some "eyJhbGciOiJub25lIn0.eyJleHAiOjIwMDB9.forged"%string)
         (Scenario.logged_in Scenario.token_exp_990).
Proof.
  intros e. split; [reflexivity|]. split; [reflexivity|]. split; [reflexivity|].
  exact (isTokenExpired_payload_only e (fresh "/")
           (Scenario.logged_in Scenario.token_exp_990)
           "eyJhbGciOiJIUzI1NiJ9" "eyJhbGciOiJub25lIn0" "eyJleHAiOjIwMDB9"
           "c2ln" "forged" eq_refl eq_refl eq_refl).
Defined.

(** X3.  A non-empty token without a full stop has no payload segment and
    always counts as expired. *)
Theorem isTokenExpired_no_dot (e : env) (w : world) (t : string) :
  t ≠ EmptyString -> no_dot t = true ->
  AuthProvider.isTokenExpired e (Some t) w = true.
Proof.
  intros Hne Ht. rewrite (isTokenExpired_given e w t Hne), (payload_exp_no_dot t Ht).
  reflexivity.
Qed.

Lemma isTokenExpired_no_dot_witness :
  no_dot "opaque-session-id" = true
  /\ AuthProvider.isTokenExpired (Scenario.browser 0 (Rejected "offline"))
       (Some "opaque-session-id"%string) (fresh "/") = true.
Proof.
  split; [reflexivity|].
  apply isTokenExpired_no_dot; [discriminate | reflexivity].
Defined.

(** X4.  A token whose payload segment holds a character that [atob]
    neither decodes nor skips always counts as expired.  The two
    characters the URL-safe alphabet of JSON Web Tokens adds, the hyphen
    and the underscore, are such characters. *)
Theorem isTokenExpired_outside_alphabet (e : env) (w : world) (h p s : string) :
  no_dot h = true -> no_dot p = true ->
  existsb outside_base64 (units p) = true ->
  (outside_base64 45 = true /\ outside_base64 95 = true)
  /\ AuthProvider.isTokenExpired e (Some (h +:+ "." +:+ p +:+ "." +:+ s)) w = true.
Proof.
  intros Hh Hp Hout. split; [split; reflexivity|].
  rewrite isTokenExpired_given by apply app_dot_nonempty.
  rewrite (payload_exp_segments h p s Hh Hp). unfold decode_segment.
  rewrite (atob_outside p Hout). reflexivity.
Qed.

(** The payload with [exp] 2000 and a subject whose encoding needs the
    63rd character, written the URL-safe way. *)
Lemma isTokenExpired_outside_alphabet_witness :
  no_dot "eyJhbGciOiJIUzI1NiJ9" = true
  /\ no_dot "eyJleHAiOjIwMDAsInN1YiI6ImE_YiJ9" = true
  /\ existsb outside_base64 (units "eyJleHAiOjIwMDAsInN1YiI6ImE_YiJ9") = true
  /\ AuthProvider.isTokenExpired (Scenario.browser 0 (Rejected "offline"))
       (Some "eyJhbGciOiJIUzI1NiJ9.eyJleHAiOjIwMDAsInN1YiI6ImE_YiJ9.c2ln"%string)
       (fresh "/") = true.
Proof.
  split; [reflexivity|]. split; [reflexivity|]. split; [reflexivity|].
  exact (proj2 (isTokenExpired_outside_alphabet
                  (Scenario.browser 0 (Rejected "offline")) (fresh "/")
                  "eyJhbGciOiJIUzI1NiJ9" "eyJleHAiOjIwMDAsInN1YiI6ImE_YiJ9" "c2ln"
                  eq_refl eq_refl eq_refl)).
Defined.

Lemma login_then_getValidToken_witness :
  let e := Scenario.browser 1000000 (Rejected "offline") in
  let w := AuthProvider.login Scenario.token_exp_2000 "u1" None (fresh "/") in
  AuthProvider.isTokenExpired e (Some Scenario.token_exp_2000) w = false
  /\ AuthProvider.getValidToken e w = (Some Scenario.token_exp_2000, w).
Proof.
  intros e w.
  assert (AuthProvider.isTokenExpired e (Some Scenario.token_exp_2000) w = false)
    as Hexp by (vm_compute; reflexivity).
  split; [exact Hexp|].
  exact (login_then_getValidToken e (fresh "/") Scenario.token_exp_2000 "u1" None Hexp).
Defined.

(** ** The start-up check *)

Lemma refreshToken_truthy (e : env) (w : world) :
  truthy (AuthProvider.refreshToken e w).1 = true ->
  exists t, (AuthProvider.refreshToken e w).1 = Some t /\ t ≠ EmptyString
    /\ getItem "token" (AuthProvider.refreshToken e w).2 = Some t
    /\ getItem "user_id" (AuthProvider.refreshToken e w).2 = getItem "user_id" w
    /\ isAuthenticated (AuthProvider.refreshToken e w).2 = isAuthenticated w
    /\ user (AuthProvider.refreshToken e w).2 = user w
    /\ navigations (AuthProvider.refreshToken e w).2 = navigations w.
Proof.
  unfold AuthProvider.refreshToken.
  destruct (getItem "refreshToken" w) as [rt|]; [|discriminate].
  destruct (truthy (Some rt)); [|discriminate].
  unfold AuthProvider.refreshToken_settled.
  destruct (fetch e _) as [reason|r]; [discriminate|].
  destruct (ok r); [|discriminate].
  destruct (json r) as [data|]; [|discriminate].
  cbn [fst snd]. intros Ht.
  destruct (data_token data) as [t|] eqn:Hdt; [|discriminate].
  exists t. split; [reflexivity|]. split.
  { intros ->. discriminate Ht. }
  cbn [ToString default].
  destruct (data_refreshToken data) as [r'|];
    [destruct (truthy (Some r'))|]; repeat split; storage.
Qed.

Lemma refreshToken_without_refreshToken (e : env) (w : world) :
  truthy (getItem "refreshToken" w) = false ->
  AuthProvider.refreshToken e w = (None, w).
Proof.
  intros H. unfold AuthProvider.refreshToken.
  destruct (getItem "refreshToken" w); [rewrite H|]; reflexivity.
Qed.

Lemma isTokenExpired_of_stored (e : env) (w : world) (t : string) :
  getItem "token" w = Some t ->
  AuthProvider.isTokenExpired e (Some t) w = AuthProvider.isTokenExpired e None w.
Proof.
  intros H. unfold AuthProvider.isTokenExpired, js_or. rewrite H.
  change (truthy None) with false. cbn iota.
  destruct (truthy (Some t)) eqn:E; rewrite ?E; reflexivity.
Qed.

Lemma isTokenExpired_empty (e : env) (w : world) :
  getItem "token" w = Some EmptyString ->
  AuthProvider.isTokenExpired e (Some EmptyString) w = true.
Proof.
  intros H. unfold AuthProvider.isTokenExpired, js_or. cbn [truthy String.eqb negb].
  rewrite H. reflexivity.
Qed.

Lemma login_stores (t u : string) (r : option string) (w : world) :
  getItem "token" (AuthProvider.login t u r w) = Some t
  /\ getItem "user_id" (AuthProvider.login t u r w) = Some u
  /\ isAuthenticated (AuthProvider.login t u r w) = true
  /\ user (AuthProvider.login t u r w) = Some u
  /\ fetched (AuthProvider.login t u r w) = fetched w
  /\ navigations (AuthProvider.login t u r w) = navigations w.
Proof.
  unfold AuthProvider.login.
  destruct r as [r'|]; [destruct (truthy (Some r'))|]; repeat split; storage.
Qed.

Lemma getValidToken_Some (e : env) (w w' : world) (t : string) :
  AuthProvider.getValidToken e w = (Some t, w') ->
  t ≠ EmptyString /\ getItem "token" w' = Some t.
Proof.
  unfold AuthProvider.getValidToken.
  destruct (getItem "token" w) as [t0|] eqn:Hgt; [|discriminate].
  destruct (truthy (Some t0)) eqn:Ht0; [|discriminate]. cbn [negb].
  destruct (AuthProvider.isTokenExpired e (Some t0) w).
  - destruct (AuthProvider.refreshToken e w) as [newToken w1] eqn:Hr.
    destruct (truthy newToken) eqn:Hn; [|discriminate].
    intros H. injection H as -> ->.
    unfold AuthProvider.refreshToken in Hr.
    destruct (getItem "refreshToken" w) as [rt|]; [|discriminate].
    destruct (truthy (Some rt)); [|discriminate].
    unfold AuthProvider.refreshToken_settled in Hr.
    destruct (fetch e _) as [reason|r]; [discriminate|].
    destruct (ok r); [|discriminate].
    destruct (json r) as [data|]; [|discriminate].
    injection Hr as Hd <-. rewrite Hd. cbn [ToString default].
    split; [intros ->; discriminate Hn|].
    destruct (data_refreshToken data) as [r'|]; [destruct (truthy (Some r'))|]; storage.
  - intros H. injection H as -> <-. split; [intros ->; discriminate Ht0|exact Hgt].
Qed.



Lemma logout_logged_out (w : world) : logged_out (AuthProvider.logout w).
Proof. unfold logged_out, AuthProvider.logout. repeat split; storage. Qed.

(** X6.  However [checkAuthStatus] ends, the loading flag is down; a
    session it declares authenticated has a non-empty token and a
    non-empty user id stored, and its user is the stored user id; a
    session it declares unauthenticated has no user. *)
Theorem checkAuthStatus_outcome (e : env) (w : world) :
  let w' := AuthProvider.checkAuthStatus e w in
  isLoading w' = false
  /\ (isAuthenticated w' = true ->
      exists t u, getItem "token" w' = Some t /\ t ≠ EmptyString
        /\ getItem "user_id" w' = Some u /\ u ≠ EmptyString
        /\ user w' = Some u)
  /\ (isAuthenticated w' = false -> user w' = None).
Proof.
  unfold AuthProvider.checkAuthStatus.
  destruct (truthy (getItem "token" w) && truthy (getItem "user_id" w))%bool eqn:Hboth.
  2:{ cbn. split; [reflexivity|]. split; [discriminate|reflexivity]. }
  apply andb_true_iff in Hboth as [Ht Hu].
  destruct (getItem "token" w) as [t|] eqn:Hgt; [|discriminate].
  destruct (getItem "user_id" w) as [u|] eqn:Hgu; [|discriminate].
  assert (t ≠ EmptyString) as Htne by (intros ->; discriminate Ht).
  assert (u ≠ EmptyString) as Hune by (intros ->; discriminate Hu).
  destruct (AuthProvider.isTokenExpired e (Some t) w).
  2:{ cbn. split; [reflexivity|]. split; [|discriminate]. intros _. exists t, u.
      repeat split; try assumption; storage. }
  pose proof (refreshToken_truthy e w) as Hr.
  destruct (AuthProvider.refreshToken e w) as [newToken w1]. cbn [fst snd] in Hr.
  unfold AuthProvider.checkAuthStatus_settled, AuthProvider.clear_auth_state.
  destruct (truthy newToken).
  - destruct (Hr eq_refl) as (t' & _ & Hne & Hst & Hsu & _).
    split; [reflexivity|]. split; [|discriminate]. intros _. exists t', u.
    split; [exact Hst|]. split; [exact Hne|].
    split; [rewrite <- Hgu; exact Hsu|]. split; [exact Hune|reflexivity].
  - cbn. split; [reflexivity|]. split; [discriminate|reflexivity].
Qed.


(** Start-up with an expired token, answered 200 with the token [T2]. *)
Lemma checkAuthStatus_outcome_witness :
  let w' := AuthProvider.checkAuthStatus
              (Scenario.browser 1000000 (Scenario.responds 200 (Some "T2"%string) None))
              (Provider.first_render "/" (Scenario.logged_in Scenario.token_exp_990)) in
  isAuthenticated w' = true
  /\ exists t u, getItem "token" w' = Some t /\ t ≠ EmptyString
       /\ getItem "user_id" w' = Some u /\ u ≠ EmptyString /\ user w' = Some u.
Proof.
  intros w'. assert (isAuthenticated w' = true) as Ha by (vm_compute; reflexivity).
  split; [exact Ha|].
  exact (proj1 (proj2 (checkAuthStatus_outcome
                         (Scenario.browser 1000000
                            (Scenario.responds 200 (Some "T2"%string) None))
                         (Provider.first_render "/"
                            (Scenario.logged_in Scenario.token_exp_990)))) Ha).
Defined.

(** X7.  At start-up with a non-empty token and user id stored and the
    token expired, a refresh that gives no token leaves nothing stored
    and the session unauthenticated.  That holds in particular when the
    refresh request fails on the network: [refreshToken] itself leaves
    [localStorage] as it was then, and [checkAuthStatus] removes the
    three fields all the same, without any navigation of its own. *)
Theorem checkAuthStatus_refresh_failed (e : env) (w : world) (t u : string) :
  getItem "token" w = Some t -> t ≠ EmptyString ->
  getItem "user_id" w = Some u -> u ≠ EmptyString ->
  AuthProvider.isTokenExpired e (Some t) w = true ->
  (truthy (AuthProvider.refreshToken e w).1 = false ->
   logged_out (AuthProvider.checkAuthStatus e w)
   /\ isLoading (AuthProvider.checkAuthStatus e w) = false)
  /\ (forall rt reason, getItem "refreshToken" w = Some rt -> rt ≠ EmptyString ->
        fetch e (AuthProvider.refresh_request e rt) = Rejected reason ->
        localStorage (AuthProvider.refreshToken e w).2 = localStorage w
        /\ logged_out (AuthProvider.checkAuthStatus e w)
        /\ navigations (AuthProvider.checkAuthStatus e w) = navigations w).
Proof.
  intros Hgt Htne Hgu Hune Hexp.
  assert (forall newToken w1, AuthProvider.refreshToken e w = (newToken, w1) ->
            truthy newToken = false ->
            AuthProvider.checkAuthStatus e w
            = setIsLoading false (AuthProvider.clear_auth_state w1)) as Hunfold.
  { intros newToken w1 Hr Hf. unfold AuthProvider.checkAuthStatus.
    rewrite Hgt, Hgu, (truthy_Some _ Htne), (truthy_Some _ Hune), Hexp, Hr.
    cbn [andb]. unfold AuthProvider.checkAuthStatus_settled. rewrite Hf. reflexivity. }
  split.
  - intros Hf. destruct (AuthProvider.refreshToken e w) as [newToken w1] eqn:Hr.
    rewrite (Hunfold newToken w1 eq_refl Hf).
    unfold logged_out, AuthProvider.clear_auth_state. repeat split; storage.
  - intros rt reason Hrt Hne Hfetch.
    pose proof (refreshToken_sends e w rt Hrt Hne) as Hs. rewrite Hfetch in Hs.
    cbn [AuthProvider.refreshToken_settled] in Hs.
    rewrite (Hunfold _ _ Hs eq_refl), Hs. cbn [snd].
    unfold logged_out, AuthProvider.clear_auth_state. repeat split; storage.
Qed.

(** Start-up off line with an expired token. *)
Lemma checkAuthStatus_refresh_failed_witness :
  let e := Scenario.browser 1000000 (Rejected "Failed to fetch") in
  let w := Provider.first_render "/" (Scenario.logged_in Scenario.token_exp_990) in
  getItem "refreshToken" w = Some "R1"%string
  /\ localStorage (AuthProvider.refreshToken e w).2 = localStorage w
  /\ logged_out (AuthProvider.checkAuthStatus e w)
  /\ navigations (AuthProvider.checkAuthStatus e w) = navigations w.
Proof.
  intros e w.
  assert (getItem "refreshToken" w = Some "R1"%string) as Hrt by (vm_compute; reflexivity).
  split; [exact Hrt|].
  destruct (checkAuthStatus_refresh_failed e w Scenario.token_exp_990 "u1")
    as (_ & H);
    [vm_compute; reflexivity | discriminate | vm_compute; reflexivity | discriminate
    | vm_compute; reflexivity |].
  exact (H "R1"%string "Failed to fetch"%string Hrt ltac:(discriminate) eq_refl).
Defined.

Lemma refreshToken_fetched (e : env) (w : world) :
  sent_at_most_refresh e w (AuthProvider.refreshToken e w).2.
Proof.
  unfold sent_at_most_refresh, AuthProvider.refreshToken.
  destruct (getItem "refreshToken" w) as [rt|] eqn:Hrt; [|left; reflexivity].
  destruct (truthy (Some rt)) eqn:Ht; [|left; reflexivity].
  right. exists rt. split; [reflexivity|]. split; [intros ->; discriminate Ht|].
  unfold AuthProvider.refreshToken_settled, AuthProvider.logout.
  repeat (case_match; simplify_eq; cbn [fst snd]); storage.
Qed.


(** X8.  [refreshToken], [getValidToken] and [checkAuthStatus] each send
    at most one request, the refresh request carrying the stored refresh
    token, and the latter two send it only when a non-empty access token
    is stored and counts as expired. *)
Theorem at_most_one_request (e : env) (w : world) :
  sent_at_most_refresh e w (AuthProvider.refreshToken e w).2
  /\ sent_at_most_refresh e w (AuthProvider.getValidToken e w).2
  /\ sent_at_most_refresh e w (AuthProvider.checkAuthStatus e w)
  /\ (fetched (AuthProvider.getValidToken e w).2 = fetched w
      \/ (truthy (getItem "token" w) = true
          /\ AuthProvider.isTokenExpired e None w = true))
  /\ (fetched (AuthProvider.checkAuthStatus e w) = fetched w
      \/ (truthy (getItem "token" w) = true
          /\ AuthProvider.isTokenExpired e None w = true)).
Proof.
  pose proof (refreshToken_fetched e w) as Hr.
  assert (sent_at_most_refresh e w (AuthProvider.getValidToken e w).2
          /\ (fetched (AuthProvider.getValidToken e w).2 = fetched w
              \/ (truthy (getItem "token" w) = true
                  /\ AuthProvider.isTokenExpired e None w = true))) as Hg.
  { unfold AuthProvider.getValidToken.
    destruct (getItem "token" w) as [t|] eqn:Hgt; [|split; left; reflexivity].
    destruct (truthy (Some t)) eqn:Ht; [|split; left; reflexivity]. cbn [negb].
    destruct (AuthProvider.isTokenExpired e (Some t) w) eqn:Hexp;
      [|split; left; reflexivity].
    rewrite (isTokenExpired_of_stored e w t Hgt) in Hexp.
    destruct (AuthProvider.refreshToken e w) as [newToken w1].
    destruct (truthy newToken); (split; [exact Hr|right; split; [reflexivity|exact Hexp]]). }
  assert (sent_at_most_refresh e w (AuthProvider.checkAuthStatus e w)
          /\ (fetched (AuthProvider.checkAuthStatus e w) = fetched w
              \/ (truthy (getItem "token" w) = true
                  /\ AuthProvider.isTokenExpired e None w = true))) as Hc.
  { unfold AuthProvider.checkAuthStatus.
    destruct (getItem "token" w) as [t|] eqn:Hgt; [|split; left; reflexivity].
    destruct (truthy (Some t)) eqn:Ht; [|split; left; reflexivity].
    destruct (truthy (getItem "user_id" w)); [|split; left; reflexivity]. cbn [andb].
    destruct (AuthProvider.isTokenExpired e (Some t) w) eqn:Hexp;
      [|split; left; reflexivity].
    rewrite (isTokenExpired_of_stored e w t Hgt) in Hexp.
    destruct (AuthProvider.refreshToken e w) as [newToken w1]. cbn [snd] in Hr.
    unfold AuthProvider.checkAuthStatus_settled, AuthProvider.clear_auth_state.
    destruct (truthy newToken); (split; [exact Hr|right; split; [reflexivity|exact Hexp]]). }
  destruct Hg as (Hg1 & Hg2). destruct Hc as (Hc1 & Hc2).
  repeat split; assumption.
Qed.

(** ** Reloading the page *)

(** X9.  A session survives a reload: after [login(t, u, r)] with a
    non-empty user id and a token that is not expired, the provider
    mounting afresh on any path ends authenticated as [u], with
    [localStorage] untouched and without sending anything. *)
Theorem session_survives_reload (e : env) (w : world) (t u : string)
    (r : option string) (path : string) :
  u ≠ EmptyString ->
  AuthProvider.isTokenExpired e (Some t) (AuthProvider.login t u r w) = false ->
  let w0 := AuthProvider.login t u r w in
  let w' := Provider.mount e path w0 in
  isLoading w' = false /\ isAuthenticated w' = true /\ user w' = Some u
  /\ localStorage w' = localStorage w0
  /\ fetched w' = fetched w0 /\ navigations w' = navigations w0.
Proof.
  intros Hune Hexp w0 w'.
  destruct (login_stores t u r w) as (Ht & Hu & _).
  assert (t ≠ EmptyString) as Htne.
  { intros ->. rewrite (isTokenExpired_empty e _ Ht) in Hexp. discriminate Hexp. }
  assert (AuthProvider.isTokenExpired e (Some t) (Provider.first_render path w0) = false)
    as Hexp'.
  { rewrite isTokenExpired_given by exact Htne.
    rewrite isTokenExpired_given in Hexp by exact Htne. exact Hexp. }
  subst w'. unfold Provider.mount, AuthProvider.checkAuthStatus.
  change (getItem "token" (Provider.first_render path w0)) with (getItem "token" w0).
  change (getItem "user_id" (Provider.first_render path w0)) with (getItem "user_id" w0).
  subst w0. rewrite Ht, Hu, (truthy_Some _ Htne), (truthy_Some _ Hune), Hexp'.
  cbn. repeat split.
Qed.


Lemma session_survives_reload_witness :
  let e := Scenario.browser 1000000 (Rejected "offline") in
  let w0 := AuthProvider.login Scenario.token_exp_2000 "u1" None (fresh "/login") in
  let w' := Provider.mount e "/my-posts" w0 in
  AuthProvider.isTokenExpired e (Some Scenario.token_exp_2000) w0 = false
  /\ isLoading w' = false /\ isAuthenticated w' = true /\ user w' = Some "u1"%string
  /\ fetched w' = [].
Proof.
  intros e w0 w'.
  assert (AuthProvider.isTokenExpired e (Some Scenario.token_exp_2000) w0 = false)
    as Hexp by (vm_compute; reflexivity).
  split; [exact Hexp|].
  destruct (session_survives_reload e (fresh "/login") Scenario.token_exp_2000 "u1"
              None "/my-posts" ltac:(discriminate) Hexp)
    as (H1 & H2 & H3 & _ & H5 & _).
  repeat split; assumption.
Defined.

(** X10.  So does a logout: the provider mounting after [logout] ends
    unauthenticated with nothing stored and nothing sent, and the route
    guard then sends every path outside the public routes to [/login]. *)
Theorem logout_survives_reload (e : env) (w : world) (path : string) :
  let w' := Provider.mount e path (AuthProvider.logout w) in
  isLoading w' = false /\ isAuthenticated w' = false /\ user w' = None
  /\ logged_out w'
  /\ fetched w' = fetched w
  /\ AuthProvider.routeGuard w'
     = if bool_decide (path ∈ AuthProvider.PUBLIC_ROUTES) then w'
       else navigate (RouterPush "/login") w'.
Proof.
  cbn zeta.
  destruct (logout_logged_out w) as (Ht & Hr & Hu & _).
  assert (Provider.mount e path (AuthProvider.logout w)
          = setIsLoading false
              (setUser None
                 (setIsAuthenticated false
                    (Provider.first_render path (AuthProvider.logout w))))) as ->.
  { unfold Provider.mount, AuthProvider.checkAuthStatus.
    change (getItem "token" (Provider.first_render path (AuthProvider.logout w)))
      with (getItem "token" (AuthProvider.logout w)).
    rewrite Ht. reflexivity. }
  split; [reflexivity|]. split; [reflexivity|]. split; [reflexivity|].
  split; [repeat split; assumption|].
  split; [reflexivity|].
  unfold AuthProvider.routeGuard.
  cbn [isLoading isAuthenticated pathname setIsLoading setUser setIsAuthenticated
       Provider.first_render negb andb].
  destruct (bool_decide (path ∈ AuthProvider.PUBLIC_ROUTES)); reflexivity.
Qed.

(** ** The route guard, once more *)

(** X11.  The guard does nothing while loading.  Whatever the world, it
    leaves it as it is or adds one navigation, a push of [/login] or a
    push of [/], and nothing else: no other path, no assignment to the
    location, no change of the store or of the session.  It does not
    loop: once the path it asked for is shown, it asks for nothing
    more. *)
Theorem routeGuard_settles (w : world) :
  (isLoading w = true -> AuthProvider.routeGuard w = w)
  /\ (AuthProvider.routeGuard w = w
      \/ AuthProvider.routeGuard w = navigate (RouterPush "/login") w
      \/ AuthProvider.routeGuard w = navigate (RouterPush "/") w)
  /\ (forall n, navigations (AuthProvider.routeGuard w) = n :: navigations w ->
        exists p, (p = "/login"%string \/ p = "/"%string) /\ n = RouterPush p
        /\ AuthProvider.routeGuard w = navigate n w
        /\ AuthProvider.routeGuard (run (Navigated p) (AuthProvider.routeGuard w))
           = run (Navigated p) (AuthProvider.routeGuard w)).
Proof.
  split; [|split].
  - intros H. unfold AuthProvider.routeGuard. rewrite H. reflexivity.
  - unfold AuthProvider.routeGuard.
    destruct (isLoading w); cbn [negb]; [left; reflexivity|].
    destruct (negb (isAuthenticated w)
              && negb (bool_decide (pathname w ∈ AuthProvider.PUBLIC_ROUTES)))%bool;
      [right; left; reflexivity|].
    destruct (isAuthenticated w
              && bool_decide (pathname w ∈ AuthProvider.PUBLIC_ROUTES))%bool;
      [right; right; reflexivity | left; reflexivity].
  - intros n. unfold AuthProvider.routeGuard.
    destruct (isLoading w) eqn:Hl; cbn [negb].
    { intros H. exfalso. apply (f_equal length) in H. cbn in H. lia. }
    destruct (isAuthenticated w) eqn:Ha;
      destruct (bool_decide (pathname w ∈ AuthProvider.PUBLIC_ROUTES)) eqn:Hp;
      cbn [negb andb]; intros H;
      try (exfalso; apply (f_equal length) in H; cbn in H; lia);
      cbn in H; injection H as <-.
    + exists "/"%string. split; [right; reflexivity|]. split; [reflexivity|].
      split; [reflexivity|]. cbn. rewrite Hl, Ha. reflexivity.
    + exists "/login"%string. split; [left; reflexivity|]. split; [reflexivity|].
      split; [reflexivity|]. cbn. rewrite Hl, Ha. reflexivity.
Qed.

(** While the start-up check runs nobody is sent anywhere; afterwards an
    unauthenticated visitor of a protected page is sent to [/login], and
    left there. *)
Lemma routeGuard_settles_witness :
  let w0 := fresh "/my-posts" in
  let w := setIsLoading false w0 in
  (isLoading w0 = true /\ AuthProvider.routeGuard w0 = w0)
  /\ navigations (AuthProvider.routeGuard w) = RouterPush "/login" :: navigations w
  /\ AuthProvider.routeGuard (run (Navigated "/login") (AuthProvider.routeGuard w))
     = run (Navigated "/login") (AuthProvider.routeGuard w).
Proof.
  intros w0 w.
  assert (isLoading w0 = true) as Hl by reflexivity.
  assert (navigations (AuthProvider.routeGuard w)
          = RouterPush "/login" :: navigations w) as Hn
    by (vm_compute; reflexivity).
  split; [split; [exact Hl | exact (proj1 (routeGuard_settles w0) Hl)]|].
  split; [exact Hn|].
  destruct (proj2 (proj2 (routeGuard_settles w)) _ Hn) as (p & _ & Hp & _ & Hs).
  injection Hp as <-. exact Hs.
Defined.

(** ** Two more ways a refresh can end *)

(** X12.  A 2xx response whose body does not read as JSON ends the
    refresh like a network failure: the result is [null], and but for the
    logged request the world is as before, with no logout. *)
Theorem refreshToken_unreadable_body (e : env) (w : world) (rt : string)
    (r : response) :
  getItem "refreshToken" w = Some rt -> rt ≠ EmptyString ->
  fetch e (AuthProvider.refresh_request e rt) = Resolved r ->
  ok r = true -> json r = None ->
  AuthProvider.refreshToken e w = (None, sent (AuthProvider.refresh_request e rt) w).
Proof.
  intros Hrt Hne Hfetch Hok Hjson.
  rewrite (refreshToken_sends e w rt Hrt Hne), Hfetch.
  unfold AuthProvider.refreshToken_settled. rewrite Hok, Hjson. reflexivity.
Qed.


Lemma refreshToken_unreadable_body_witness :
  let e := Scenario.browser 1000000
             (Resolved {| status := 200; json := None |}) in
  let w := Scenario.logged_in Scenario.token_exp_990 in
  getItem "refreshToken" w = Some "R1"%string
  /\ AuthProvider.refreshToken e w
     = (None, sent (AuthProvider.refresh_request e "R1") w).
Proof.
  intros e w.
  assert (getItem "refreshToken" w = Some "R1"%string) as Hrt by (vm_compute; reflexivity).
  split; [exact Hrt|].
  exact (refreshToken_unreadable_body e w "R1" {| status := 200; json := None |}
           Hrt ltac:(discriminate) eq_refl eq_refl eq_refl).
Defined.

Lemma payload_exp_undefined : AuthProvider.payload_exp "undefined" = None.
Proof. vm_compute. reflexivity. Qed.


(** X13.  A 2xx response without a token makes [refreshToken] store the
    nine-letter word undefined as the access token and return [null];
    the session cells and the navigation log stay, and the stored token
    counts as expired from then on. *)
Theorem refreshToken_missing_token (e : env) (w : world) (rt : string)
    (r : response) (data : refresh_data) :
  getItem "refreshToken" w = Some rt -> rt ≠ EmptyString ->
  fetch e (AuthProvider.refresh_request e rt) = Resolved r ->
  ok r = true -> json r = Some data -> data_token data = None ->
  let w' := (AuthProvider.refreshToken e w).2 in
  (AuthProvider.refreshToken e w).1 = None
  /\ getItem "token" w' = Some "undefined"%string
  /\ (forall e', AuthProvider.isTokenExpired e' None w' = true)
  /\ isAuthenticated w' = isAuthenticated w
  /\ navigations w' = navigations w.
Proof.
  intros Hrt Hne Hfetch Hok Hjson Htok.
  rewrite (refreshToken_sends e w rt Hrt Hne), Hfetch.
  unfold AuthProvider.refreshToken_settled. rewrite Hok, Hjson, Htok.
  cbn [fst snd ToString default].
  assert (getItem "token"
            (match data_refreshToken data with
             | Some r' =>
                 if truthy (data_refreshToken data)
                 then setItem "refreshToken" r'
                        (setItem "token" "undefined" (sent (AuthProvider.refresh_request e rt) w))
                 else setItem "token" "undefined" (sent (AuthProvider.refresh_request e rt) w)
             | None => setItem "token" "undefined" (sent (AuthProvider.refresh_request e rt) w)
             end) = Some "undefined"%string) as Hst.
  { destruct (data_refreshToken data) as [r'|]; [destruct (truthy (Some r'))|]; storage. }
  split; [reflexivity|]. split; [exact Hst|]. split.
  - intros e'. unfold AuthProvider.isTokenExpired, js_or. cbn [truthy].
    rewrite Hst. cbn [truthy String.eqb negb]. rewrite payload_exp_undefined. reflexivity.
  - destruct (data_refreshToken data) as [r'|]; [destruct (truthy (Some r'))|];
      split; reflexivity.
Qed.


Lemma refreshToken_missing_token_witness :
  let e := Scenario.browser 1000000 (Scenario.responds 200 None None) in
  let w := Scenario.logged_in Scenario.token_exp_990 in
  getItem "refreshToken" w = Some "R1"%string
  /\ (AuthProvider.refreshToken e w).1 = None
  /\ getItem "token" (AuthProvider.refreshToken e w).2 = Some "undefined"%string.
Proof.
  intros e w.
  assert (getItem "refreshToken" w = Some "R1"%string) as Hrt by (vm_compute; reflexivity).
  split; [exact Hrt|].
  destruct (refreshToken_missing_token e w "R1"
              {| status := 200;
                 json := Some {| data_token := None; data_refreshToken := None |} |}
              {| data_token := None; data_refreshToken := None |}
              Hrt ltac:(discriminate) eq_refl eq_refl eq_refl eq_refl)
    as (H1 & H2 & _).
  split; assumption.
Defined.

(** X14.  A token [getValidToken] hands out is never empty, and it is the
    access token stored afterwards. *)
Theorem getValidToken_result_stored (e : env) (w w' : world) (t : string) :
  AuthProvider.getValidToken e w = (Some t, w') ->
  t ≠ EmptyString /\ getItem "token" w' = Some t.
Proof. apply getValidToken_Some. Qed.

Lemma getValidToken_result_stored_witness :
  let e := Scenario.browser 1000000 (Scenario.responds 200 (Some "T2"%string) None) in
  let w := Scenario.logged_in Scenario.token_exp_990 in
  AuthProvider.getValidToken e w = (Some "T2"%string, (AuthProvider.getValidToken e w).2)
  /\ getItem "token" (AuthProvider.getValidToken e w).2 = Some "T2"%string.
Proof.
  intros e w.
  assert (AuthProvider.getValidToken e w
          = (Some "T2"%string, (AuthProvider.getValidToken e w).2)) as Hg
    by (vm_compute; reflexivity).
  split; [exact Hg|].
  exact (proj2 (getValidToken_result_stored e w _ "T2" Hg)).
Defined.

(** ** The HTTP helper *)




(** X16.  [authenticatedFetch] touches [localStorage] and the location on
    a 401 only: after any other answer, a network failure or a missing
    token both are as before. *)
Theorem authenticatedFetch_clears_only_on_401 (e : env) (url : string)
    (options : AuthUtils.RequestInit) (w : world) :
  let w' := (AuthUtils.authenticatedFetch e url options w).2 in
  (localStorage w' = localStorage w /\ navigations w' = navigations w)
  \/ (exists t r, AuthUtils.getToken e w = Some t
        /\ fetch e (authenticated_request url t options) = Resolved r
        /\ status r = 401).
Proof.
  cbn zeta. unfold AuthUtils.authenticatedFetch.
  destruct (AuthUtils.getToken e w) as [t|] eqn:Ht; [|left; split; reflexivity].
  destruct (truthy (Some t)); [|left; split; reflexivity].
  fold (authenticated_request url t options).
  unfold AuthUtils.authenticatedFetch_settled.
  destruct (fetch e (authenticated_request url t options)) as [reason|r] eqn:Hf;
    [left; split; reflexivity|].
  destruct (Z.eqb (status r) 401) eqn:Hs; [|left; split; reflexivity].
  right. exists t, r. split; [reflexivity|]. split; [exact Hf|]. apply Z.eqb_eq, Hs.
Qed.


(** X17.  In the browser, [setAuthData] then the getters is a round trip,
    and [clearAuthData] undoes it: after [setAuthData(t, u)] the token is
    [t], the user id is [u], [isAuthenticated()] holds and
    [redirectToLoginIfNotAuthenticated] does nothing; after
    [clearAuthData] both getters give [null], [isAuthenticated()] fails
    and the redirect goes to [/login].  Neither writes the refresh
    token. *)
Theorem setAuthData_round_trip (e : env) (w : world) (t u : string) :
  window_defined e = true ->
  let w1 := AuthUtils.setAuthData e t u w in
  let w2 := AuthUtils.clearAuthData e w1 in
  (AuthUtils.getToken e w1 = Some t /\ AuthUtils.getUserId e w1 = Some u
   /\ AuthUtils.isAuthenticated e w1 = true
   /\ (AuthUtils.redirectToLoginIfNotAuthenticated e w1) = (false, w1))
  /\ (AuthUtils.getToken e w2 = None /\ AuthUtils.getUserId e w2 = None
      /\ AuthUtils.isAuthenticated e w2 = false
      /\ AuthUtils.redirectToLoginIfNotAuthenticated e w2
         = (true, navigate (LocationAssign "/login") w2))
  /\ getItem "refreshToken" w2 = getItem "refreshToken" w.
Proof.
  intros He. cbn zeta.
  unfold AuthUtils.redirectToLoginIfNotAuthenticated, AuthUtils.isAuthenticated,
    AuthUtils.getToken, AuthUtils.getUserId, AuthUtils.clearAuthData,
    AuthUtils.setAuthData.
  rewrite He.
  assert (getItem "token" (setItem "user_id" u (setItem "token" t w)) = Some t) as H1
    by storage.
  assert (getItem "token" (removeItem "user_id" (removeItem "token"
            (setItem "user_id" u (setItem "token" t w)))) = None) as H2 by storage.
  rewrite H1, H2.
  repeat split; storage.
Qed.


Lemma setAuthData_round_trip_witness :
  let e := Case.server 200 in
  let w1 := AuthUtils.setAuthData e Scenario.token_exp_2000 "u1" (fresh "/") in
  window_defined e = true
  /\ AuthUtils.getToken e w1 = Some Scenario.token_exp_2000
  /\ AuthUtils.getToken e (AuthUtils.clearAuthData e w1) = None.
Proof.
  intros e w1.
  destruct (setAuthData_round_trip e (fresh "/") Scenario.token_exp_2000 "u1" eq_refl)
    as ((H1 & _) & (H2 & _) & _).
  split; [reflexivity|]. split; assumption.
Defined.

(** X18.  The helpers disagree about an empty token.  With the empty
    string stored as the token, [isAuthenticated()] holds and
    [redirectToLoginIfNotAuthenticated] does not redirect, while
    [authenticatedFetch] throws for want of a token, [getValidToken] gives
    [null] and the token counts as expired. *)
Theorem empty_token_disagreement (e : env) (w : world) :
  window_defined e = true -> getItem "token" w = Some EmptyString ->
  AuthUtils.isAuthenticated e w = true
  /\ AuthUtils.redirectToLoginIfNotAuthenticated e w = (false, w)
  /\ (forall url options,
        AuthUtils.authenticatedFetch e url options w
        = (Throws "No authentication token found", w))
  /\ AuthProvider.getValidToken e w = (None, w)
  /\ AuthProvider.isTokenExpired e None w = true.
Proof.
  intros He Ht.
  unfold AuthUtils.redirectToLoginIfNotAuthenticated, AuthUtils.isAuthenticated,
    AuthUtils.authenticatedFetch, AuthUtils.getToken, AuthProvider.getValidToken,
    AuthProvider.isTokenExpired, js_or.
  rewrite He, Ht. cbn. repeat split.
Qed.

Lemma empty_token_disagreement_witness :
  let e := Case.server 200 in
  let w := AuthUtils.setAuthData e EmptyString "u1" (fresh "/") in
  window_defined e = true /\ getItem "token" w = Some EmptyString
  /\ AuthUtils.isAuthenticated e w = true
  /\ AuthProvider.getValidToken e w = (None, w).
Proof.
  intros e w.
  assert (getItem "token" w = Some EmptyString) as Ht by (vm_compute; reflexivity).
  destruct (empty_token_disagreement e w eq_refl Ht) as (H1 & _ & _ & H4 & _).
  split; [reflexivity|]. split; [exact Ht|]. split; assumption.
Defined.

(** ** The three requests of [auth.ts] *)

Lemma js_or_truthy (a : option string) (s : string) :
  s ≠ EmptyString -> truthy (js_or a (Some s)) = true.
Proof.
  intros Hs. unfold js_or. destruct (truthy a) eqn:Ha; [exact Ha|].
  apply truthy_Some, Hs.
Qed.

Lemma failed_nonempty (prefix : string) (z : Z) :
  prefix ≠ EmptyString -> prefix +:+ pretty z ≠ EmptyString.
Proof. intros H. destruct prefix; [done|]. discriminate. Qed.


Lemma loginUser_world (e : env) (net : AuthRequests.network)
    (email password : string) (w : world) :
  (AuthRequests.loginUser e net email password w).2
  = sent (login_request e email password) w.
Proof.
  unfold AuthRequests.loginUser. fold (login_request e email password).
  repeat (case_match; simplify_eq); reflexivity.
Qed.

Lemma loginUser_token (e : env) (net : AuthRequests.network)
    (email password : string) (w : world) :
  truthy (AuthRequests.error (AuthRequests.loginUser e net email password w).1) = false ->
  truthy (AuthRequests.token (AuthRequests.loginUser e net email password w).1) = true.
Proof.
  unfold AuthRequests.loginUser.
  repeat (case_match; simplify_eq); cbn; try discriminate.
  - unfold js_or. case_match; [congruence|]. discriminate.
  - intros _.
    match goal with H : negb _ = false |- _ => apply negb_false_iff in H; exact H end.
Qed.

(** X19.  [loginUser] sends one request and never throws.  Its result
    carries either a non-empty error and no token, or no error and a
    non-empty token, and the second exactly when the answer was 2xx with
    an object holding a non-empty token, which is then the token handed
    on, with the object's user id. *)
Theorem loginUser_error_or_token (e : env) (net : AuthRequests.network)
    (email password : string) (w : world) :
  let res := (AuthRequests.loginUser e net email password w).1 in
  (AuthRequests.loginUser e net email password w).2
  = sent (login_request e email password) w
  /\ ((truthy (AuthRequests.error res) = true /\ AuthRequests.token res = None)
      \/ (AuthRequests.error res = None /\ truthy (AuthRequests.token res) = true))
  /\ (AuthRequests.error res = None <->
      exists data, accepted (net (login_request e email password)) data
        /\ truthy (AuthRequests.token data) = true
        /\ AuthRequests.token res = AuthRequests.token data
        /\ AuthRequests.user_id res = AuthRequests.user_id data).
Proof.
  cbn zeta. unfold AuthRequests.loginUser. fold (login_request e email password).
  unfold accepted.
  destruct (net (login_request e email password)) as [reason|r] eqn:Hnet.
  { cbn. split; [reflexivity|]. split; [left; split; reflexivity|].
    split; [discriminate|]. intros (d & (r0 & H & _) & _). discriminate H. }
  destruct (AuthRequests.res_body r) as [| |data] eqn:Hbody.
  1,2: cbn; split; [reflexivity|]; split; [left; split; reflexivity|];
       split; [discriminate|]; intros (d & (r0 & H & _ & Hb) & _);
       injection H as <-; rewrite Hbody in Hb; discriminate Hb.
  destruct (AuthRequests.res_ok r) eqn:Hok; cbn [negb].
  2:{ cbn [fst snd AuthRequests.error AuthRequests.token].
      split; [reflexivity|]. split.
      - left. split; [|reflexivity]. apply js_or_truthy, failed_nonempty. discriminate.
      - split.
        + intros H. exfalso.
          assert (truthy (js_or (AuthRequests.error data)
                    (Some ("Login failed: " +:+ pretty (AuthRequests.res_status r)))) = true)
            as Ht by (apply js_or_truthy, failed_nonempty; discriminate).
          rewrite H in Ht. discriminate Ht.
        + intros (d & (r0 & H & Hok' & _) & _). injection H as <-. congruence. }
  destruct (truthy (AuthRequests.token data)) eqn:Htok; cbn [negb].
  - cbn. split; [reflexivity|]. split; [right; split; [reflexivity|exact Htok]|].
    split; [|reflexivity]. intros _. exists data.
    split; [exists r; repeat split; assumption|]. repeat split. exact Htok.
  - cbn. split; [reflexivity|]. split; [left; split; reflexivity|].
    split; [discriminate|]. intros (d & (r0 & H & _ & Hb) & Ht & _).
    injection H as <-. rewrite Hbody in Hb. injection Hb as <-. congruence.
Qed.


Lemma loginUser_error_or_token_witness :
  let e := Case.server 200 in
  let net := Case.answers 200 (AuthRequests.JsonObject Case.welcome) in
  let res := (AuthRequests.loginUser e net "ab1234@rit.edu" "secret" (fresh "/login")).1 in
  AuthRequests.error res = None
  /\ exists data, accepted (net (login_request e "ab1234@rit.edu" "secret")) data
       /\ truthy (AuthRequests.token data) = true
       /\ AuthRequests.token res = AuthRequests.token data
       /\ AuthRequests.user_id res = AuthRequests.user_id data.
Proof.
  intros e net res.
  assert (AuthRequests.error res = None) as He by (vm_compute; reflexivity).
  split; [exact He|].
  destruct (loginUser_error_or_token e net "ab1234@rit.edu" "secret" (fresh "/login"))
    as (_ & _ & H).
  exact (proj1 H He).
Defined.

(** X20.  [registerUser] and [verifyUser] send one request each and never
    throw.  An answer that is 2xx with an object is handed on as it is.
    Without an answer, with one that is not 2xx, or with one whose body
    does not read as JSON, whatever its status, the result is an object
    with a non-empty error. *)
Theorem submit_failure_reported (e : env) (net : AuthRequests.network)
    (email secret : string) (w : world) :
  let registration := AuthRequests.registerUser e net email secret w in
  let verification := AuthRequests.verifyUser e net email secret w in
  (registration.2 = sent (register_request e email secret) w
   /\ verification.2 = sent (verify_request e email secret) w)
  /\ ((forall data, accepted (net (register_request e email secret)) data ->
         registration.1 = Some data)
      /\ (forall data, accepted (net (verify_request e email secret)) data ->
            verification.1 = Some data))
  /\ ((turned_down (net (register_request e email secret)) ->
       exists o, registration.1 = Some o /\ truthy (AuthRequests.error o) = true)
      /\ (turned_down (net (verify_request e email secret)) ->
          exists o, verification.1 = Some o /\ truthy (AuthRequests.error o) = true)).
Proof.
  assert (forall req failed network_error,
            failed ≠ EmptyString -> network_error ≠ EmptyString ->
            (AuthRequests.submit net req failed network_error w).2 = sent req w
            /\ (forall data, accepted (net req) data ->
                  (AuthRequests.submit net req failed network_error w).1 = Some data)
            /\ (turned_down (net req) ->
                exists o, (AuthRequests.submit net req failed network_error w).1 = Some o
                  /\ truthy (AuthRequests.error o) = true)) as Hsubmit.
  { intros req failed network_error Hf Hn.
    unfold AuthRequests.submit, accepted, turned_down.
    destruct (net req) as [reason|r] eqn:Hnet.
    { cbn. split; [reflexivity|]. split.
      - intros d (r0 & H & _). discriminate H.
      - intros _. eexists. split; [reflexivity|]. cbn. apply truthy_Some, Hn. }
    destruct (AuthRequests.res_body r) as [| |data] eqn:Hbody;
      destruct (AuthRequests.res_ok r) eqn:Hok; cbn [negb fst snd];
      (split; [reflexivity|]); split;
      try (intros d (r0 & H & Hok' & Hb); injection H as <-; congruence);
      try (intros _; eexists; split; [reflexivity|]; cbn;
           first [apply truthy_Some, Hn | apply js_or_truthy, failed_nonempty, Hf]).
    - intros H. destruct (H r eq_refl) as [H'|H']; congruence.
    - intros H. destruct (H r eq_refl) as [H'|H']; congruence. }
  cbn zeta. unfold AuthRequests.registerUser, AuthRequests.verifyUser.
  fold (register_request e email secret). fold (verify_request e email secret).
  destruct (Hsubmit (register_request e email secret)
              "Registration failed: "%string "Network error during registration"%string)
    as (R1 & R2 & R3); [discriminate|discriminate|].
  destruct (Hsubmit (verify_request e email secret)
              "Verification failed: "%string "Network error during verification"%string)
    as (V1 & V2 & V3); [discriminate|discriminate|].
  repeat split; assumption.
Qed.

(** A gateway answers 502 with a page that is no JSON: the result says
    network error. *)
Lemma submit_failure_reported_witness :
  let e := Case.server 200 in
  let net := Case.answers 502 AuthRequests.Unreadable in
  turned_down (net (register_request e "ab1234@rit.edu" "secret"))
  /\ exists o,
       (AuthRequests.registerUser e net "ab1234@rit.edu" "secret" (fresh "/register")).1
       = Some o
       /\ truthy (AuthRequests.error o) = true.
Proof.
  intros e net.
  assert (turned_down (net (register_request e "ab1234@rit.edu" "secret"))) as Ht.
  { intros res H. injection H as <-. left. reflexivity. }
  split; [exact Ht|].
  destruct (submit_failure_reported e net "ab1234@rit.edu" "secret" (fresh "/register"))
    as (_ & _ & H & _).
  exact (H Ht).
Defined.

(** ** The login page *)

Lemma login_call_storage (res : AuthRequests.auth_object) (w : world) :
  getItem "refreshToken" (LoginPage.login_call res w) = getItem "refreshToken" w
  /\ getItem "token" (LoginPage.login_call res w)
     = Some (ToString (AuthRequests.token res))
  /\ getItem "user_id" (LoginPage.login_call res w)
     = Some (ToString (AuthRequests.user_id res))
  /\ isAuthenticated (LoginPage.login_call res w) = true
  /\ user (LoginPage.login_call res w) = AuthRequests.user_id res
  /\ fetched (LoginPage.login_call res w) = fetched w
  /\ navigations (LoginPage.login_call res w) = navigations w.
Proof.
  unfold LoginPage.login_call, AuthProvider.login.
  destruct (AuthRequests.user_id res); cbn [truthy ToString default];
    repeat split; storage.
Qed.


Lemma handleLogin_refreshToken (e : env) (net : AuthRequests.network)
    (st : LoginPage.state) (w : world) :
  getItem "refreshToken" (LoginPage.handleLogin e net st w).2
  = getItem "refreshToken" w.
Proof.
  unfold LoginPage.handleLogin.
  pose proof (loginUser_world e net (LoginPage.email st) (LoginPage.password st) w) as Hw.
  destruct (AuthRequests.loginUser e net (LoginPage.email st) (LoginPage.password st) w)
    as [res w1]. cbn [snd] in Hw. subst w1.
  destruct (truthy (AuthRequests.error res)); cbn [snd]; [reflexivity|].
  exact (proj1 (login_call_storage res
                  (sent (login_request e (LoginPage.email st) (LoginPage.password st)) w))).
Qed.

(** X21.  Submitting the login form sends the one login request, lowers
    the page's loading flag and leaves a message.  Either the login failed
    and [localStorage], the session and the timers are as before, or a
    non-empty access token is stored, the session is authenticated and
    the move to [/] is scheduled a second later.  Either way the stored
    refresh token is as it was before: the page never stores one. *)
Theorem handleLogin_spec (e : env) (net : AuthRequests.network)
    (st : LoginPage.state) (w : world) :
  let st' := (LoginPage.handleLogin e net st w).1 in
  let w' := (LoginPage.handleLogin e net st w).2 in
  getItem "refreshToken" w' = getItem "refreshToken" w
  /\ fetched w' = login_request e (LoginPage.email st) (LoginPage.password st) :: fetched w
  /\ LoginPage.isLoading st' = false
  /\ LoginPage.message st' ≠ EmptyString
  /\ ((localStorage w' = localStorage w /\ isAuthenticated w' = isAuthenticated w
       /\ user w' = user w /\ LoginPage.timers st' = LoginPage.timers st)
      \/ (exists t, getItem "token" w' = Some t /\ t ≠ EmptyString
            /\ isAuthenticated w' = true
            /\ LoginPage.timers st' = (1000, RouterPush "/") :: LoginPage.timers st)).
Proof.
  cbn zeta. unfold LoginPage.handleLogin.
  pose proof (loginUser_world e net (LoginPage.email st) (LoginPage.password st) w) as Hw.
  pose proof (loginUser_token e net (LoginPage.email st) (LoginPage.password st) w) as Ht.
  destruct (AuthRequests.loginUser e net (LoginPage.email st) (LoginPage.password st) w)
    as [res w1]. cbn [fst snd] in *. subst w1.
  destruct (truthy (AuthRequests.error res)) eqn:Herr; cbn [fst snd].
  - split; [reflexivity|]. split; [reflexivity|]. split; [reflexivity|].
    split.
    + cbn. destruct (AuthRequests.error res) as [text|]; [|discriminate].
      cbn. intros ->. discriminate Herr.
    + left. repeat split.
  - destruct (login_call_storage res
                (sent (login_request e (LoginPage.email st) (LoginPage.password st)) w))
      as (Hr & Htok & _ & Ha & _ & Hf & _).
    split; [exact Hr|]. split; [exact Hf|]. split; [reflexivity|].
    split; [discriminate|].
    right. specialize (Ht eq_refl).
    destruct (AuthRequests.token res) as [t|]; [|discriminate].
    exists t. split; [exact Htok|]. split; [intros ->; discriminate Ht|].
    split; [exact Ha|reflexivity].
Qed.


Lemma handleLogin_spec_witness :
  let e := Case.server 200 in
  let net := Case.answers 401 (AuthRequests.JsonObject (Case.complaint "Invalid credentials")) in
  let w := setIsLoading false (fresh "/login") in
  LoginPage.message (LoginPage.handleLogin e net Case.login_form w).1
  = "Invalid credentials"%string
  /\ localStorage (LoginPage.handleLogin e net Case.login_form w).2 = localStorage w
  /\ getItem "refreshToken" (LoginPage.handleLogin e net Case.login_form w).2
     = getItem "refreshToken" w.
Proof.
  intros e net w.
  destruct (handleLogin_spec e net Case.login_form w) as (H1 & _).
  split; [vm_compute; reflexivity|]. split; [vm_compute; reflexivity|]. exact H1.
Defined.

(** X22.  On a profile without a stored refresh token, whatever the login
    form leads to, the session cannot be renewed: [refreshToken] gives
    [null] without a request, and once the stored token counts as expired
    [getValidToken] gives [null] and the start-up check ends
    unauthenticated, both without a request. *)
Theorem login_page_session_cannot_refresh (e e' : env) (net : AuthRequests.network)
    (st : LoginPage.state) (w : world) :
  truthy (getItem "refreshToken" w) = false ->
  let w' := (LoginPage.handleLogin e net st w).2 in
  AuthProvider.refreshToken e' w' = (None, w')
  /\ (AuthProvider.isTokenExpired e' None w' = true ->
      AuthProvider.getValidToken e' w' = (None, w'))
  /\ (AuthProvider.isTokenExpired e' None w' = true ->
      isAuthenticated (AuthProvider.checkAuthStatus e' w') = false
      /\ fetched (AuthProvider.checkAuthStatus e' w') = fetched w').
Proof.
  intros Hno. cbn zeta.
  pose proof (handleLogin_refreshToken e net st w) as Hr.
  set (w' := (LoginPage.handleLogin e net st w).2) in *.
  assert (truthy (getItem "refreshToken" w') = false) as Hno' by (rewrite Hr; exact Hno).
  assert (AuthProvider.refreshToken e' w' = (None, w')) as Href
    by (apply refreshToken_without_refreshToken, Hno').
  split; [exact Href|]. split.
  - intros Hexp. unfold AuthProvider.getValidToken.
    destruct (getItem "token" w') as [t|] eqn:Ht; [|reflexivity].
    destruct (truthy (Some t)); [|reflexivity]. cbn [negb].
    rewrite (isTokenExpired_of_stored e' w' t Ht), Hexp, Href. reflexivity.
  - intros Hexp. unfold AuthProvider.checkAuthStatus.
    destruct (getItem "token" w') as [t|] eqn:Ht; [|split; reflexivity].
    destruct (truthy (Some t)); [|split; reflexivity].
    destruct (truthy (getItem "user_id" w')); [|split; reflexivity]. cbn [andb].
    rewrite (isTokenExpired_of_stored e' w' t Ht), Hexp, Href.
    split; reflexivity.
Qed.

Lemma login_page_session_cannot_refresh_witness :
  let e := Case.server 200 in
  let late := Scenario.browser 3000000 (Scenario.responds 200 (Some "T2"%string) None) in
  let net := Case.answers 200 (AuthRequests.JsonObject Case.welcome) in
  let w' := (LoginPage.handleLogin e net Case.login_form (fresh "/login")).2 in
  truthy (getItem "refreshToken" (fresh "/login")) = false
  /\ getItem "token" w' = Some Scenario.token_exp_2000
  /\ AuthProvider.isTokenExpired late None w' = true
  /\ AuthProvider.getValidToken late w' = (None, w').
Proof.
  intros e late net w'.
  assert (AuthProvider.isTokenExpired late None w' = true) as Hexp
    by (vm_compute; reflexivity).
  split; [reflexivity|]. split; [vm_compute; reflexivity|]. split; [exact Hexp|].
  destruct (login_page_session_cannot_refresh e late net Case.login_form
              (fresh "/login") eq_refl) as (_ & H & _).
  exact (H Hexp).
Defined.

(** ** The registration page *)

Lemma truthy_true (o : option string) :
  truthy o = true -> exists s, o = Some s /\ s ≠ EmptyString.
Proof.
  destruct o as [s|]; [|discriminate]. intros H. exists s. split; [reflexivity|].
  intros ->. discriminate H.
Qed.

Lemma failure_cases (outcome : AuthRequests.auth_fetch_result) (failed : string) :
  failed ≠ EmptyString ->
  (RegisterPage.failure outcome failed = None /\ went_through outcome)
  \/ (exists text, RegisterPage.failure outcome failed = Some text
        /\ text ≠ EmptyString /\ ~ went_through outcome).
Proof.
  intros Hf. unfold RegisterPage.failure, went_through.
  destruct outcome as [reason|res].
  { right. eexists. split; [reflexivity|]. split; [discriminate|].
    intros (r & H & _). discriminate H. }
  destruct (AuthRequests.res_body res) as [| |data] eqn:Hb.
  - right. eexists. split; [reflexivity|]. split; [discriminate|].
    intros (r & H & _ & Hr). injection H as <-. congruence.
  - destruct (AuthRequests.res_ok res) eqn:Hok.
    + left. split; [reflexivity|]. exists res. repeat split; congruence.
    + right. eexists. split; [reflexivity|]. split; [discriminate|].
      intros (r & H & Hr & _). injection H as <-. congruence.
  - destruct (AuthRequests.res_ok res) eqn:Hok.
    + left. split; [reflexivity|]. exists res. repeat split; congruence.
    + right. destruct (truthy_true _ (js_or_truthy (AuthRequests.error data) failed Hf))
        as (text & Ht & Hne).
      exists text. split; [exact Ht|]. split; [exact Hne|].
      intros (r & H & Hr & _). injection H as <-. congruence.
Qed.


(** X23.  Registering sends the one request, lowers the loading flag and
    leaves the form's fields alone.  The page moves on to the
    verification step, with no error shown, exactly when the answer was
    2xx with a body that reads as JSON; in every other case, a 2xx answer
    with an unreadable body included, it stays on its step and shows a
    non-empty error. *)
Theorem handleRegister_spec (e : env) (net : AuthRequests.network)
    (st : RegisterPage.state) (w : world) :
  let st' := (RegisterPage.handleRegister e net st w).1 in
  (RegisterPage.handleRegister e net st w).2 = sent (register_request e (RegisterPage.email st) (RegisterPage.password st)) w
  /\ RegisterPage.loading st' = false
  /\ (RegisterPage.email st', RegisterPage.password st', RegisterPage.code st')
     = (RegisterPage.email st, RegisterPage.password st, RegisterPage.code st)
  /\ ((went_through (net (register_request e (RegisterPage.email st) (RegisterPage.password st)))
       /\ RegisterPage.step st' = RegisterPage.verify
       /\ RegisterPage.error st' = EmptyString)
      \/ (~ went_through (net (register_request e (RegisterPage.email st) (RegisterPage.password st)))
          /\ RegisterPage.step st' = RegisterPage.step st
          /\ RegisterPage.error st' ≠ EmptyString)).
Proof.
  cbn zeta. unfold RegisterPage.handleRegister. fold (register_request e (RegisterPage.email st) (RegisterPage.password st)).
  destruct (failure_cases (net (register_request e (RegisterPage.email st) (RegisterPage.password st))) "Registration failed")
    as [(Hf & Hg)|(text & Hf & Hne & Hg)]; [discriminate| |]; rewrite Hf; cbn.
  - split; [reflexivity|]. split; [reflexivity|]. split; [reflexivity|].
    left. repeat split. exact Hg.
  - split; [reflexivity|]. split; [reflexivity|]. split; [reflexivity|].
    right. repeat split; assumption.
Qed.


(** A 200 whose body is no JSON: the page stays and says server error. *)
Lemma handleRegister_spec_witness :
  let e := Case.server 200 in
  let net := Case.answers 200 AuthRequests.Unreadable in
  let st' := (RegisterPage.handleRegister e net Case.register_form (fresh "/register")).1 in
  ~ went_through (net (register_request e "ab1234@rit.edu" "secret"))
  /\ RegisterPage.step st' = RegisterPage.register
  /\ RegisterPage.error st' = "Server error"%string.
Proof.
  intros e net st'.
  destruct (handleRegister_spec e net Case.register_form (fresh "/register"))
    as (_ & _ & _ & [(H & _)|(H & _)]).
  - exfalso. destruct H as (res & Hr & _ & Hb). injection Hr as <-. apply Hb. reflexivity.
  - split; [exact H|]. split; vm_compute; reflexivity.
Defined.

(** X24.  Verifying sends the one request and touches neither
    [localStorage] nor the session.  The router is sent to [/login], with
    no error shown, exactly when the answer was 2xx with a body that reads
    as JSON; in every other case no navigation happens and a non-empty
    error is shown. *)
Theorem handleVerify_spec (e : env) (net : AuthRequests.network)
    (st : RegisterPage.state) (w : world) :
  let st' := (RegisterPage.handleVerify e net st w).1 in
  let w' := (RegisterPage.handleVerify e net st w).2 in
  fetched w' = verify_request e (RegisterPage.email st) (RegisterPage.code st) :: fetched w
  /\ localStorage w' = localStorage w /\ isAuthenticated w' = isAuthenticated w
  /\ RegisterPage.loading st' = false /\ RegisterPage.step st' = RegisterPage.step st
  /\ ((went_through (net (verify_request e (RegisterPage.email st) (RegisterPage.code st)))
       /\ navigations w' = RouterPush "/login" :: navigations w
       /\ RegisterPage.error st' = EmptyString)
      \/ (~ went_through (net (verify_request e (RegisterPage.email st) (RegisterPage.code st)))
          /\ navigations w' = navigations w
          /\ RegisterPage.error st' ≠ EmptyString)).
Proof.
  cbn zeta. unfold RegisterPage.handleVerify. fold (verify_request e (RegisterPage.email st) (RegisterPage.code st)).
  destruct (failure_cases (net (verify_request e (RegisterPage.email st) (RegisterPage.code st))) "Verification failed")
    as [(Hf & Hg)|(text & Hf & Hne & Hg)]; [discriminate| |]; rewrite Hf; cbn.
  - repeat (split; [reflexivity|]). left. repeat split. exact Hg.
  - repeat (split; [reflexivity|]). right. repeat split; assumption.
Qed.


Lemma handleVerify_spec_witness :
  let e := Case.server 200 in
  let net := Case.answers 200 AuthRequests.JsonNull in
  let w' := (RegisterPage.handleVerify e net Case.register_form (fresh "/register")).2 in
  went_through (net (verify_request e "ab1234@rit.edu" "123456"))
  /\ navigations w' = [RouterPush "/login"].
Proof.
  intros e net w'.
  assert (went_through (net (verify_request e "ab1234@rit.edu" "123456"))) as Hg.
  { eexists. split; [reflexivity|]. split; [reflexivity|discriminate]. }
  split; [exact Hg|].
  destruct (handleVerify_spec e net Case.register_form (fresh "/register"))
    as (_ & _ & _ & _ & _ & [(_ & H & _)|(H & _)]).
  - exact H.
  - contradiction.
Defined.

(** ** The page of the user's own posts *)

Section MyPosts.
Import MyPostsPage.

Lemma handleNext_page (st : state) :
  (page st * limit st < total st /\ handleNext st = setPage (fun prev => prev + 1) st)
  \/ (total st <= page st * limit st /\ handleNext st = st).
Proof.
  unfold handleNext.
  destruct (Z.ltb_spec (page st * limit st) (total st)); [left|right]; split;
    assumption || reflexivity.
Qed.

Lemma handlePrev_page (st : state) :
  (1 < page st /\ handlePrev st = setPage (fun prev => prev - 1) st)
  \/ (page st <= 1 /\ handlePrev st = st).
Proof.
  unfold handlePrev.
  destruct (Z.ltb_spec 1 (page st)); [left|right]; split; assumption || reflexivity.
Qed.

Lemma handlePrev_handleNext (st : state) :
  1 <= page st -> page st * limit st < total st ->
  handlePrev (handleNext st) = st.
Proof.
  intros H1 Hn. unfold handleNext.
  destruct (Z.ltb_spec (page st * limit st) (total st)) as [_|Hle]; [|lia].
  unfold handlePrev, setPage. cbn [page].
  destruct (Z.ltb_spec 1 (page st + 1)) as [_|Hle]; [|lia].
  destruct st; cbn. f_equal. lia.
Qed.

(** X25.  The pager stays in range.  From a page that exists, [handleNext]
    and [handlePrev] lead to a page that exists, moving by one page or not
    at all; [handleNext] stays put on the last page and [handlePrev] on
    the first; and [handlePrev] undoes a [handleNext] that moved. *)
Theorem pagination_stays_in_range (st : state) :
  0 <= limit st -> on_a_page st ->
  on_a_page (handleNext st) /\ on_a_page (handlePrev st)
  /\ (page (handleNext st) = page st \/ page (handleNext st) = page st + 1)
  /\ (page (handlePrev st) = page st \/ page (handlePrev st) = page st - 1)
  /\ (handleNext st ≠ st -> handlePrev (handleNext st) = st)
  /\ (total st <= page st * limit st -> handleNext st = st)
  /\ (page st = 1 -> handlePrev st = st).
Proof.
  intros Hl (H1 & Hp).
  assert (on_a_page (handleNext st)
          /\ (page (handleNext st) = page st \/ page (handleNext st) = page st + 1)
          /\ (handleNext st ≠ st -> handlePrev (handleNext st) = st)
          /\ (total st <= page st * limit st -> handleNext st = st)) as (N1 & N2 & N3 & N4).
  { destruct (handleNext_page st) as [(Hn & Heq)|(Hn & Heq)].
    - split; [|split; [|split]].
      + rewrite Heq. split; cbn [page limit total setPage]; [lia|].
        right. replace (page st + 1 - 1) with (page st) by lia. exact Hn.
      + right. rewrite Heq. reflexivity.
      + intros _. apply handlePrev_handleNext; assumption.
      + lia.
    - rewrite Heq. split; [split; assumption|]. split; [left; reflexivity|].
      split; [intros Hne; contradiction|reflexivity]. }
  assert (on_a_page (handlePrev st)
          /\ (page (handlePrev st) = page st \/ page (handlePrev st) = page st - 1)
          /\ (page st = 1 -> handlePrev st = st)) as (P1 & P2 & P3).
  { destruct (handlePrev_page st) as [(Hq & Heq)|(Hq & Heq)].
    - rewrite Heq. split; [|split].
      + split; cbn [page limit total setPage]; [lia|].
        destruct Hp as [Hp|Hp]; [lia|].
        destruct (Z.eq_dec (page st) 2) as [H2|H2]; [left; lia|right; nia].
      + right. reflexivity.
      + lia.
    - rewrite Heq. split; [split; assumption|]. split; [left; reflexivity|reflexivity]. }
  repeat split; assumption || apply N1 || apply P1.
Qed.

(** Twenty posts, nine to a page: page 3 is the last. *)
Lemma pagination_stays_in_range_witness :
  let st := Case.listing [] 3 20 None in
  0 <= limit st /\ on_a_page st
  /\ handleNext st = st /\ page (handlePrev st) = 2.
Proof.
  intros st.
  assert (0 <= limit st) as Hl by (vm_compute; discriminate).
  assert (on_a_page st) as Hp by (split; [vm_compute; discriminate|right; reflexivity]).
  split; [exact Hl|]. split; [exact Hp|].
  destruct (pagination_stays_in_range st Hl Hp) as (_ & _ & _ & _ & _ & H & _).
  split; [apply H; vm_compute; discriminate | reflexivity].
Defined.

Lemma app_nonempty_r (a b : string) : b ≠ EmptyString -> a +:+ b ≠ EmptyString.
Proof.
  intros Hb H. destruct a as [|c a]; [|discriminate H].
  apply Hb. exact H.
Qed.

Lemma fallback_image_url (c : string) :
  c ∉ Object_prototype_members ->
  exists s, fallback_image c = Url s /\ s ≠ EmptyString.
Proof.
  intros Hc. unfold fallback_image.
  destruct (own_member c DEFAULT_IMAGES) as [s|] eqn:Hs.
  - cbn in Hs. repeat (case_match; simplify_eq); eexists; split; try reflexivity; discriminate.
  - rewrite (bool_decide_eq_false_2 _ Hc). eexists. split; [reflexivity|discriminate].
Qed.


(** X26.  [getPostImage] looks at the first image only and takes its
    [medium], else [large], else [thumbnail] address, the first that is
    not empty: an address starting with the letters http is handed on as
    it is, any other with the API's base before it.  Without such an
    address the result is the category's default image.  Unless the
    category bears the name of a member of [Object.prototype], the result
    is a string and not empty. *)
Theorem getPostImage_spec (e : env) (post : Post) :
  (category post ∉ Object_prototype_members ->
   exists s, getPostImage e post = Url s /\ s ≠ EmptyString)
  /\ (forall first rest s,
        images post = Some (first :: rest) ->
        preferred first = Some s -> s ≠ EmptyString ->
        getPostImage e post
        = Url (if String.prefix "http" s then s else api_url e +:+ s))
  /\ (forall first rest,
        images post = Some (first :: rest) -> truthy (preferred first) = false ->
        getPostImage e post = fallback_image (category post))
  /\ (images post = None \/ images post = Some [] ->
      getPostImage e post = fallback_image (category post)).
Proof.
  assert (forall first rest, images post = Some (first :: rest) ->
            getPostImage e post
            = if truthy (preferred first)
              then Url (if String.prefix "http" (ToString (preferred first))
                        then ToString (preferred first)
                        else api_url e +:+ ToString (preferred first))
              else fallback_image (category post)) as Hfirst.
  { intros first rest Hi. unfold getPostImage, preferred. rewrite Hi.
    destruct (urls first) as [u|]; [|reflexivity].
    change (default {| thumbnail := None; medium := None; large := None |} (Some u))
      with u.
    unfold js_or.
    destruct (truthy (medium u)) eqn:Hm.
    { destruct (truthy_true _ Hm) as (s & Hs & Hne). rewrite Hs.
      change (ToString (Some s)) with s. rewrite !(truthy_Some _ Hne).
      destruct (String.prefix "http" s); reflexivity. }
    destruct (truthy (large u)) eqn:Hl.
    { destruct (truthy_true _ Hl) as (s & Hs & Hne). rewrite Hs.
      change (ToString (Some s)) with s. rewrite !(truthy_Some _ Hne).
      destruct (String.prefix "http" s); reflexivity. }
    destruct (truthy (thumbnail u)) eqn:Ht.
    { destruct (truthy_true _ Ht) as (s & Hs & Hne). rewrite Hs.
      change (ToString (Some s)) with s. rewrite !(truthy_Some _ Hne).
      destruct (String.prefix "http" s); reflexivity. }
    reflexivity. }
  split; [|split; [|split]].
  - intros Hc. destruct (images post) as [[|first rest]|] eqn:Hi.
    + unfold getPostImage. rewrite Hi. apply fallback_image_url, Hc.
    + rewrite (Hfirst first rest eq_refl).
      destruct (truthy (preferred first)) eqn:Hp; [|apply fallback_image_url, Hc].
      destruct (truthy_true _ Hp) as (s & -> & Hs). change (ToString (Some s)) with s.
      destruct (String.prefix "http" s); eexists; (split; [reflexivity|]);
        [exact Hs|apply app_nonempty_r, Hs].
    + unfold getPostImage. rewrite Hi. apply fallback_image_url, Hc.
  - intros first rest s Hi Hp Hs. rewrite (Hfirst first rest Hi), Hp, (truthy_Some _ Hs).
    reflexivity.
  - intros first rest Hi Hp. rewrite (Hfirst first rest Hi), Hp. reflexivity.
  - intros [Hi|Hi]; unfold getPostImage; rewrite Hi; reflexivity.
Qed.


(** An image with a relative [large] address and no [medium] one. *)
Lemma getPostImage_spec_witness :
  let e := Case.server 200 in
  let first := Case.picture None (Some "/uploads/bike.jpg"%string)
                 (Some "/uploads/bike-small.jpg"%string) in
  let post := Case.post "p1" "PUBLISHED" (Some [first; first]) in
  preferred first = Some "/uploads/bike.jpg"%string
  /\ getPostImage e post
     = Url "https://api.unicom.example/uploads/bike.jpg".
Proof.
  intros e first post.
  assert (preferred first = Some "/uploads/bike.jpg"%string) as Hp by reflexivity.
  split; [exact Hp|].
  destruct (getPostImage_spec e post) as (_ & H & _).
  rewrite (H first [first] "/uploads/bike.jpg"%string eq_refl Hp ltac:(discriminate)).
  reflexivity.
Defined.

Lemma string_eqb_false (a b : string) : String.eqb a b = false <-> a ≠ b.
Proof. apply String.eqb_neq. Qed.


(** X27.  Deleting a post.  Without a valid token nothing is sent to the
    posts endpoint and the page stays as it is.  With one, the one DELETE
    request carries the token stored at that moment; unless it is answered
    2xx the page stays as it is; when it is, the posts left are those of
    before with another id, in their order, the selection is kept unless
    it was the deleted post, and the total goes down by one, whether or
    not a post of that id was on the page. *)
Theorem handleDeletePost_spec (e : env) (postId : string) (st : state) (w : world) :
  let valid := AuthProvider.getValidToken e w in
  let st' := (handleDeletePost e postId st w).1 in
  (truthy valid.1 = false -> handleDeletePost e postId st w = (st, valid.2))
  /\ (forall t, valid.1 = Some t -> t ≠ EmptyString ->
        getItem "token" valid.2 = Some t
        /\ (handleDeletePost e postId st w).2
           = sent (delete_request e t postId) valid.2
        /\ (~ answered_ok e (delete_request e t postId) -> st' = st)
        /\ (answered_ok e (delete_request e t postId) ->
            (forall post, post ∈ posts st' <-> post ∈ posts st /\ _id post ≠ postId)
            /\ posts st' `sublist_of` posts st
            /\ total st' = total st - 1
            /\ (forall post, selectedPost st' = Some post <->
                  selectedPost st = Some post /\ _id post ≠ postId))).
Proof.
  cbn zeta. unfold handleDeletePost.
  pose proof (getValidToken_Some e w) as Hstored.
  destruct (AuthProvider.getValidToken e w) as [token w1]. cbn [fst snd].
  split.
  - intros Hf. destruct token as [t|]; [rewrite Hf|]; reflexivity.
  - intros t -> Hne. rewrite (truthy_Some _ Hne).
    destruct (Hstored w1 t eq_refl) as (_ & Hst).
    split; [exact Hst|]. split.
    { destruct (fetch e (delete_request e t postId)) as [reason|r]; [reflexivity|].
      destruct (ok r); reflexivity. }
    split.
    + intros Hno. destruct (fetch e (delete_request e t postId)) as [reason|r] eqn:Hf;
        [reflexivity|].
      destruct (ok r) eqn:Hok; [|reflexivity]. exfalso. apply Hno. exists r. eauto.
    + intros (r & Hf & Hok). rewrite Hf, Hok. cbn [fst posts total selectedPost changed].
      split; [|split; [|split]].
      * intros post. rewrite list_elem_of_filter. rewrite Is_true_true, negb_true_iff.
        rewrite string_eqb_false. tauto.
      * apply sublist_filter.
      * reflexivity.
      * intros post. unfold selected_is.
        destruct (selectedPost st) as [p|]; [|split; [discriminate|intros [H _]; discriminate H]].
        destruct (String.eqb (_id p) postId) eqn:Hp.
        -- apply String.eqb_eq in Hp. split; [discriminate|].
           intros [H Hn]. injection H as <-. contradiction.
        -- apply String.eqb_neq in Hp. split.
           ++ intros H. injection H as <-. split; [reflexivity|exact Hp].
           ++ intros [H _]. exact H.
Qed.


Lemma handleDeletePost_spec_witness :
  let e := Case.server 204 in
  let w := Scenario.logged_in Scenario.token_exp_2000 in
  let p1 := Case.post "p1" "PUBLISHED" None in
  let p2 := Case.post "p2" "CLOSED" None in
  let st' := (handleDeletePost e "p1" (Case.listing [p1; p2] 1 2 (Some p1)) w).1 in
  (AuthProvider.getValidToken e w).1 = Some Scenario.token_exp_2000
  /\ answered_ok e (delete_request e Scenario.token_exp_2000 "p1")
  /\ (forall post, post ∈ posts st' <-> post ∈ [p1; p2] /\ _id post ≠ "p1"%string)
  /\ total st' = 1.
Proof.
  intros e w p1 p2 st'.
  assert ((AuthProvider.getValidToken e w).1 = Some Scenario.token_exp_2000) as Hv
    by (vm_compute; reflexivity).
  assert (answered_ok e (delete_request e Scenario.token_exp_2000 "p1")) as Hok
    by (eexists; split; reflexivity).
  split; [exact Hv|]. split; [exact Hok|].
  destruct (handleDeletePost_spec e "p1" (Case.listing [p1; p2] 1 2 (Some p1)) w)
    as (_ & H).
  destruct (H Scenario.token_exp_2000 Hv ltac:(discriminate)) as (_ & _ & _ & H').
  destruct (H' Hok) as (H1 & _ & H3 & _).
  split; [exact H1 | exact H3].
Defined.

(** X28.  Changing a post's status.  The ids of the posts, in their order,
    the total and the id of the selection are the same afterwards in every
    case.  Without a valid token nothing is sent to the posts endpoint and
    the page stays as it is; with one, the one PATCH request carries the
    token stored at that moment, and unless it is answered 2xx the page
    stays as it is; when it is, every post of that id, the selection
    included, has the new status, and the posts of another id are as they
    were. *)
Theorem handleUpdatePostStatus_spec (e : env) (postId newStatus : string)
    (st : state) (w : world) :
  let valid := AuthProvider.getValidToken e w in
  let st' := (handleUpdatePostStatus e postId newStatus st w).1 in
  (truthy valid.1 = false ->
   handleUpdatePostStatus e postId newStatus st w = (st, valid.2))
  /\ (map _id (posts st') = map _id (posts st) /\ total st' = total st
      /\ (_id <$> selectedPost st') = (_id <$> selectedPost st))
  /\ (forall t, valid.1 = Some t -> t ≠ EmptyString ->
        getItem "token" valid.2 = Some t
        /\ (handleUpdatePostStatus e postId newStatus st w).2
           = sent (patch_request e t postId newStatus) valid.2
        /\ (~ answered_ok e (patch_request e t postId newStatus) -> st' = st)
        /\ (answered_ok e (patch_request e t postId newStatus) ->
            (forall post, post ∈ posts st' -> _id post = postId ->
               status post = newStatus)
            /\ (forall post, post ∈ posts st -> _id post ≠ postId ->
                  post ∈ posts st')
            /\ (forall post, selectedPost st' = Some post -> _id post = postId ->
                  status post = newStatus))).
Proof.
  cbn zeta. unfold handleUpdatePostStatus.
  pose proof (getValidToken_Some e w) as Hstored.
  destruct (AuthProvider.getValidToken e w) as [token w1]. cbn [fst snd].
  assert (forall l, map _id (map (fun post => if String.eqb (_id post) postId
                                     then with_status newStatus post else post) l)
                    = map _id l) as Hids.
  { intros l. rewrite map_map. apply map_ext. intros p.
    destruct (String.eqb (_id p) postId); reflexivity. }
  split; [|split].
  - intros Hf. destruct token as [t|]; [rewrite Hf|]; reflexivity.
  - destruct token as [t|]; [|repeat split].
    destruct (truthy (Some t)); [|repeat split].
    destruct (fetch e _) as [reason|r]; [repeat split|].
    destruct (ok r); [|repeat split].
    cbn [fst posts total selectedPost changed].
    split; [apply Hids|]. split; [reflexivity|].
    destruct (selectedPost st) as [p|]; [|reflexivity].
    destruct (String.eqb (_id p) postId); reflexivity.
  - intros t -> Hne. rewrite (truthy_Some _ Hne).
    destruct (Hstored w1 t eq_refl) as (_ & Hst).
    split; [exact Hst|]. split.
    { destruct (fetch e (patch_request e t postId newStatus)) as [reason|r]; [reflexivity|].
      destruct (ok r); reflexivity. }
    split.
    + intros Hno.
      destruct (fetch e (patch_request e t postId newStatus)) as [reason|r] eqn:Hf;
        [reflexivity|].
      destruct (ok r) eqn:Hok; [|reflexivity]. exfalso. apply Hno. exists r. eauto.
    + intros (r & Hf & Hok). rewrite Hf, Hok. cbn [fst posts total selectedPost changed].
      split; [|split].
      * intros post Hin Hid. apply list_elem_of_In, in_map_iff in Hin as (p & Hp & _).
        destruct (String.eqb (_id p) postId) eqn:Hpid; subst post; [reflexivity|].
        apply String.eqb_neq in Hpid. contradiction.
      * intros post Hin Hid. apply list_elem_of_In, in_map_iff. exists post.
        apply String.eqb_neq in Hid. rewrite Hid. split; [reflexivity|].
        apply list_elem_of_In, Hin.
      * intros post Hsel Hid. destruct (selectedPost st) as [p|]; [|discriminate].
        destruct (String.eqb (_id p) postId) eqn:Hpid.
        -- injection Hsel as <-. reflexivity.
        -- injection Hsel as <-. apply String.eqb_neq in Hpid. contradiction.
Qed.

Lemma handleUpdatePostStatus_spec_witness :
  let e := Case.server 500 in
  let w := Scenario.logged_in Scenario.token_exp_2000 in
  let p1 := Case.post "p1" "PUBLISHED" None in
  let st := Case.listing [p1] 1 1 None in
  (AuthProvider.getValidToken e w).1 = Some Scenario.token_exp_2000
  /\ ~ answered_ok e (patch_request e Scenario.token_exp_2000 "p1" "CLOSED")
  /\ (handleUpdatePostStatus e "p1" "CLOSED" st w).1 = st.
Proof.
  intros e w p1 st.
  assert ((AuthProvider.getValidToken e w).1 = Some Scenario.token_exp_2000) as Hv
    by (vm_compute; reflexivity).
  assert (~ answered_ok e (patch_request e Scenario.token_exp_2000 "p1" "CLOSED")) as Hno.
  { intros (r & Hr & Hok). injection Hr as <-. discriminate Hok. }
  split; [exact Hv|]. split; [exact Hno|].
  destruct (handleUpdatePostStatus_spec e "p1" "CLOSED" st w) as (_ & _ & H).
  destruct (H Scenario.token_exp_2000 Hv ltac:(discriminate)) as (_ & _ & H' & _).
  exact (H' Hno).
Defined.

End MyPosts.
